(** * unishark.suite: the four-level test tree, its fixtures and its two runners

    A shallow embedding of [src/unishark/suite.py].

    - Python objects mutated in place (the [result] a runner writes to, the
      ledger sets of the suite that runs, the [_classSetupFailed] attribute
      of a test class) are threaded explicitly: a procedure is an [action],
      a function from the result it is given and the rest of the process
      state to an optional exception, the result as it was left and the
      state as it was left.
    - [unittest] is the standard library, not this repository: the parts the
      suite calls through inheritance ([TestSuite.run], [TestCase.run],
      [TestCase.debug]) are transcribed from CPython's [Lib/unittest], and
      the inherited reporting helper [_addClassOrModuleLevelException] is a
      parameter of the procedures, with its definition in the library,
      [unittest_addClassOrModuleLevelException], beside it.
    - [unishark.result] is a module of its own: [combine_results] and the
      allocation of child results are modelled from the specification and
      marked as such. *)

From Stdlib Require Import ZArith Permutation.
From stdpp Require Import gmap strings list.

Open Scope string_scope.
Open Scope list_scope.
Open Scope Z_scope.

(** ** Data model *)

(** An exception value: the name of its class and its text. *)
Record Exc := mkExc { exc_class : string; exc_text : string }.

(** What calling a fixture hook does.  [Raises e] is an exception that
    derives from [Exception], the ones the handlers of the suite catch;
    [Exits e] is one that does not ([SystemExit], [KeyboardInterrupt]),
    which [except Exception] lets through. *)
Inductive Hook :=
| Returns
| Raises (e : Exc)
| Exits (e : Exc).

(** A test class as the suite sees it: [__module__], [__name__], the
    [__unittest_skip__] marker with its [__unittest_skip_why__], and the
    two optional class hooks. *)
Record Class := mkClass {
  cls_module : string;
  cls_name : string;
  unittest_skip : bool;
  unittest_skip_why : string;
  setUpClass : option Hook;
  tearDownClass : option Hook
}.

(** A module object found in [sys.modules], with its two optional hooks. *)
Record PyModule := mkModule {
  setUpModule : option Hook;
  tearDownModule : option Hook
}.

(** What the body of a test method (setUp, the method, tearDown) ends in. *)
Inductive Outcome :=
| Success
| Failure (text : string)
| Error (text : string)
| Skipped (reason : string).

(** One test case instance: its class, its method and how the method ends. *)
Record TestCase := mkCase {
  case_class : Class;
  case_method : string;
  case_outcome : Outcome
}.

(** A test is a case or a suite, an ordered collection of tests. *)
#[warnings="-register-all"]
Inductive Test :=
| Case (c : TestCase)
| Suite (tests : list Test).

#[global] Instance Exc_eq_dec : EqDecision Exc.
Proof. solve_decision. Defined.
#[global] Instance Hook_eq_dec : EqDecision Hook.
Proof. solve_decision. Defined.
#[global] Instance Class_eq_dec : EqDecision Class.
Proof. solve_decision. Defined.

#[global] Instance Exc_countable : Countable Exc.
Proof.
  refine (inj_countable' (fun e => (exc_class e, exc_text e))
                         (fun p => mkExc p.1 p.2) _).
  by intros [].
Defined.

#[global] Instance Hook_countable : Countable Hook.
Proof.
  refine (inj_countable'
            (fun h => match h with
                      | Returns => None
                      | Raises e => Some (inl e)
                      | Exits e => Some (inr e)
                      end)
            (fun o => match o with
                      | None => Returns
                      | Some (inl e) => Raises e
                      | Some (inr e) => Exits e
                      end) _).
  by intros [].
Defined.

#[global] Instance Class_countable : Countable Class.
Proof.
  refine (inj_countable'
            (fun c => (cls_module c, cls_name c, unittest_skip c, unittest_skip_why c,
                       setUpClass c, tearDownClass c))
            (fun p => match p with (m, n, s, y, u, d) => mkClass m n s y u d end) _).
  by intros [].
Defined.

(** The class of the suite objects themselves, [unishark.suite.TestSuite]:
    what [t.__class__] is when [t] is a suite.  It carries no skip marker
    and defines neither [setUpClass] nor [tearDownClass]. *)
Definition TestSuite_class : Class :=
  mkClass "unishark.suite" "TestSuite" false "" None None.

(** [t.__class__] *)
Definition class_of (t : Test) : Class :=
  match t with
  | Case c => case_class c
  | Suite _ => TestSuite_class
  end.

(** [util.strclass(cls)], and the [class_name] the class fixtures build. *)
Definition strclass (c : Class) : string := cls_module c +:+ "." +:+ cls_name c.

(** [test.id()] of a case. *)
Definition case_id (c : TestCase) : string :=
  strclass (case_class c) +:+ "." +:+ case_method c.

(** ** Levels *)

Definition ROOT_LEVEL : Z := 0.
Definition MODULE_LEVEL : Z := 1.
Definition CLASS_LEVEL : Z := 2.
Definition METHOD_LEVEL : Z := 3.

(** ** Exceptions that leave a procedure *)
Inductive PyError :=
| ValueError (msg : string)
| RuntimeError (msg : string)
| TypeError
| AttributeError
| Raised (e : Exc).

(** A value or an exception. *)
Inductive res (A : Type) :=
| Ok (a : A)
| Exn (e : PyError).
Arguments Ok {A} a.
Arguments Exn {A} e.

(** ** Tree classifier *)

Definition _is_suite (test : Test) : bool :=
  match test with
  | Suite _ => true
  | Case _ => false
  end.

Fixpoint _get_level (test : Test) : Z :=
  match test with
  | Case _ => METHOD_LEVEL
  | Suite tests =>
      match tests with
      | t :: _ => _get_level t - 1
      | [] => -1
      end
  end.

(** Iterating a case raises [TypeError]; [None] is the value the function
    starts from and keeps when a loop finds nothing. *)
Definition _get_current_module (test : Test) : res (option string) :=
  match test with
  | Case _ => Exn TypeError
  | Suite [] => Ok None
  | Suite (tt_ :: _) =>
      match tt_ with
      | Case _ => Exn TypeError
      | Suite [] => Ok None
      | Suite (t :: _) => Ok (Some (cls_module (class_of t)))
      end
  end.

Definition _get_current_class (test : Test) : res (option Class) :=
  match test with
  | Case _ => Exn TypeError
  | Suite [] => Ok None
  | Suite (t :: _) => Ok (Some (class_of t))
  end.

(** ** Results and the process state *)

(** The result object a runner writes to: the counters and record lists of
    [unittest.TestResult] (an entry pairs the identity of a test with its
    text), the [children] unishark's result adds, and the private fields
    [unittest.TestSuite.run] keeps on it.  [is_DebugResult] tells the
    [_DebugResult] of the library from a real result. *)
#[warnings="-register-all"]
Inductive Result := mkResult {
  testsRun : nat;
  failures : list (string * string);
  errors : list (string * string);
  skipped : list (string * string);
  children : list Result;
  _previousTestClass : option Class;
  _moduleSetUpFailed : bool;
  _testRunEntered : bool;
  shouldStop : bool;
  is_DebugResult : bool
}.

Definition set_testsRun (n : nat) (r : Result) : Result :=
  mkResult n (failures r) (errors r) (skipped r) (children r) (_previousTestClass r)
           (_moduleSetUpFailed r) (_testRunEntered r) (shouldStop r) (is_DebugResult r).
Definition set_failures (l : list (string * string)) (r : Result) : Result :=
  mkResult (testsRun r) l (errors r) (skipped r) (children r) (_previousTestClass r)
           (_moduleSetUpFailed r) (_testRunEntered r) (shouldStop r) (is_DebugResult r).
Definition set_errors (l : list (string * string)) (r : Result) : Result :=
  mkResult (testsRun r) (failures r) l (skipped r) (children r) (_previousTestClass r)
           (_moduleSetUpFailed r) (_testRunEntered r) (shouldStop r) (is_DebugResult r).
Definition set_skipped (l : list (string * string)) (r : Result) : Result :=
  mkResult (testsRun r) (failures r) (errors r) l (children r) (_previousTestClass r)
           (_moduleSetUpFailed r) (_testRunEntered r) (shouldStop r) (is_DebugResult r).
Definition set_children (l : list Result) (r : Result) : Result :=
  mkResult (testsRun r) (failures r) (errors r) (skipped r) l (_previousTestClass r)
           (_moduleSetUpFailed r) (_testRunEntered r) (shouldStop r) (is_DebugResult r).
Definition set_previousTestClass (c : option Class) (r : Result) : Result :=
  mkResult (testsRun r) (failures r) (errors r) (skipped r) (children r) c
           (_moduleSetUpFailed r) (_testRunEntered r) (shouldStop r) (is_DebugResult r).
Definition set_moduleSetUpFailed (b : bool) (r : Result) : Result :=
  mkResult (testsRun r) (failures r) (errors r) (skipped r) (children r) (_previousTestClass r)
           b (_testRunEntered r) (shouldStop r) (is_DebugResult r).
Definition set_testRunEntered (b : bool) (r : Result) : Result :=
  mkResult (testsRun r) (failures r) (errors r) (skipped r) (children r) (_previousTestClass r)
           (_moduleSetUpFailed r) b (shouldStop r) (is_DebugResult r).

(** [result.startTest(test)], [addFailure], [addError], [addSkip] of
    [unittest.TestResult], with failfast off (its default). *)
Definition startTest (r : Result) : Result := set_testsRun (S (testsRun r)) r.
Definition addFailure (id text : string) (r : Result) : Result :=
  set_failures (failures r ++ [(id, text)]) r.
Definition addError (id text : string) (r : Result) : Result :=
  set_errors (errors r ++ [(id, text)]) r.
Definition addSkip (id reason : string) (r : Result) : Result :=
  set_skipped (skipped r ++ [(id, reason)]) r.

(** A result nothing was written to, and the library's [_DebugResult()]. *)
Definition new_result (kids : list Result) : Result :=
  mkResult 0 [] [] [] kids None false false false false.
Definition _DebugResult : Result :=
  mkResult 0 [] [] [] [] None false false false true.

(** What a run does that its caller can observe, in the order it happens. *)
Inductive Event :=
| SetupStdout                  (* [_call_if_exists(result, '_setupStdout')] *)
| RestoreStdout                (* [_call_if_exists(result, '_restoreStdout')] *)
| CallHook (fixture : string)  (* a module or class hook is called *)
| RunBody (id : string).       (* the body of a test method is entered *)

#[global] Instance Event_eq_dec : EqDecision Event.
Proof. solve_decision. Defined.

(** The state outside the result: the two ledger sets of the suite that
    runs, the classes whose [_classSetupFailed] attribute is true, and the
    events so far. *)
Record World := mkWorld {
  _successful_fixtures : gset string;
  _failed_fixtures : gset string;
  _classSetupFailed : gset Class;
  trace : list Event
}.

Definition log (ev : Event) (w : World) : World :=
  mkWorld (_successful_fixtures w) (_failed_fixtures w) (_classSetupFailed w) (trace w ++ [ev]).
Definition add_successful (name : string) (w : World) : World :=
  mkWorld ({[name]} ∪ _successful_fixtures w) (_failed_fixtures w) (_classSetupFailed w) (trace w).
Definition add_failed (name : string) (w : World) : World :=
  mkWorld (_successful_fixtures w) ({[name]} ∪ _failed_fixtures w) (_classSetupFailed w) (trace w).
Definition set_classSetupFailed (c : Class) (b : bool) (w : World) : World :=
  mkWorld (_successful_fixtures w) (_failed_fixtures w)
          (if b then {[c]} ∪ _classSetupFailed w else _classSetupFailed w ∖ {[c]}) (trace w).

(** [name in self._successful_fixtures or name in self._failed_fixtures] *)
Definition recorded (name : string) (w : World) : bool :=
  bool_decide (name ∈ _successful_fixtures w) || bool_decide (name ∈ _failed_fixtures w).

(** ** Procedures *)

(** A procedure that writes to a result: the exception it ends in, if any,
    the result as it leaves it and the state as it leaves it. *)
Definition action : Type := Result -> World -> option PyError * Result * World.

Definition done_ : action := fun result w => (None, result, w).
Definition raise (e : PyError) : action := fun result w => (Some e, result, w).

(** [a] then [b]; an exception of [a] skips [b]. *)
Definition and_then (a b : action) : action :=
  fun result w =>
    match a result w with
    | (None, result', w') => b result' w'
    | out => out
    end.
Notation "a >> b" := (and_then a b) (at level 62, right associativity).

(** [for t in tests: f(t)] *)
Definition for_each (f : Test -> action) : list Test -> action :=
  fix go (tests : list Test) : action :=
    match tests with
    | [] => done_
    | t :: tests' => f t >> go tests'
    end.

(** Work handed to the pool finishes in an order the program does not
    choose.  A batch of futures is followed here as the sequence of its
    units in the order they complete; which batch it is, is told by its
    phase and by the suite whose children are being run. *)
Inductive Phase := Setup | Body | Teardown.

(** ** Concrete trees to evaluate the runners on *)

(** [unittest.TestSuite._addClassOrModuleLevelException(result, exception,
    errorName)], transcribed from CPython's [Lib/unittest/suite.py]: the
    exception is filed under an [_ErrorHolder] whose id is [errorName], as
    a skip when it is a [SkipTest] and as an error otherwise. *)
Definition unittest_addClassOrModuleLevelException (result : Result) (exception : Exc)
    (errorName : string) : Result :=
  if bool_decide (exc_class exception = "SkipTest")
  then addSkip errorName (exc_text exception) result
  else addError errorName (exc_text exception) result.

(** [result'] is [result] with the exception [e] filed under
    [error_name], as the library's helper does it, and nothing else. *)
Definition filed (e : Exc) (error_name : string) (result result' : Result) : Prop :=
  testsRun result' = testsRun result
  ∧ failures result' = failures result
  ∧ if bool_decide (exc_class e = "SkipTest")
    then skipped result' = skipped result ++ [(error_name, exc_text e)]
         ∧ errors result' = errors result
    else errors result' = errors result ++ [(error_name, exc_text e)]
         ∧ skipped result' = skipped result.

(** The hook of fixture [fixture_name] raised [e] inside [a] and [a]
    returned with the exception filed under [error_name], the fixture in
    the failed set of the ledger and the output redirection set up before
    the call and restored after it. *)
Definition records_failure (a : Result -> World -> option PyError * Result * World)
    (fixture_name error_name : string) (e : Exc) (result : Result) (w : World) : Prop :=
  ∃ result' w',
    a result w = (None, result', w')
    ∧ filed e error_name result result'
    ∧ fixture_name ∈ _failed_fixtures w'
    ∧ trace w' = trace w ++ [SetupStdout; CallHook fixture_name; RestoreStdout].

Module Examples.

Definition boom : Exc := mkExc "RuntimeError" "boom".
Definition bye : Exc := mkExc "SystemExit" "0".
Definition not_here : Exc := mkExc "SkipTest" "not on this platform".

(** [sys.modules]: module [m] with both hooks, module [bad] whose
    setUpModule raises. *)
Definition modules : gmap string PyModule :=
  {[ "m" := mkModule (Some Returns) (Some Returns);
     "n" := mkModule None None;
     "bad" := mkModule (Some (Raises boom)) (Some Returns);
     "quit" := mkModule (Some (Exits bye)) (Some Returns);
     "skip" := mkModule (Some (Raises not_here)) None ]}.

Definition class_A : Class := mkClass "m" "A" false "" (Some Returns) (Some Returns).
Definition class_B : Class := mkClass "m" "B" false "" (Some Returns) (Some Returns).
Definition class_S : Class := mkClass "n" "S" true "not yet" (Some Returns) (Some Returns).
Definition class_T : Class := mkClass "n" "T" false "" (Some Returns) (Some Returns).
Definition class_broken : Class := mkClass "m" "Broken" false "" (Some (Raises boom)) (Some Returns).
Definition class_in_bad : Class := mkClass "bad" "C" false "" (Some Returns) (Some Returns).
Definition class_in_quit : Class := mkClass "quit" "Q" false "" (Some Returns) (Some Returns).
Definition class_in_skip : Class := mkClass "skip" "K" false "" (Some Returns) (Some Returns).

Definition a1 : TestCase := mkCase class_A "test_1" Success.
Definition a2 : TestCase := mkCase class_A "test_2" (Failure "1 != 2").
Definition b1 : TestCase := mkCase class_B "test_1" (Error "KeyError").
Definition b2 : TestCase := mkCase class_B "test_2" Success.
Definition s1 : TestCase := mkCase class_S "test_1" Success.
Definition s2 : TestCase := mkCase class_S "test_2" Success.
Definition t1 : TestCase := mkCase class_T "test_1" (Skipped "later").
Definition t2 : TestCase := mkCase class_T "test_2" Success.
Definition broken1 : TestCase := mkCase class_broken "test_1" Success.
Definition bad1 : TestCase := mkCase class_in_bad "test_1" Success.
Definition q1 : TestCase := mkCase class_in_quit "test_1" Success.
Definition k1 : TestCase := mkCase class_in_skip "test_1" Success.

(** One module, one class, one case. *)
Definition single : list Test := [Suite [Suite [Case a1]]].

(** Two modules of two classes of two cases. *)
Definition two_by_two : list Test :=
  [Suite [Suite [Case a1; Case a2]; Suite [Case b1; Case b2]];
   Suite [Suite [Case s1; Case s2]; Suite [Case t1; Case t2]]].

(** A class whose setUpClass raises, and a module whose setUpModule
    raises. *)
Definition failing_class : list Test := [Suite [Suite [Case broken1]]].
Definition failing_module : list Test := [Suite [Suite [Case bad1]]].

(** A module whose setUpModule raises [SystemExit]. *)
Definition exiting_module : list Test := [Suite [Suite [Case q1]]].

(** The cases of class [m.A] in two class suites, with a suite of [m.B]
    between them. *)
Definition interleaved : list Test :=
  [Suite [Suite [Case a1]; Suite [Case b1]; Suite [Case a2]]].

(** Not well-formed: the case [a2] sits at class level, beside a class
    suite. *)
Definition stray_case : list Test := [Suite [Suite [Case a1]; Case a2]].

(** A module suite with nothing in it. *)
Definition empty_module : Test := Suite [].

(** A well-formed tree whose only case fails. *)
Definition failing_case : list Test := [Suite [Suite [Case a2]]].

(** Results for a tree of one module, with one child slot per suite that
    is divided: down to module level, to class level, to method level. *)
Definition slots_to_module : Result := new_result [new_result []].
Definition slots_to_class : Result := new_result [new_result [new_result []]].
Definition slots_to_method : Result :=
  new_result [new_result [new_result [new_result []]]].

(** One way the inherited helper can file an exception: as an error. *)
Definition file_error (result : Result) (e : Exc) (errorName : string) : Result :=
  addError errorName (exc_text e) result.

(** Futures completing in the order they were submitted, and in the
    opposite order. *)
Definition in_order (_ : Phase) (_ : Test) (n : nat) : list nat := seq 0 n.
Definition reversed (_ : Phase) (_ : Test) (n : nat) : list nat := rev (seq 0 n).

(** A process that has run nothing yet. *)
Definition fresh : World := mkWorld ∅ ∅ ∅ [].

(** A collection as a loader hands it over: cases of several classes and
    modules, nested unevenly, with an empty suite among them. *)
Definition loaded : Test :=
  Suite [Case a1; Suite [Case s1; Suite [Case b1; Case t1]]; Suite []; Case a2;
         Suite [Case s2; Case b2]; Case t2].

(** A collection that holds suites and no case. *)
Definition nothing_loaded : Test := Suite [Suite []; Suite [Suite []]].

(** The module name of a case taken from its class. *)
Definition module_of_class (c : TestCase) : string := cls_module (case_class c).

End Examples.

(** ** Dicts in insertion order *)

(** A Python dict as [convert] uses it: the keys are distinct and
    [d.values()] follows the order in which the keys were first set.
    [upsert k init f d] is [if k not in d: d[k] = init] followed by
    [d[k] = f(d[k])]. *)
Fixpoint upsert {K V : Type} `{EqDecision K} (k : K) (init : V) (f : V -> V)
    (d : list (K * V)) : list (K * V) :=
  match d with
  | [] => [(k, f init)]
  | (k', v) :: d' =>
      if decide (k' = k) then (k', f v) :: d'
      else (k', v) :: upsert k init f d'
  end.

(** [d.values()] *)
Definition values {K V : Type} (d : list (K * V)) : list V := map snd d.

Section Suite.

(** [sys.modules] *)
Variable sys_modules : gmap string PyModule.

(** [self._addClassOrModuleLevelException(result, exception, errorName)],
    inherited from [unittest.TestSuite]: it files the exception in the
    result under an [_ErrorHolder] named [errorName]. *)
Variable _addClassOrModuleLevelException : Result -> Exc -> string -> Result.

(** The order in which the [n] futures of a batch complete. *)
Variable as_completed : Phase -> Test -> nat -> list nat.

(** [get_module_name(test)] of [unishark.util], on a test case. *)
Variable get_module_name : TestCase -> string.

(** *** Grouping (suite.py, lines 68-94) *)

(** The dict [convert] fills: module name, then class, then the cases of
    the class in the order they were met. *)
Definition Groups : Type := list (string * list (Class * list TestCase)).

Fixpoint _group_test_cases (test : Test) (dic : Groups) : Groups :=
  match test with
  | Case c =>
      upsert (get_module_name c) []
             (upsert (case_class c) [] (fun cases => cases ++ [c])) dic
  | Suite tests => fold_left (fun dic t => _group_test_cases t dic) tests dic
  end.

(** [convert(test)]: one suite per module, holding one suite per class,
    holding the cases of the class. *)
Definition convert (test : Test) : Test :=
  Suite (map (fun mod_dic =>
                Suite (map (fun cases => Suite (map Case cases)) (values mod_dic)))
             (values (_group_test_cases test []))).

(** *** Fixtures (suite.py, lines 178-283) *)

(** The block the four fixture procedures share:
    [_setupStdout], then [try: hook(); successful.add(name)],
    [except Exception as e: failed.add(name); ...;
    _addClassOrModuleLevelException(result, e, error_name)],
    [finally: _restoreStdout].  [mark] is what only [_setup_class] does on
    failure, [current_class._classSetupFailed = True].  An exception that
    does not derive from [Exception] passes the handler: the output is
    restored by [finally], the ledger is left alone and the exception
    leaves the procedure. *)
Definition call_fixture (hook : Hook) (fixture_name error_name : string)
    (mark : World -> World) : action :=
  fun result w =>
    let w := log (CallHook fixture_name) (log SetupStdout w) in
    match hook with
    | Returns =>
        (None, result, log RestoreStdout (add_successful fixture_name w))
    | Raises e =>
        (None, _addClassOrModuleLevelException result e error_name,
         log RestoreStdout (mark (add_failed fixture_name w)))
    | Exits e => (Some (Raised e), result, log RestoreStdout w)
    end.

Definition _setup_module (test : Test) : action :=
  fun result w =>
    match _get_current_module test with
    | Exn e => (Some e, result, w)
    | Ok None => (Some TypeError, result, w)   (* None + '.setUpModule' *)
    | Ok (Some current_module) =>
        let fixture_name := current_module +:+ ".setUpModule" in
        if recorded fixture_name w then (None, result, w)
        else
          match sys_modules !! current_module with
          | None => (None, result, w)          (* KeyError *)
          | Some module =>
              match setUpModule module with
              | None => (None, result, w)
              | Some hook =>
                  call_fixture hook fixture_name
                    ("setUpModule (" +:+ current_module +:+ ")") id result w
              end
          end
    end.

Definition _teardown_module (test : Test) : action :=
  fun result w =>
    match _get_current_module test with
    | Exn e => (Some e, result, w)
    | Ok None => (Some TypeError, result, w)   (* None + '.tearDownModule' *)
    | Ok (Some current_module) =>
        let fixture_name := current_module +:+ ".tearDownModule" in
        if recorded fixture_name w then (None, result, w)
        else if bool_decide (current_module +:+ ".setUpModule" ∈ _failed_fixtures w)
        then (None, result, w)
        else
          match sys_modules !! current_module with
          | None => (None, result, w)          (* KeyError *)
          | Some module =>
              match tearDownModule module with
              | None => (None, result, w)
              | Some hook =>
                  call_fixture hook fixture_name
                    ("tearDownModule (" +:+ current_module +:+ ")") id result w
              end
          end
    end.

Definition _setup_class (test : Test) : action :=
  fun result w =>
    match _get_current_class test with
    | Exn e => (Some e, result, w)
    | Ok None => (Some AttributeError, result, w)   (* None.__module__ *)
    | Ok (Some current_class) =>
        let current_module := cls_module current_class in
        let class_name := current_module +:+ "." +:+ cls_name current_class in
        let fixture_name := class_name +:+ ".setUpClass" in
        if recorded fixture_name w then (None, result, w)
        else if bool_decide (current_module +:+ ".setUpModule" ∈ _failed_fixtures w)
        then (None, result, w)
        else if unittest_skip current_class then (None, result, w)
        else
          match setUpClass current_class with
          | None => (None, result, w)
          | Some hook =>
              call_fixture hook fixture_name
                ("setUpClass (" +:+ class_name +:+ ")")
                (set_classSetupFailed current_class true) result w
          end
    end.

Definition _teardown_class (test : Test) : action :=
  fun result w =>
    match _get_current_class test with
    | Exn e => (Some e, result, w)
    | Ok None => (Some AttributeError, result, w)   (* None.__module__ *)
    | Ok (Some current_class) =>
        let current_module := cls_module current_class in
        let class_name := current_module +:+ "." +:+ cls_name current_class in
        let fixture_name := class_name +:+ ".tearDownClass" in
        if recorded fixture_name w then (None, result, w)
        else if bool_decide (class_name +:+ ".setUpClass" ∈ _failed_fixtures w)
        then (None, result, w)
        else if bool_decide (current_module +:+ ".setUpModule" ∈ _failed_fixtures w)
        then (None, result, w)
        else if unittest_skip current_class then (None, result, w)
        else
          match tearDownClass current_class with
          | None => (None, result, w)
          | Some hook =>
              call_fixture hook fixture_name
                ("tearDownClass (" +:+ class_name +:+ ")") id result w
          end
    end.

(** *** What the suite inherits from [unittest] *)

(** [TestCase.run(result)], reached as [test(result)]: the test is counted,
    a case of a class marked skip is recorded as skipped without entering
    the body, and otherwise the body runs and its outcome is recorded.
    Nothing here looks at [_classSetupFailed]. *)
Definition TestCase_run (c : TestCase) : action :=
  fun result w =>
    let result := startTest result in
    if unittest_skip (case_class c)
    then (None, addSkip (case_id c) (unittest_skip_why (case_class c)) result, w)
    else
      let w := log (RunBody (case_id c)) w in
      match case_outcome c with
      | Success => (None, result, w)
      | Failure text => (None, addFailure (case_id c) text result, w)
      | Error text => (None, addError (case_id c) text result, w)
      | Skipped reason => (None, addSkip (case_id c) reason result, w)
      end.

(** [TestCase.debug()]: the test runs without a result; whatever it raises
    leaves the call. *)
Definition TestCase_debug (c : TestCase) : action :=
  fun result w =>
    if unittest_skip (case_class c)
    then (Some (Raised (mkExc "SkipTest" (unittest_skip_why (case_class c)))), result, w)
    else
      let w := log (RunBody (case_id c)) w in
      match case_outcome c with
      | Success => (None, result, w)
      | Failure text => (Some (Raised (mkExc "AssertionError" text)), result, w)
      | Error text => (Some (Raised (mkExc "Exception" text)), result, w)
      | Skipped reason => (Some (Raised (mkExc "SkipTest" reason)), result, w)
      end.

(** [_createClassOrModuleLevelException(result, exc, method_name, parent)] *)
Definition _createClassOrModuleLevelException (result : Result) (exc : Exc)
    (method_name parent : string) : Result :=
  _addClassOrModuleLevelException result exc (method_name +:+ " (" +:+ parent +:+ ")").

(** The hook call of the library's fixture handlers, between
    [_setupStdout] and [_restoreStdout]: a [_DebugResult] lets the
    exception through, a real result records it after [on_fail]; an
    exception that does not derive from [Exception] passes the handler.
    Class and module cleanups ([doClassCleanups], [doModuleCleanups]) have
    nothing registered. *)
Definition library_hook (hook : option Hook) (fixture_name method_name parent : string)
    (on_fail : Result -> Result) (mark : World -> World) : action :=
  fun result w =>
    match hook with
    | None => (None, result, w)
    | Some Returns => (None, result, log (CallHook fixture_name) w)
    | Some (Raises e) =>
        let w := log (CallHook fixture_name) w in
        if is_DebugResult result then (Some (Raised e), result, w)
        else (None, _createClassOrModuleLevelException (on_fail result) e method_name parent,
              mark w)
    | Some (Exits e) => (Some (Raised e), result, log (CallHook fixture_name) w)
    end.

(** [try: a finally: _call_if_exists(result, '_restoreStdout')] after
    [_call_if_exists(result, '_setupStdout')] *)
Definition with_stdout (a : action) : action :=
  fun result w =>
    match a result (log SetupStdout w) with
    | (e, result', w') => (e, result', log RestoreStdout w')
    end.

Definition _get_previous_module (result : Result) : option string :=
  match _previousTestClass result with
  | Some previousClass => Some (cls_module previousClass)
  | None => None
  end.

Definition _handleModuleTearDown : action :=
  fun result w =>
    match _get_previous_module result with
    | None => (None, result, w)
    | Some previousModule =>
        if _moduleSetUpFailed result then (None, result, w)
        else
          match sys_modules !! previousModule with
          | None => (None, result, w)
          | Some module =>
              with_stdout
                (library_hook (tearDownModule module)
                   (previousModule +:+ ".tearDownModule") "tearDownModule" previousModule
                   id id) result w
          end
    end.

Definition _handleModuleFixture (currentClass : Class) : action :=
  fun result w =>
    let currentModule := cls_module currentClass in
    if bool_decide (Some currentModule = _get_previous_module result) then (None, result, w)
    else
      (_handleModuleTearDown >>
       (fun result w =>
          let result := set_moduleSetUpFailed false result in
          match sys_modules !! currentModule with
          | None => (None, result, w)
          | Some module =>
              match setUpModule module with
              | None => (None, result, w)
              | Some hook =>
                  with_stdout
                    (library_hook (Some hook)
                       (currentModule +:+ ".setUpModule") "setUpModule" currentModule
                       (set_moduleSetUpFailed true) id) result w
              end
          end)) result w.

Definition _handleClassSetUp (currentClass : Class) : action :=
  fun result w =>
    if bool_decide (Some currentClass = _previousTestClass result) then (None, result, w)
    else if _moduleSetUpFailed result then (None, result, w)
    else if unittest_skip currentClass then (None, result, w)
    else
      let w := set_classSetupFailed currentClass false w in
      match setUpClass currentClass with
      | None => (None, result, w)
      | Some hook =>
          with_stdout
            (library_hook (Some hook)
               (strclass currentClass +:+ ".setUpClass") "setUpClass" (strclass currentClass)
               id (set_classSetupFailed currentClass true)) result w
      end.

(** [_tearDownPreviousClass(test, result)]; [currentClass] is [None] for
    the call with [test = None] that ends a top-level run.  Test classes
    derive from [TestCase], which defines [doClassCleanups], so the early
    return for a class with neither [tearDownClass] nor [doClassCleanups]
    does not apply. *)
Definition _tearDownPreviousClass (currentClass : option Class) : action :=
  fun result w =>
    match _previousTestClass result with
    | None => (None, result, w)
    | Some previousClass =>
        if bool_decide (currentClass = Some previousClass) then (None, result, w)
        else if bool_decide (previousClass ∈ _classSetupFailed w) then (None, result, w)
        else if _moduleSetUpFailed result then (None, result, w)
        else if unittest_skip previousClass then (None, result, w)
        else
          with_stdout
            (library_hook (tearDownClass previousClass)
               (strclass previousClass +:+ ".tearDownClass") "tearDownClass"
               (strclass previousClass) id id) result w
    end.

(** The loop of [unittest.TestSuite.run]; [call] is
    [test(result)] or, in debug mode, [test.debug()].  That the suite drops
    its reference to a test once it has run ([_removeTestAtIndex]) is not
    followed: a tree is run once. *)
Definition unittest_loop (call : Test -> action) : list Test -> action :=
  fix go (tests : list Test) : action :=
    match tests with
    | [] => done_
    | test :: tests' =>
        fun result w =>
          if shouldStop result then (None, result, w)
          else
            ((if _is_suite test then call test
              else
                _tearDownPreviousClass (Some (class_of test)) >>
                _handleModuleFixture (class_of test) >>
                _handleClassSetUp (class_of test) >>
                (fun result w =>
                   let result := set_previousTestClass (Some (class_of test)) result in
                   if bool_decide (class_of test ∈ _classSetupFailed w)
                      || _moduleSetUpFailed result
                   then (None, result, w)
                   else call test result w))
             >> go tests') result w
    end.

(** [unittest.TestSuite.run(self, result, debug)] over the tests of [self]. *)
Definition unittest_run (call : Test -> action) (tests : list Test) : action :=
  fun result w =>
    let topLevel := negb (_testRunEntered result) in
    let result := if topLevel then set_testRunEntered true result else result in
    (unittest_loop call tests >>
     (if topLevel
      then _tearDownPreviousClass None >> _handleModuleTearDown >>
           (fun result w => (None, set_testRunEntered false result, w))
      else done_)) result w.

(** [test.debug()] of a suite: [self.run(_DebugResult(), True)]; the
    caller's result is not written to. *)
Definition on_DebugResult (a : action) : action :=
  fun result w =>
    match a _DebugResult w with
    | (e, _, w') => (e, result, w')
    end.

(** [test(result)] when [debug] is false, [test.debug()] when it is true.
    A child suite is a [TestSuite] of this module called with the default
    arguments of [run], which pass the range check and take the branch
    that hands over to [unittest.TestSuite.run]. *)
Fixpoint call_test (debug : bool) (test : Test) : action :=
  match test with
  | Case c => if debug then TestCase_debug c else TestCase_run c
  | Suite tests =>
      if debug then on_DebugResult (unittest_run (call_test true) tests)
      else unittest_run (call_test false) tests
  end.

(** [super(TestSuite, self).run(result, debug)] *)
Definition super_run (tests : list Test) (debug : bool) : action :=
  unittest_run (call_test debug) tests.

(** *** Folding child results *)

(** Modelled from the spec: [unishark.result.combine_results] is imported by
    the suite and defined elsewhere.  The specification has it fold the
    ordered sequence of child results into the parent: counts are summed,
    failure, error and skip records are concatenated in child order, and
    the list of child results stays attached to the parent. *)
Definition combine_results (result : Result) (results : list Result) : Result :=
  set_children results
    (fold_left
       (fun acc r =>
          set_testsRun (testsRun acc + testsRun r)%nat
            (set_failures (failures acc ++ failures r)
               (set_errors (errors acc ++ errors r)
                  (set_skipped (skipped acc ++ skipped r) acc))))
       results result).

(** *** The sequential executor (suite.py, lines 163-176) *)

Fixpoint _seq_run (test : Test) : action :=
  match test with
  | Case c => TestCase_run c
  | Suite tests =>
      if _get_level test =? MODULE_LEVEL then
        _setup_module test >> for_each _seq_run tests >> _teardown_module test
      else if _get_level test =? CLASS_LEVEL then
        _setup_class test >> for_each _seq_run tests >> _teardown_class test
      else done_
  end.

(** *** The concurrent scheduler (suite.py, lines 120-161) *)

(** A unit of work on [results[i]], the result [zip(test, results)] pairs
    with the [i]-th child; the child result is updated in place. *)
Definition on_child (i : nat) (a : action) : action :=
  fun result w =>
    match children result !! i with
    | None => (None, result, w)
    | Some r =>
        match a r w with
        | (e, r', w') => (e, set_children (<[i := r']> (children result)) result, w')
        end
    end.

(** A future nobody asks for its result ([concurrent.futures.wait]): what
    it raises stays inside it. *)
Definition stays_in_future (a : action) : action :=
  fun result w =>
    match a result w with
    | (_, result', w') => (None, result', w')
    end.

(** The units of a batch, one after the other in the order they complete:
    the schedule in which no two futures overlap.  It is every schedule
    for units that do not look up the same fixture name, the only state
    two futures share being the ledger.  A unit that raises where the
    scheduler calls [done.result()] ends the run of the batch there; what
    the futures already submitted still do in the pool is not followed. *)
Definition batch (unit_ : nat -> action) : list nat -> action :=
  fix go (order : list nat) : action :=
    match order with
    | [] => done_
    | i :: order' => unit_ i >> go order'
    end.

(** What the future submitted for the [i]-th pair of [zip(test, results)]
    does to [results[i]]; nothing is submitted where there is no pair. *)
Definition unit_of (units : list (Test * action)) (f : Test * action -> action)
    (i : nat) : action :=
  match units !! i with
  | Some u => f u
  | None => done_
  end.

(** The three phases the scheduler runs over [zip(test, results)] at root
    and module level: every setup, then every child, then every teardown.
    The setups and the children are asked for their result with
    [done.result()], the teardowns are only waited for.  [units] is [None]
    when [test] is a case, which [zip] cannot iterate. *)
Definition fan_out (test : Test) (setup teardown : Test -> action)
    (units : option (list (Test * action))) : action :=
  fun result w =>
    match units with
    | None => (Some TypeError, result, w)
    | Some units =>
        let n := Nat.min (length units) (length (children result)) in
        (batch (fun i => on_child i (unit_of units (fun u => setup u.1) i))
               (as_completed Setup test n) >>
         batch (fun i => on_child i (unit_of units (fun u => u.2) i))
               (as_completed Body test n) >>
         batch (fun i => on_child i (stays_in_future (unit_of units (fun u => teardown u.1) i)))
               (as_completed Teardown test n)) result w
    end.

(** At class level the children are submitted without fixtures and waited
    for with [concurrent.futures.wait]. *)
Definition fan_out_cases (test : Test) (units : option (list (Test * action))) : action :=
  fun result w =>
    match units with
    | None => (Some TypeError, result, w)
    | Some units =>
        let n := Nat.min (length units) (length (children result)) in
        batch (fun i => on_child i (stays_in_future (unit_of units (fun u => u.2) i)))
              (as_completed Body test n) result w
    end.

(** [self._run(test, result, current_level, concurrency_level, executor,
    timeout)], for runs in which no wait times out and every future gets
    a worker.  The calls below the root run in the pool they submit to and
    wait there, so a pool with too few workers starves; [enough_workers]
    below is a bound under which it cannot. *)
Fixpoint _run (test : Test) (current_level concurrency_level : Z) : action :=
  if current_level =? concurrency_level then _seq_run test
  else if current_level <? concurrency_level then
    let units :=
      match test with
      | Case _ => None
      | Suite tests =>
          Some (map (fun t => (t, _run t (current_level + 1) concurrency_level)) tests)
      end in
    (if current_level =? ROOT_LEVEL then
       fan_out test _setup_module _teardown_module units
     else if current_level =? MODULE_LEVEL then
       fan_out test _setup_class _teardown_class units
     else if current_level =? CLASS_LEVEL then
       fan_out_cases test units
     else done_) >>
    (fun result w => (None, combine_results result (children result), w))
  else done_.

(** *** The entry point (suite.py, lines 108-118) *)

(** [max_workers] decides the branch; on the concurrent branch it is the
    size of the pool, which the properties of a divided run bound from
    below with [enough_workers]. *)

Definition run (tests : list Test) (debug : bool) (concurrency_level max_workers : Z)
    : action :=
  let self := Suite tests in
  if (concurrency_level <? ROOT_LEVEL) || (concurrency_level >? METHOD_LEVEL) then
    raise (ValueError "concurrency_level must be between 0 and 3.")
  else if debug || (concurrency_level =? ROOT_LEVEL) || (max_workers <=? 1) then
    super_run tests debug
  else if negb (_get_level self =? ROOT_LEVEL) then
    raise (RuntimeError "Test suite is not well-formed.")
  else _run self ROOT_LEVEL concurrency_level.

(** *** Vocabulary of the properties *)

(** The four fixture procedures under one name. *)
Inductive Fixture := SetupModule | TeardownModule | SetupClass | TeardownClass.

Definition fixture_proc (f : Fixture) : Test -> action :=
  match f with
  | SetupModule => _setup_module
  | TeardownModule => _teardown_module
  | SetupClass => _setup_class
  | TeardownClass => _teardown_class
  end.

(** The ledger key a fixture procedure computes for a suite, when the
    lookup at its head finds a module or a class. *)
Definition fixture_key (f : Fixture) (test : Test) : option string :=
  match f with
  | SetupModule =>
      match _get_current_module test with
      | Ok (Some m) => Some (m +:+ ".setUpModule")
      | _ => None
      end
  | TeardownModule =>
      match _get_current_module test with
      | Ok (Some m) => Some (m +:+ ".tearDownModule")
      | _ => None
      end
  | SetupClass =>
      match _get_current_class test with
      | Ok (Some c) => Some (strclass c +:+ ".setUpClass")
      | _ => None
      end
  | TeardownClass =>
      match _get_current_class test with
      | Ok (Some c) => Some (strclass c +:+ ".tearDownClass")
      | _ => None
      end
  end.

(** The hook a fixture procedure has in view on a suite: the one it calls
    when none of its guards makes it return before. *)
Definition fixture_hook (f : Fixture) (test : Test) : option Hook :=
  match f with
  | SetupModule =>
      match _get_current_module test with
      | Ok (Some m) => module ← sys_modules !! m; setUpModule module
      | _ => None
      end
  | TeardownModule =>
      match _get_current_module test with
      | Ok (Some m) => module ← sys_modules !! m; tearDownModule module
      | _ => None
      end
  | SetupClass =>
      match _get_current_class test with
      | Ok (Some c) => setUpClass c
      | _ => None
      end
  | TeardownClass =>
      match _get_current_class test with
      | Ok (Some c) => tearDownClass c
      | _ => None
      end
  end.

(** A hook whose exceptions, if any, derive from [Exception]. *)
Definition hook_catchable (hook : option Hook) : bool :=
  match hook with
  | Some (Exits _) => false
  | _ => true
  end.

(** A tree none of whose suites has a fixture hook in view that raises
    past [except Exception]. *)
Definition catchable_suite (test : Test) : bool :=
  forallb (fun f => hook_catchable (fixture_hook f test))
          [SetupModule; TeardownModule; SetupClass; TeardownClass].

Fixpoint catchable (test : Test) : bool :=
  match test with
  | Case _ => true
  | Suite tests => catchable_suite test && forallb catchable tests
  end.

(** A procedure call that changes nothing and raises nothing. *)
Definition no_op (a : action) (result : Result) (w : World) : Prop :=
  a result w = (None, result, w).

(** The hook of fixture [fixture_name] raised [e] inside [a] and was
    recovered there: [a] returns, the exception is filed under
    [error_name], the ledger has the fixture as failed and the output
    redirection was set up and restored around the call. *)
Definition recovers (a : action) (fixture_name error_name : string) (e : Exc)
    (result : Result) (w : World) : Prop :=
  ∃ w', a result w = (None, _addClassOrModuleLevelException result e error_name, w')
        ∧ fixture_name ∈ _failed_fixtures w'
        ∧ trace w' = trace w ++ [SetupStdout; CallHook fixture_name; RestoreStdout].

(** The fixtures whose hook was called, in the order of the calls. *)
Fixpoint hook_calls (tr : list Event) : list string :=
  match tr with
  | [] => []
  | CallHook name :: tr' => name :: hook_calls tr'
  | _ :: tr' => hook_calls tr'
  end.

(** A sequence of fixture invocations on arbitrary suites; an invocation
    that raises does not keep the later ones from running. *)
Definition invoke_all : list (Fixture * Test) -> action :=
  fix go (calls : list (Fixture * Test)) : action :=
    match calls with
    | [] => done_
    | (f, test) :: calls' => stays_in_future (fixture_proc f test) >> go calls'
    end.

(** Every hook called so far was called once and is in the ledger. *)
Definition ledger_consistent (w : World) : Prop :=
  NoDup (hook_calls (trace w))
  ∧ ∀ name, name ∈ hook_calls (trace w) →
            name ∈ _successful_fixtures w ∨ name ∈ _failed_fixtures w.

(** A procedure that keeps the ledger consistent with the trace. *)
Definition keeps_ledger (a : action) : Prop :=
  ∀ result w, ledger_consistent w → ledger_consistent (a result w).2.

(** A procedure that raises, if anything, only what a test or a hook
    raised: never an exception of the suite's own. *)
Definition raises_only_from_tests (a : action) : Prop :=
  ∀ result w,
    match (a result w).1.1 with
    | None | Some (Raised _) => True
    | Some _ => False
    end.

(** *** Vocabulary of the equivalence of the two runners *)

(** Following the spec's words: a well-formed tree has depth four from the
    root to every case, one level per depth: a case sits at level Method
    and nowhere else, and a suite above it has children, each one level
    further down. *)
Fixpoint well_formed_at (level : Z) (test : Test) : bool :=
  match test with
  | Case _ => level =? METHOD_LEVEL
  | Suite tests =>
      (level <? METHOD_LEVEL)
      && negb (bool_decide (tests = []))
      && forallb (well_formed_at (level + 1)) tests
  end.

Definition well_formed (tests : list Test) : bool :=
  well_formed_at ROOT_LEVEL (Suite tests).

(** The cases of a tree, left to right. *)
Fixpoint cases_of (test : Test) : list TestCase :=
  match test with
  | Case c => [c]
  | Suite tests => flat_map cases_of tests
  end.

(** A hook that does not raise, and a class none of whose hooks, nor those
    of its module, raise. *)
Definition hook_quiet (hook : option Hook) : bool :=
  match hook with
  | Some (Raises _) | Some (Exits _) => false
  | _ => true
  end.

Definition quiet_class (c : Class) : bool :=
  hook_quiet (setUpClass c) && hook_quiet (tearDownClass c)
  && match sys_modules !! cls_module c with
     | Some module => hook_quiet (setUpModule module) && hook_quiet (tearDownModule module)
     | None => true
     end.

Definition quiet (tests : list Test) : bool :=
  forallb (fun c => quiet_class (case_class c)) (flat_map cases_of tests).

(** What one case leaves in a result, by record list. *)
Definition case_failures (c : TestCase) : list (string * string) :=
  if unittest_skip (case_class c) then []
  else match case_outcome c with
       | Failure text => [(case_id c, text)]
       | _ => []
       end.

Definition case_errors (c : TestCase) : list (string * string) :=
  if unittest_skip (case_class c) then []
  else match case_outcome c with
       | Error text => [(case_id c, text)]
       | _ => []
       end.

Definition case_skips (c : TestCase) : list (string * string) :=
  if unittest_skip (case_class c) then [(case_id c, unittest_skip_why (case_class c))]
  else match case_outcome c with
       | Skipped reason => [(case_id c, reason)]
       | _ => []
       end.

(** [result'] is [result] after the cases [cs] were run into it, one after
    the other, and nothing else was written. *)
Definition records_of (cs : list TestCase) (result result' : Result) : Prop :=
  testsRun result' = (testsRun result + length cs)%nat
  ∧ failures result' = failures result ++ flat_map case_failures cs
  ∧ errors result' = errors result ++ flat_map case_errors cs
  ∧ skipped result' = skipped result ++ flat_map case_skips cs.

(** The identities in a list of records, as a set. *)
Definition identities (records : list (string * string)) : gset string :=
  list_to_set records.*1.

(** The same aggregate test count and the same sets of failure, error and
    skip identities. *)
Definition same_outcome (r1 r2 : Result) : Prop :=
  testsRun r1 = testsRun r2
  ∧ identities (failures r1) = identities (failures r2)
  ∧ identities (errors r1) = identities (errors r2)
  ∧ identities (skipped r1) = identities (skipped r2).

(** The child slots of [result] are those of the children of the suite, in
    the order of the children: slot [i] holds what the cases under child
    [i] left, and nothing else. *)
Definition slots_in_order (tests : list Test) (result : Result) : Prop :=
  Forall2 (fun t slot => records_of (cases_of t) (new_result []) slot)
          tests (children result).

(** Modelled from the spec: the results are allocated by the runner of the
    package, which is a module of its own.  The specification has one
    fresh child result per child, in child order, under every suite the
    scheduler divides, that is above the concurrency level. *)
Fixpoint result_for (test : Test) (current_level concurrency_level : Z) : Result :=
  new_result
    (if current_level <? concurrency_level then
       match test with
       | Case _ => []
       | Suite tests =>
           map (fun t => result_for t (current_level + 1) concurrency_level) tests
       end
     else []).

(** What [unittest.TestSuite.run] relies on between two tests when no hook
    raises: nobody asked to stop, no module or class setup is marked
    failed, and the class of the previous test has quiet hooks. *)
Definition library_invariant (result : Result) (w : World) : Prop :=
  shouldStop result = false
  ∧ _moduleSetUpFailed result = false
  ∧ _classSetupFailed w = ∅
  ∧ ∀ c, _previousTestClass result = Some c → quiet_class c = true.

(** A procedure of the library that, from a state satisfying the
    invariant, runs exactly the cases [cs] into the result. *)
Definition runs_cases (a : action) (cs : list TestCase) : Prop :=
  ∀ result w,
    library_invariant result w →
    ∃ result' w',
      a result w = (None, result', w')
      ∧ library_invariant result' w'
      ∧ records_of cs result result'
      ∧ _testRunEntered result' = _testRunEntered result.

(** A procedure that returns and leaves the result as it found it. *)
Definition neutral (a : action) : Prop :=
  ∀ result w, ∃ w', a result w = (None, result, w').

(** A procedure that, whatever the state, returns, runs exactly the cases
    [cs] into the result and leaves its child slots alone. *)
Definition writes_cases (a : action) (cs : list TestCase) : Prop :=
  ∀ result w,
    ∃ result' w',
      a result w = (None, result', w')
      ∧ records_of cs result result'
      ∧ children result' = children result.

(** *** Vocabulary of the grouping *)

(** The tests a suite holds. *)
Definition tests_of (test : Test) : list Test :=
  match test with
  | Suite tests => tests
  | Case _ => []
  end.

(** [c'] belongs in the class suite of [c]: it has the module name and
    the class of [c]. *)
Definition same_group (c c' : TestCase) : Prop :=
  get_module_name c' = get_module_name c ∧ case_class c' = case_class c.

#[local] Instance same_group_dec c c' : Decision (same_group c c').
Proof. unfold same_group. apply _. Defined.

(** The cases a dict of groups holds, group after group. *)
Definition all_cases (dic : Groups) : list TestCase :=
  flat_map (fun entry => flat_map snd entry.2) dic.

(** What the dict is once the cases [cs] have been grouped into it: no
    module name and, under a module name, no class is there twice; no
    entry is empty; the list under a module name and a class is the cases
    of [cs] with that name and that class, in the order of [cs]; and every
    case of [cs] has its entry. *)
Definition grouped (cs : list TestCase) (dic : Groups) : Prop :=
  NoDup dic.*1
  ∧ (∀ m mod_dic,
       (m, mod_dic) ∈ dic →
       NoDup mod_dic.*1
       ∧ mod_dic ≠ []
       ∧ ∀ cls cases,
           (cls, cases) ∈ mod_dic →
           cases ≠ []
           ∧ cases = filter (fun c => get_module_name c = m ∧ case_class c = cls) cs)
  ∧ (∀ c, c ∈ cs →
          ∃ mod_dic cases,
            (get_module_name c, mod_dic) ∈ dic ∧ (case_class c, cases) ∈ mod_dic).


(** *** Vocabulary of the invariants of a run *)

(** A property of the process state that a procedure leaves true once it
    is true. *)
Definition preserves (P : World → Prop) (a : action) : Prop :=
  ∀ result w, P w → P (a result w).2.

(** A procedure that ends without an exception, whatever the state. *)
Definition returns (a : action) : Prop :=
  ∀ result w, (a result w).1.1 = None.

(** How many output redirections of a trace were set up and not restored. *)
Fixpoint stdout_depth (tr : list Event) : Z :=
  match tr with
  | [] => 0
  | SetupStdout :: tr' => stdout_depth tr' + 1
  | RestoreStdout :: tr' => stdout_depth tr' - 1
  | _ :: tr' => stdout_depth tr'
  end.

(** *** Vocabulary of the pool and of the shape of a tree *)

(** The [_run] calls a run hands to the pool that wait there for futures
    of their own: below the root, the call for every pair of
    [zip(test, results)] at a level above the concurrency level submits
    to the same pool and blocks in [as_completed] or [wait] until its
    futures are done. *)
Fixpoint blocked_calls (test : Test) (current_level concurrency_level : Z)
    (result : Result) {struct test} : nat :=
  match test with
  | Case _ => 0%nat
  | Suite tests =>
      if current_level + 1 <? concurrency_level then
        (fix go (tests : list Test) (results : list Result) {struct tests} : nat :=
           match tests, results with
           | t :: tests', r :: results' =>
               S (blocked_calls t (current_level + 1) concurrency_level r
                  + go tests' results')%nat
           | _, _ => 0%nat
           end) tests (children result)
      else 0%nat
  end.

(** A pool that cannot starve: more than one worker, and more workers
    than calls that can wait in it at once, so that one worker is left
    for the futures they wait for. *)
Definition enough_workers (tests : list Test) (concurrency_level max_workers : Z)
    (result : Result) : bool :=
  (1 <? max_workers)
  && (Z.of_nat (blocked_calls (Suite tests) ROOT_LEVEL concurrency_level result)
      <? max_workers).

(** The modules the module suites of a tree lead to, and the classes its
    class suites lead to. *)
Definition module_names (tests : list Test) : list string :=
  omap (fun t => match _get_current_module t with
                 | Ok (Some m) => Some m
                 | _ => None
                 end) tests.

Definition class_names (tests : list Test) : list string :=
  omap (fun t => match _get_current_class t with
                 | Ok (Some c) => Some (strclass c)
                 | _ => None
                 end) (flat_map tests_of tests).

(** No two module suites lead to one module and no two class suites to
    one class: no fixture name is looked up by two futures. *)
Definition one_suite_per_fixture (tests : list Test) : Prop :=
  NoDup (module_names tests) ∧ NoDup (class_names tests).

(** Every case below a module suite is of the module the suite leads to,
    and every case of a class suite is of the class the suite leads to:
    the fixtures run for a suite are those of all its cases. *)
Definition homogeneous (tests : list Test) : bool :=
  forallb (fun mod_suite =>
             forallb (fun c => match _get_current_module mod_suite with
                               | Ok (Some m) => bool_decide (m = cls_module (case_class c))
                               | _ => false
                               end) (cases_of mod_suite)
             && forallb (fun cls_suite =>
                           forallb (fun c => match _get_current_class cls_suite with
                                             | Ok (Some k) => bool_decide (k = case_class c)
                                             | _ => false
                                             end) (cases_of cls_suite))
                        (tests_of mod_suite))
          tests.
(** * Properties *)

(** ** The classifier *)

(** C8: [_get_level] gives Method (3) for a case, the level of the first
    child minus one for a suite that has a child, and -1 for an empty
    suite. *)
Theorem get_level_by_cases :
  (∀ c, _is_suite (Case c) = false ∧ _get_level (Case c) = 3)
  ∧ (∀ t ts, _get_level (Suite (t :: ts)) = _get_level t - 1)
  ∧ _get_level (Suite []) = -1.
Proof. repeat split. Qed.

(** ** Fixture procedures *)

Lemma recorded_true name w :
  recorded name w = true ↔ name ∈ _successful_fixtures w ∨ name ∈ _failed_fixtures w.
Proof.
  unfold recorded. rewrite orb_true_iff, !bool_decide_eq_true. tauto.
Qed.

Lemma recorded_false name w :
  recorded name w = false ↔ (name ∉ _successful_fixtures w) ∧ (name ∉ _failed_fixtures w).
Proof.
  unfold recorded. rewrite orb_false_iff, !bool_decide_eq_false. tauto.
Qed.

Lemma call_fixture_returns name err mark result w :
  call_fixture Returns name err mark result w
  = (None, result,
     log RestoreStdout (add_successful name (log (CallHook name) (log SetupStdout w)))).
Proof. reflexivity. Qed.

Lemma call_fixture_raises e name err mark result w :
  call_fixture (Raises e) name err mark result w
  = (None, _addClassOrModuleLevelException result e err,
     log RestoreStdout (mark (add_failed name (log (CallHook name) (log SetupStdout w))))).
Proof. reflexivity. Qed.

(** The shared block recovers a raising hook, whatever [mark] does as long
    as it leaves the ledger and the trace alone. *)
Lemma call_fixture_recovers e name err mark result w :
  (∀ w0, _failed_fixtures (mark w0) = _failed_fixtures w0 ∧ trace (mark w0) = trace w0) →
  recovers (call_fixture (Raises e) name err mark) name err e result w.
Proof.
  intros Hmark. eexists. split; [apply call_fixture_raises|].
  cbn. destruct (Hmark (add_failed name (log (CallHook name) (log SetupStdout w)))) as [H1 H2].
  rewrite H1, H2. cbn. split; [apply elem_of_union; left; by apply elem_of_singleton|].
  by rewrite <- !app_assoc.
Qed.

(** Whatever the hook does, the block ends with the redirection restored. *)
Lemma call_fixture_restores hook name err mark result w :
  (∀ w0, trace (mark w0) = trace w0) →
  ∃ exn result' w', call_fixture hook name err mark result w = (exn, result', w')
                    ∧ trace w' = trace w ++ [SetupStdout; CallHook name; RestoreStdout].
Proof.
  intros Hmark. destruct hook as [|e|e]; do 3 eexists; (split; [reflexivity|]); cbn.
  - by rewrite <- !app_assoc.
  - rewrite Hmark. cbn. by rewrite <- !app_assoc.
  - by rewrite <- !app_assoc.
Qed.

Lemma recovers_ext (a b : action) name err e result w :
  a result w = b result w → recovers b name err e result w → recovers a name err e result w.
Proof. unfold recovers. by intros ->. Qed.

Lemma mark_id w0 : _failed_fixtures (id w0) = _failed_fixtures w0 ∧ trace (id w0) = trace w0.
Proof. done. Qed.

Lemma mark_class c w0 :
  _failed_fixtures (set_classSetupFailed c true w0) = _failed_fixtures w0
  ∧ trace (set_classSetupFailed c true w0) = trace w0.
Proof. done. Qed.

(** A hook that raises an exception deriving from [Exception] is recovered
    inside the fixture procedure, whatever the inherited helper does with
    the result.  For each of the four procedures: the procedure returns
    normally, the fixture is in the failed set of the ledger, the
    exception is handed to the helper under the synthetic identity, and
    the trace shows the output redirection set up before the hook and
    restored after it; the redirection is also restored on every other
    path that set it up. *)
Lemma hook_failure_is_recovered :
  (∀ test m module e result w,
      _get_current_module test = Ok (Some m) →
      recorded (m +:+ ".setUpModule") w = false →
      sys_modules !! m = Some module →
      setUpModule module = Some (Raises e) →
      recovers (_setup_module test) (m +:+ ".setUpModule")
               ("setUpModule (" +:+ m +:+ ")") e result w)
  ∧ (∀ test c e result w,
      _get_current_class test = Ok (Some c) →
      recorded (strclass c +:+ ".setUpClass") w = false →
      cls_module c +:+ ".setUpModule" ∉ _failed_fixtures w →
      unittest_skip c = false →
      setUpClass c = Some (Raises e) →
      recovers (_setup_class test) (strclass c +:+ ".setUpClass")
               ("setUpClass (" +:+ strclass c +:+ ")") e result w)
  ∧ (∀ test m module e result w,
      _get_current_module test = Ok (Some m) →
      recorded (m +:+ ".tearDownModule") w = false →
      m +:+ ".setUpModule" ∉ _failed_fixtures w →
      sys_modules !! m = Some module →
      tearDownModule module = Some (Raises e) →
      recovers (_teardown_module test) (m +:+ ".tearDownModule")
               ("tearDownModule (" +:+ m +:+ ")") e result w)
  ∧ (∀ test c e result w,
      _get_current_class test = Ok (Some c) →
      recorded (strclass c +:+ ".tearDownClass") w = false →
      strclass c +:+ ".setUpClass" ∉ _failed_fixtures w →
      cls_module c +:+ ".setUpModule" ∉ _failed_fixtures w →
      unittest_skip c = false →
      tearDownClass c = Some (Raises e) →
      recovers (_teardown_class test) (strclass c +:+ ".tearDownClass")
               ("tearDownClass (" +:+ strclass c +:+ ")") e result w)
  ∧ (∀ f test result w,
      let w' := (fixture_proc f test result w).2 in
      trace w' = trace w
      ∨ ∃ name, trace w' = trace w ++ [SetupStdout; CallHook name; RestoreStdout]).
Proof.
  split; [|split; [|split; [|split]]].
  - intros test m module e result w Hm Hrec Hsys Hhook.
    eapply recovers_ext; [|apply call_fixture_recovers, mark_id].
    unfold _setup_module. rewrite Hm. cbv beta iota zeta. by rewrite Hrec, Hsys, Hhook.
  - intros test c e result w Hc Hrec Hmod Hskip Hhook.
    eapply recovers_ext; [|apply call_fixture_recovers, (mark_class c)].
    unfold _setup_class. rewrite Hc. cbv beta iota zeta. fold (strclass c). rewrite Hrec.
    rewrite bool_decide_eq_false_2 by done. by rewrite Hskip, Hhook.
  - intros test m module e result w Hm Hrec Hmod Hsys Hhook.
    eapply recovers_ext; [|apply call_fixture_recovers, mark_id].
    unfold _teardown_module. rewrite Hm. cbv beta iota zeta. rewrite Hrec.
    rewrite bool_decide_eq_false_2 by done. by rewrite Hsys, Hhook.
  - intros test c e result w Hc Hrec Hcls Hmod Hskip Hhook.
    eapply recovers_ext; [|apply call_fixture_recovers, mark_id].
    unfold _teardown_class. rewrite Hc. cbv beta iota zeta. fold (strclass c). rewrite Hrec.
    rewrite !bool_decide_eq_false_2 by done. by rewrite Hskip, Hhook.
  - intros f test result w w'. subst w'.
    destruct f; cbn [fixture_proc];
      [unfold _setup_module | unfold _teardown_module
       | unfold _setup_class | unfold _teardown_class];
      repeat (match goal with
              | |- context [match ?x with _ => _ end] => destruct x eqn:?
              end; try (left; reflexivity));
      right;
      match goal with
      | |- context [call_fixture ?h ?n ?e ?m ?r ?w] =>
          destruct (call_fixture_restores h n e m r w) as (exn & r' & w' & Heq & Htr);
          [done | rewrite Heq; eauto]
      end.
Qed.

(** A fixture already in the ledger: the procedure does nothing. *)
Lemma recorded_is_no_op f test name result w :
  fixture_key f test = Some name →
  recorded name w = true →
  no_op (fixture_proc f test) result w.
Proof.
  unfold no_op.
  destruct f; cbn [fixture_proc fixture_key].
  - unfold _setup_module. destruct (_get_current_module test) as [[m|]|]; try done.
    intros [= <-] Hrec. by rewrite Hrec.
  - unfold _teardown_module. destruct (_get_current_module test) as [[m|]|]; try done.
    intros [= <-] Hrec. by rewrite Hrec.
  - unfold _setup_class. destruct (_get_current_class test) as [[c|]|]; try done.
    intros [= <-] Hrec. cbv beta iota zeta. fold (strclass c). by rewrite Hrec.
  - unfold _teardown_class. destruct (_get_current_class test) as [[c|]|]; try done.
    intros [= <-] Hrec. cbv beta iota zeta. fold (strclass c). by rewrite Hrec.
Qed.

(** C3: teardown is not invoked after a failed setup.  [_teardown_module]
    does nothing when the module's setUpModule is recorded failed;
    [_teardown_class] does nothing when the class's setUpClass is recorded
    failed, when the owning module's setUpModule is recorded failed, or
    when the class carries the skip marker; [_setup_class] does nothing
    for a class that carries the skip marker.  Doing nothing includes not
    calling the hook: the trace is unchanged. *)
Theorem teardown_suppressed_after_failed_setup :
  (∀ test m result w,
      _get_current_module test = Ok (Some m) →
      m +:+ ".setUpModule" ∈ _failed_fixtures w →
      no_op (_teardown_module test) result w)
  ∧ (∀ test c result w,
      _get_current_class test = Ok (Some c) →
      strclass c +:+ ".setUpClass" ∈ _failed_fixtures w
      ∨ cls_module c +:+ ".setUpModule" ∈ _failed_fixtures w
      ∨ unittest_skip c = true →
      no_op (_teardown_class test) result w)
  ∧ (∀ test c result w,
      _get_current_class test = Ok (Some c) →
      unittest_skip c = true →
      no_op (_setup_class test) result w).
Proof.
  unfold no_op. split; [|split].
  - intros test m result w Hm Hfail. unfold _teardown_module.
    rewrite Hm. cbv beta iota zeta.
    destruct (recorded _ w); [done|]. by rewrite bool_decide_eq_true_2.
  - intros test c result w Hc Hcase. unfold _teardown_class.
    rewrite Hc. cbv beta iota zeta. fold (strclass c).
    destruct (recorded _ w); [done|].
    destruct Hcase as [H|[H|H]].
    + by rewrite bool_decide_eq_true_2.
    + destruct (bool_decide (strclass c +:+ ".setUpClass" ∈ _)); [done|].
      by rewrite bool_decide_eq_true_2.
    + rewrite H. by repeat destruct (bool_decide _).
  - intros test c result w Hc Hskip. unfold _setup_class.
    rewrite Hc. cbv beta iota zeta. rewrite Hskip.
    destruct (recorded _ w); [done|]. by destruct (bool_decide _).
Qed.

(** X17.  After a failed setUpModule the classes of the module are not
    set up: with the setUpModule of its module in the failed set of the
    ledger, [_setup_class] returns without calling setUpClass, writing
    neither to the result nor to the ledger. *)
Lemma setup_class_suppressed_after_failed_module test c result w :
  _get_current_class test = Ok (Some c) →
  cls_module c +:+ ".setUpModule" ∈ _failed_fixtures w →
  no_op (_setup_class test) result w.
Proof.
  intros Hc Hfail. unfold no_op, _setup_class. rewrite Hc. cbv beta iota zeta.
  destruct (recorded _ w); [done|]. by rewrite bool_decide_eq_true_2.
Qed.

(** The lookups on suites that have nothing to show. *)
Lemma lookups_on_empty_suites :
  _get_current_module (Suite []) = Ok None
  ∧ (∀ tests, _get_current_module (Suite (Suite [] :: tests)) = Ok None)
  ∧ _get_current_class (Suite []) = Ok None.
Proof. done. Qed.

(** C9, as the code has it: on an empty suite both lookups return [None],
    and the module fixture procedures do not treat [None] as a reason to
    skip: whenever the module lookup gives [None], [_setup_module] and
    [_teardown_module] raise [TypeError] (from [None + '.setUpModule'])
    before they look at the ledger, and do no fixture work: result and
    state are as they were. *)
Theorem empty_suite_fixture_raises_TypeError :
  _get_current_module (Suite []) = Ok None
  ∧ _get_current_class (Suite []) = Ok None
  ∧ ∀ test result w,
      _get_current_module test = Ok None →
      _setup_module test result w = (Some TypeError, result, w)
      ∧ _teardown_module test result w = (Some TypeError, result, w).
Proof.
  split; [done|split; [done|]].
  intros test result w Hm. unfold _setup_module, _teardown_module. by rewrite Hm.
Qed.

(** ** The entry point *)

(** C6: a concurrency level outside [0..3] makes [run] raise ValueError
    whatever the other arguments are, debug mode included, with the
    result and the state untouched: nothing has run. *)
Theorem run_rejects_level_out_of_range tests debug concurrency_level max_workers result w :
  concurrency_level < ROOT_LEVEL ∨ concurrency_level > METHOD_LEVEL →
  run tests debug concurrency_level max_workers result w
  = (Some (ValueError "concurrency_level must be between 0 and 3."), result, w).
Proof.
  intros Hout. unfold run.
  assert ((concurrency_level <? ROOT_LEVEL) || (concurrency_level >? METHOD_LEVEL) = true) as ->;
    [|done].
  apply orb_true_iff. destruct Hout; [left|right]; lia.
Qed.

(** ** Each hook at most once *)

(** Induction on tests with the children of a suite at hand. *)
Lemma Test_forall_ind (P : Test → Prop) :
  (∀ c, P (Case c)) →
  (∀ tests, Forall P tests → P (Suite tests)) →
  ∀ t, P t.
Proof.
  intros Hcase Hsuite. fix IH 1. intros [c|tests]; [apply Hcase|].
  apply Hsuite. induction tests as [|t tests IHtests]; constructor; [apply IH|apply IHtests].
Qed.

Lemma hook_calls_app tr1 tr2 : hook_calls (tr1 ++ tr2) = hook_calls tr1 ++ hook_calls tr2.
Proof.
  induction tr1 as [|ev tr1 IH]; [done|]. destruct ev; cbn; by rewrite IH.
Qed.

Lemma ledger_consistent_empty w : trace w = [] → ledger_consistent w.
Proof.
  intros Htr. unfold ledger_consistent. rewrite Htr. cbn. split; [constructor|].
  intros name Hin. by apply elem_of_nil in Hin.
Qed.

Lemma call_fixture_keeps_ledger hook name err mark result w :
  (∀ w0, _successful_fixtures (mark w0) = _successful_fixtures w0
         ∧ _failed_fixtures (mark w0) = _failed_fixtures w0
         ∧ trace (mark w0) = trace w0) →
  hook_catchable (Some hook) = true →
  recorded name w = false →
  ledger_consistent w →
  ledger_consistent (call_fixture hook name err mark result w).2.
Proof.
  intros Hmark Hcatch Hrec [Hnodup Hin]. apply recorded_false in Hrec as [Hs Hf].
  assert (name ∉ hook_calls (trace w)) as Hfresh.
  { intros Hcalled. destruct (Hin _ Hcalled); contradiction. }
  destruct hook as [|e|e]; [| |done]; unfold ledger_consistent; cbn.
  - rewrite !hook_calls_app. cbn. rewrite !app_nil_r. split.
    + apply NoDup_app. split; [done|]. split; [|apply NoDup_singleton].
      intros x Hx ->%list_elem_of_singleton. contradiction.
    + intros x [Hx| ->%list_elem_of_singleton]%elem_of_app.
      * destruct (Hin _ Hx); [left|right]; [apply elem_of_union; by right|done].
      * left. apply elem_of_union. left. by apply elem_of_singleton.
  - destruct (Hmark (add_failed name (log (CallHook name) (log SetupStdout w))))
      as (Hs' & Hf' & Ht').
    rewrite Hs', Hf', Ht'. cbn.
    rewrite !hook_calls_app. cbn. rewrite !app_nil_r. split.
    + apply NoDup_app. split; [done|]. split; [|apply NoDup_singleton].
      intros x Hx ->%list_elem_of_singleton. contradiction.
    + intros x [Hx| ->%list_elem_of_singleton]%elem_of_app.
      * destruct (Hin _ Hx); [left|right]; [done|apply elem_of_union; by right].
      * right. apply elem_of_union. left. by apply elem_of_singleton.
Qed.

Lemma fixture_proc_keeps_ledger f test :
  hook_catchable (fixture_hook f test) = true → keeps_ledger (fixture_proc f test).
Proof.
  intros Hcatch result w Hw.
  destruct f; cbn [fixture_proc fixture_hook] in *;
    [unfold _setup_module | unfold _teardown_module
     | unfold _setup_class | unfold _teardown_class];
    repeat (match goal with
            | |- context [match ?x with _ => _ end] => destruct x eqn:?
            end; try exact Hw);
    simplify_option_eq;
    repeat match goal with
           | H : ?hook = Some _, Hc : hook_catchable ?hook = true |- _ => rewrite H in Hc
           end;
    by apply call_fixture_keeps_ledger.
Qed.

Lemma catchable_suite_hook f test :
  catchable_suite test = true → hook_catchable (fixture_hook f test) = true.
Proof.
  unfold catchable_suite. cbn [forallb]. rewrite !andb_true_iff.
  intros (? & ? & ? & ? & _). by destruct f.
Qed.

Lemma catchable_children tests :
  catchable (Suite tests) = true → Forall (fun t => catchable t = true) tests.
Proof.
  cbn [catchable]. intros [_ Hall]%andb_true_iff. apply Forall_forall. intros t Ht.
  rewrite forallb_forall in Hall. by apply Hall, list_elem_of_In.
Qed.

Lemma catchable_node f tests :
  catchable (Suite tests) = true → hook_catchable (fixture_hook f (Suite tests)) = true.
Proof. cbn [catchable]. intros [Hnode _]%andb_true_iff. by apply catchable_suite_hook. Qed.

Lemma done_keeps_ledger : keeps_ledger done_.
Proof. by intros result w Hw. Qed.

Lemma and_then_keeps_ledger a b :
  keeps_ledger a → keeps_ledger b → keeps_ledger (a >> b).
Proof.
  intros Ha Hb result w Hw. unfold and_then.
  specialize (Ha result w Hw). destruct (a result w) as [[[e|] r'] w']; cbn in *; [done|].
  by apply Hb.
Qed.

Lemma stays_in_future_keeps_ledger a : keeps_ledger a → keeps_ledger (stays_in_future a).
Proof.
  intros Ha result w Hw. unfold stays_in_future.
  specialize (Ha result w Hw). by destruct (a result w) as [[e r'] w'].
Qed.

Lemma on_child_keeps_ledger i a : keeps_ledger a → keeps_ledger (on_child i a).
Proof.
  intros Ha result w Hw. unfold on_child.
  destruct (children result !! i) as [r|]; [|done].
  specialize (Ha r w Hw). by destruct (a r w) as [[e r'] w'].
Qed.

Lemma for_each_keeps_ledger f tests :
  Forall (fun t => keeps_ledger (f t)) tests → keeps_ledger (for_each f tests).
Proof.
  induction 1 as [|t tests Ht _ IH]; cbn; [apply done_keeps_ledger|].
  by apply and_then_keeps_ledger.
Qed.

Lemma batch_keeps_ledger unit_ order :
  (∀ i, keeps_ledger (unit_ i)) → keeps_ledger (batch unit_ order).
Proof.
  intros Hunit. induction order as [|i order IH]; cbn; [apply done_keeps_ledger|].
  by apply and_then_keeps_ledger.
Qed.

Lemma catchable_hook f test :
  catchable test = true → hook_catchable (fixture_hook f test) = true.
Proof.
  destruct test as [c|tests]; [by destruct f|]. apply catchable_node.
Qed.

Lemma invoke_all_keeps_ledger calls :
  Forall (fun call => hook_catchable (fixture_hook call.1 call.2) = true) calls →
  keeps_ledger (invoke_all calls).
Proof.
  induction 1 as [|[f test] calls Hcall _ IH]; cbn; [apply done_keeps_ledger|].
  apply and_then_keeps_ledger; [|done].
  by apply stays_in_future_keeps_ledger, fixture_proc_keeps_ledger.
Qed.

Lemma TestCase_run_keeps_ledger c : keeps_ledger (TestCase_run c).
Proof.
  intros result w Hw. unfold TestCase_run.
  destruct (unittest_skip (case_class c)); [done|].
  assert (ledger_consistent (log (RunBody (case_id c)) w)) as Hw'.
  { destruct Hw as [Hnodup Hin]. unfold ledger_consistent. cbn.
    rewrite hook_calls_app. cbn. by rewrite app_nil_r. }
  by destruct (case_outcome c).
Qed.

Lemma _seq_run_keeps_ledger test : catchable test = true → keeps_ledger (_seq_run test).
Proof.
  induction test as [c|tests IH] using Test_forall_ind; intros Hcatch;
    [apply TestCase_run_keeps_ledger|].
  assert (keeps_ledger (for_each _seq_run tests)) as Hchildren.
  { apply for_each_keeps_ledger. pose proof (catchable_children _ Hcatch) as Hall.
    rewrite Forall_forall in IH, Hall. apply Forall_forall. intros t Ht.
    by apply IH, Hall. }
  cbn [_seq_run]. repeat case_match; try apply done_keeps_ledger;
    repeat apply and_then_keeps_ledger; try done.
  - by apply (fixture_proc_keeps_ledger SetupModule), catchable_hook.
  - by apply (fixture_proc_keeps_ledger TeardownModule), catchable_hook.
  - by apply (fixture_proc_keeps_ledger SetupClass), catchable_hook.
  - by apply (fixture_proc_keeps_ledger TeardownClass), catchable_hook.
Qed.

Lemma unit_of_keeps_ledger us f i :
  (∀ u, u ∈ us → keeps_ledger (f u)) → keeps_ledger (unit_of us f i).
Proof.
  intros Hf. unfold unit_of. destruct (us !! i) as [u|] eqn:Hu; [|apply done_keeps_ledger].
  apply Hf. by eapply list_elem_of_lookup_2.
Qed.

Lemma fan_out_keeps_ledger test setup teardown units :
  (∀ us u, units = Some us → u ∈ us →
           keeps_ledger (setup u.1) ∧ keeps_ledger u.2 ∧ keeps_ledger (teardown u.1)) →
  keeps_ledger (fan_out test setup teardown units).
Proof.
  intros Hunits result w Hw. unfold fan_out.
  destruct units as [us|]; [|done].
  specialize (Hunits us).
  refine (and_then_keeps_ledger _ _ _ (and_then_keeps_ledger _ _ _ _) result w Hw);
    apply batch_keeps_ledger; intros i; apply on_child_keeps_ledger.
  - apply unit_of_keeps_ledger. intros u Hu. by apply Hunits.
  - apply unit_of_keeps_ledger. intros u Hu. by apply Hunits.
  - apply stays_in_future_keeps_ledger, unit_of_keeps_ledger. intros u Hu. by apply Hunits.
Qed.

Lemma fan_out_cases_keeps_ledger test units :
  (∀ us, units = Some us → Forall (fun u => keeps_ledger u.2) us) →
  keeps_ledger (fan_out_cases test units).
Proof.
  intros Hunits result w Hw. unfold fan_out_cases.
  destruct units as [us|]; [|done].
  specialize (Hunits us eq_refl).
  refine (batch_keeps_ledger _ _ _ result w Hw). intros i.
  apply on_child_keeps_ledger, stays_in_future_keeps_ledger, unit_of_keeps_ledger.
  intros u Hu. by eapply Forall_forall in Hunits.
Qed.

Lemma _run_suite_keeps_ledger tests current_level concurrency_level :
  (current_level =? concurrency_level) = false →
  Forall (fun t => catchable t = true ∧ ∀ level, keeps_ledger (_run t level concurrency_level))
         tests →
  keeps_ledger (_run (Suite tests) current_level concurrency_level).
Proof.
  intros Hlevel Hall. cbn [_run]. rewrite Hlevel.
  destruct (current_level <? concurrency_level); [|apply done_keeps_ledger].
  apply and_then_keeps_ledger; [|by intros result w Hw].
  assert (∀ u, u ∈ map (fun t => (t, _run t (current_level + 1) concurrency_level)) tests →
               catchable u.1 = true ∧ keeps_ledger u.2) as Hunits.
  { intros u Hu. apply list_elem_of_In, in_map_iff in Hu as (t & <- & Ht).
    apply list_elem_of_In in Ht. rewrite Forall_forall in Hall.
    destruct (Hall t Ht) as [Hc Hk]. split; [done|apply Hk]. }
  repeat case_match; try apply done_keeps_ledger.
  - apply fan_out_keeps_ledger. intros us u [= <-] Hu.
    destruct (Hunits u Hu) as [Hc Hk].
    split; [by apply (fixture_proc_keeps_ledger SetupModule), catchable_hook|].
    split; [done|]. by apply (fixture_proc_keeps_ledger TeardownModule), catchable_hook.
  - apply fan_out_keeps_ledger. intros us u [= <-] Hu.
    destruct (Hunits u Hu) as [Hc Hk].
    split; [by apply (fixture_proc_keeps_ledger SetupClass), catchable_hook|].
    split; [done|]. by apply (fixture_proc_keeps_ledger TeardownClass), catchable_hook.
  - apply fan_out_cases_keeps_ledger. intros us [= <-]. apply Forall_forall.
    intros u Hu. by apply Hunits.
Qed.

Lemma _run_keeps_ledger test concurrency_level : ∀ current_level,
  catchable test = true →
  keeps_ledger (_run test current_level concurrency_level).
Proof.
  induction test as [c|tests IH] using Test_forall_ind; intros current_level Hcatch.
  - cbn [_run].
    destruct (current_level =? concurrency_level); [apply TestCase_run_keeps_ledger|].
    destruct (current_level <? concurrency_level); [|apply done_keeps_ledger].
    apply and_then_keeps_ledger; [|by intros result w Hw].
    repeat case_match; try apply done_keeps_ledger;
      (apply fan_out_keeps_ledger || apply fan_out_cases_keeps_ledger); done.
  - destruct (current_level =? concurrency_level) eqn:Hlevel.
    + cbn [_run]. rewrite Hlevel. by apply (_seq_run_keeps_ledger (Suite tests)).
    + apply _run_suite_keeps_ledger; [done|].
      pose proof (catchable_children _ Hcatch) as Hall.
      rewrite Forall_forall in IH, Hall. apply Forall_forall. intros t Ht.
      split; [by apply Hall|]. intros level. by apply IH, Hall.
Qed.

Lemma _run_root_keeps_ledger tests concurrency_level :
  MODULE_LEVEL ≤ concurrency_level →
  forallb catchable tests = true →
  keeps_ledger (_run (Suite tests) ROOT_LEVEL concurrency_level).
Proof.
  intros Hlevel Hall. apply _run_suite_keeps_ledger.
  - unfold ROOT_LEVEL, MODULE_LEVEL in *. lia.
  - apply Forall_forall. intros t Ht. rewrite forallb_forall in Hall.
    assert (catchable t = true) as Hc by by apply Hall, list_elem_of_In.
    split; [done|]. intros level. by apply _run_keeps_ledger.
Qed.

(** ** The sequential branch of [run] *)

Lemma done_raises_only_from_tests : raises_only_from_tests done_.
Proof. by intros result w. Qed.

Lemma and_then_raises_only_from_tests a b :
  raises_only_from_tests a → raises_only_from_tests b → raises_only_from_tests (a >> b).
Proof.
  intros Ha Hb result w. unfold and_then. specialize (Ha result w).
  destruct (a result w) as [[[e|] r'] w']; [done|]. apply Hb.
Qed.

Lemma library_hook_raises_only_from_tests hook name method parent on_fail mark :
  raises_only_from_tests (library_hook hook name method parent on_fail mark).
Proof.
  intros result w. unfold library_hook.
  destruct hook as [[|e|e]|]; [done| |done|done]. by destruct (is_DebugResult result).
Qed.

Lemma with_stdout_raises_only_from_tests a :
  raises_only_from_tests a → raises_only_from_tests (with_stdout a).
Proof.
  intros Ha result w. unfold with_stdout. specialize (Ha result (log SetupStdout w)).
  by destruct (a result (log SetupStdout w)) as [[e r'] w'].
Qed.

Lemma _handleModuleTearDown_raises_only_from_tests :
  raises_only_from_tests _handleModuleTearDown.
Proof.
  intros result w. unfold _handleModuleTearDown.
  destruct (_get_previous_module result) as [m|]; [|done].
  destruct (_moduleSetUpFailed result); [done|].
  destruct (sys_modules !! m) as [module|]; [|done].
  apply with_stdout_raises_only_from_tests, library_hook_raises_only_from_tests.
Qed.

Lemma _handleModuleFixture_raises_only_from_tests c :
  raises_only_from_tests (_handleModuleFixture c).
Proof.
  intros result w. unfold _handleModuleFixture. destruct (bool_decide _); [done|].
  apply and_then_raises_only_from_tests; [apply _handleModuleTearDown_raises_only_from_tests|].
  intros result' w'.
  destruct (sys_modules !! cls_module c) as [module|]; [|done].
  destruct (setUpModule module) as [hook|]; [|done].
  apply with_stdout_raises_only_from_tests, library_hook_raises_only_from_tests.
Qed.

Lemma _handleClassSetUp_raises_only_from_tests c :
  raises_only_from_tests (_handleClassSetUp c).
Proof.
  intros result w. unfold _handleClassSetUp. destruct (bool_decide _); [done|].
  destruct (_moduleSetUpFailed result); [done|].
  destruct (unittest_skip c); [done|].
  destruct (setUpClass c) as [hook|]; [|done].
  apply with_stdout_raises_only_from_tests, library_hook_raises_only_from_tests.
Qed.

Lemma _tearDownPreviousClass_raises_only_from_tests c :
  raises_only_from_tests (_tearDownPreviousClass c).
Proof.
  intros result w. unfold _tearDownPreviousClass.
  destruct (_previousTestClass result) as [previousClass|]; [|done].
  do 2 (destruct (bool_decide _); [done|]).
  destruct (_moduleSetUpFailed result); [done|].
  destruct (unittest_skip previousClass); [done|].
  apply with_stdout_raises_only_from_tests, library_hook_raises_only_from_tests.
Qed.

Lemma unittest_loop_raises_only_from_tests call tests :
  Forall (fun t => raises_only_from_tests (call t)) tests →
  raises_only_from_tests (unittest_loop call tests).
Proof.
  induction 1 as [|t tests Ht _ IH]; cbn [unittest_loop]; [apply done_raises_only_from_tests|].
  intros result w. destruct (shouldStop result); [done|].
  apply and_then_raises_only_from_tests; [|exact IH].
  destruct (_is_suite t); [exact Ht|].
  repeat apply and_then_raises_only_from_tests.
  - apply _tearDownPreviousClass_raises_only_from_tests.
  - apply _handleModuleFixture_raises_only_from_tests.
  - apply _handleClassSetUp_raises_only_from_tests.
  - intros result' w'. destruct (_ || _); [done|]. apply Ht.
Qed.

Lemma unittest_run_raises_only_from_tests call tests :
  Forall (fun t => raises_only_from_tests (call t)) tests →
  raises_only_from_tests (unittest_run call tests).
Proof.
  intros Hcall result w. unfold unittest_run.
  apply and_then_raises_only_from_tests;
    [by apply unittest_loop_raises_only_from_tests|].
  destruct (negb (_testRunEntered result)); [|apply done_raises_only_from_tests].
  repeat apply and_then_raises_only_from_tests.
  - apply _tearDownPreviousClass_raises_only_from_tests.
  - apply _handleModuleTearDown_raises_only_from_tests.
  - by intros result' w'.
Qed.

Lemma call_test_raises_only_from_tests debug test :
  raises_only_from_tests (call_test debug test).
Proof.
  revert debug. induction test as [c|tests IH] using Test_forall_ind; intros debug.
  - intros result w. destruct debug; cbn [call_test].
    + unfold TestCase_debug. destruct (unittest_skip _); [done|].
      by destruct (case_outcome c).
    + unfold TestCase_run. destruct (unittest_skip _); [done|].
      by destruct (case_outcome c).
  - cbn [call_test]. destruct debug.
    + intros result w. unfold on_DebugResult.
      pose proof (unittest_run_raises_only_from_tests (call_test true) tests) as Hrun.
      specialize (Hrun (Forall_impl _ _ _ IH (fun t Ht => Ht true)) _DebugResult w).
      by destruct (unittest_run _ _ _ _) as [[e r'] w'].
    + apply unittest_run_raises_only_from_tests.
      eapply Forall_impl; [exact IH|]. intros t Ht. apply Ht.
Qed.

Lemma super_run_raises_only_from_tests tests debug :
  raises_only_from_tests (super_run tests debug).
Proof.
  apply unittest_run_raises_only_from_tests, Forall_forall.
  intros t _. apply call_test_raises_only_from_tests.
Qed.

Lemma run_sequential_branch tests debug concurrency_level max_workers :
  ROOT_LEVEL ≤ concurrency_level ≤ METHOD_LEVEL →
  debug = true ∨ concurrency_level = ROOT_LEVEL ∨ max_workers ≤ 1 →
  run tests debug concurrency_level max_workers = super_run tests debug.
Proof.
  intros Hrange Hseq. unfold run.
  assert ((concurrency_level <? ROOT_LEVEL) || (concurrency_level >? METHOD_LEVEL) = false)
    as -> by (apply orb_false_iff; lia).
  assert (debug || (concurrency_level =? ROOT_LEVEL) || (max_workers <=? 1) = true) as ->;
    [|done].
  destruct Hseq as [->|[->|Hw]]; [done| |].
  - by rewrite orb_true_r.
  - apply orb_true_iff. right. lia.
Qed.

Lemma run_concurrent_branch tests concurrency_level max_workers :
  MODULE_LEVEL ≤ concurrency_level ≤ METHOD_LEVEL →
  1 < max_workers →
  _get_level (Suite tests) = ROOT_LEVEL →
  run tests false concurrency_level max_workers
  = _run (Suite tests) ROOT_LEVEL concurrency_level.
Proof.
  intros Hrange Hworkers Hlevel. unfold run. rewrite Hlevel.
  unfold ROOT_LEVEL, MODULE_LEVEL, METHOD_LEVEL in *.
  assert ((concurrency_level <? 0) || (concurrency_level >? 3) = false)
    as -> by (apply orb_false_iff; lia).
  assert (false || (concurrency_level =? 0) || (max_workers <=? 1) = false) as ->; [|done].
  apply orb_false_iff. split; [cbn|]; lia.
Qed.

(** X16.  What the guard of the concurrent branch does reject: a tree whose
    first-child spine does not put its case three levels down.  The
    RuntimeError leaves [run] before anything has run. *)
Lemma run_rejects_spine_of_wrong_depth tests concurrency_level max_workers result w :
  MODULE_LEVEL ≤ concurrency_level ≤ METHOD_LEVEL →
  1 < max_workers →
  _get_level (Suite tests) ≠ ROOT_LEVEL →
  run tests false concurrency_level max_workers result w
  = (Some (RuntimeError "Test suite is not well-formed."), result, w).
Proof.
  intros Hrange Hworkers Hlevel. unfold run.
  unfold ROOT_LEVEL, MODULE_LEVEL, METHOD_LEVEL in *.
  assert ((concurrency_level <? 0) || (concurrency_level >? 3) = false)
    as -> by (apply orb_false_iff; lia).
  assert (false || (concurrency_level =? 0) || (max_workers <=? 1) = false) as ->.
  { apply orb_false_iff. split; [cbn|]; lia. }
  assert ((_get_level (Suite tests) =? 0) = false) as -> by lia.
  done.
Qed.

(** C10: on the sequential branch (debug, or concurrency level Root, or
    at most one worker) [run] is the inherited [run] and nothing else: the
    level of the tree is never looked at, so a tree of any shape is
    executed, and the structural RuntimeError cannot come out of the
    call. *)
Theorem sequential_branch_skips_wellformedness_check
    tests debug concurrency_level max_workers result w :
  ROOT_LEVEL ≤ concurrency_level ≤ METHOD_LEVEL →
  debug = true ∨ concurrency_level = ROOT_LEVEL ∨ max_workers ≤ 1 →
  run tests debug concurrency_level max_workers result w = super_run tests debug result w
  ∧ ∀ msg, (run tests debug concurrency_level max_workers result w).1.1
           ≠ Some (RuntimeError msg).
Proof.
  intros Hrange Hseq.
  rewrite (run_sequential_branch tests debug concurrency_level max_workers Hrange Hseq).
  split; [done|]. intros msg.
  pose proof (super_run_raises_only_from_tests tests debug result w) as Hexc.
  destruct (super_run tests debug result w) as [[[e|] r'] w']; cbn in *; [|done].
  by destruct e.
Qed.

(** ** Sequential and concurrent runs of a well-formed tree *)

(** *** Records *)

Lemma set_children_same result : set_children (children result) result = result.
Proof. by destruct result. Qed.

Lemma set_moduleSetUpFailed_same result :
  set_moduleSetUpFailed (_moduleSetUpFailed result) result = result.
Proof. by destruct result. Qed.

Lemma records_of_nil result : records_of [] result result.
Proof.
  unfold records_of. cbn. rewrite !app_nil_r. repeat split. lia.
Qed.

Lemma records_of_app cs1 cs2 r r' r'' :
  records_of cs1 r r' → records_of cs2 r' r'' → records_of (cs1 ++ cs2) r r''.
Proof.
  intros (Hn1 & Hf1 & He1 & Hs1) (Hn2 & Hf2 & He2 & Hs2). unfold records_of.
  rewrite Hn2, Hf2, He2, Hs2, Hn1, Hf1, He1, Hs1.
  rewrite !flat_map_app, !length_app, <- !app_assoc. repeat split. lia.
Qed.

(** Only the counter and the three record lists matter. *)
Lemma records_of_same_records cs r r1 r2 :
  testsRun r2 = testsRun r1 → failures r2 = failures r1 →
  errors r2 = errors r1 → skipped r2 = skipped r1 →
  records_of cs r r1 → records_of cs r r2.
Proof. unfold records_of. by intros -> -> -> ->. Qed.

Lemma records_of_from_same_records cs r1 r2 r' :
  testsRun r2 = testsRun r1 → failures r2 = failures r1 →
  errors r2 = errors r1 → skipped r2 = skipped r1 →
  records_of cs r1 r' → records_of cs r2 r'.
Proof. unfold records_of. by intros -> -> -> ->. Qed.

Lemma TestCase_run_spec c result w :
  ∃ result' w',
    TestCase_run c result w = (None, result', w')
    ∧ records_of [c] result result'
    ∧ children result' = children result
    ∧ _previousTestClass result' = _previousTestClass result
    ∧ _moduleSetUpFailed result' = _moduleSetUpFailed result
    ∧ _testRunEntered result' = _testRunEntered result
    ∧ shouldStop result' = shouldStop result
    ∧ _classSetupFailed w' = _classSetupFailed w.
Proof.
  unfold TestCase_run, records_of, case_failures, case_errors, case_skips.
  destruct (unittest_skip (case_class c)) eqn:Hskip;
    [|destruct (case_outcome c) eqn:Hout];
    do 2 eexists; (split; [reflexivity|]); cbn; rewrite ?Hskip, ?Hout, ?app_nil_r;
    repeat split; lia.
Qed.

(** *** Shape of a well-formed tree *)

Lemma well_formed_at_suite level tests :
  well_formed_at level (Suite tests) = true →
  level < METHOD_LEVEL ∧ tests ≠ [] ∧ Forall (fun t => well_formed_at (level + 1) t = true) tests.
Proof.
  cbn [well_formed_at]. intros [[Hlvl Hne]%andb_true_iff Hall]%andb_true_iff.
  split; [lia|]. split.
  - apply negb_true_iff, bool_decide_eq_false in Hne. exact Hne.
  - apply Forall_forall. intros t Ht.
    rewrite forallb_forall in Hall. apply Hall. by apply list_elem_of_In.
Qed.

Lemma well_formed_at_case level c :
  well_formed_at level (Case c) = true → level = METHOD_LEVEL.
Proof. cbn. lia. Qed.

Lemma get_level_well_formed test : ∀ level,
  well_formed_at level test = true → _get_level test = level.
Proof.
  induction test as [c|tests IH] using Test_forall_ind; intros level Hwf.
  - apply well_formed_at_case in Hwf. by subst.
  - apply well_formed_at_suite in Hwf as (_ & Hne & Hall).
    destruct tests as [|t tests]; [done|]. cbn [_get_level].
    apply Forall_cons in IH as [IHt _]. apply Forall_cons in Hall as [Ht _].
    rewrite (IHt _ Ht). lia.
Qed.

(** C2, as the code has it.  Once the ledger has a fixture name, as
    succeeded or as failed, the procedure that owns it is a no-op for
    every suite that leads to that name.  A hook that was called and ended
    by returning or by an exception deriving from [Exception] is in the
    ledger afterwards; and so, over any series of fixture invocations
    made one after the other, however many suites lead to the same module
    or class, no fixture name is called twice.  So it is over a run on
    the concurrent branch of a well-formed tree in which no two suites
    lead to the same fixture name, with a pool that cannot starve.  On
    the branch that hands over to [unittest.TestSuite.run] the ledger is
    not consulted. *)
Theorem fixture_hooks_run_at_most_once :
  (∀ f test name result w,
      fixture_key f test = Some name → recorded name w = true →
      no_op (fixture_proc f test) result w)
  ∧ (∀ calls result w,
      Forall (fun call => hook_catchable (fixture_hook call.1 call.2) = true) calls →
      ledger_consistent w → ledger_consistent (invoke_all calls result w).2)
  ∧ (∀ calls result w,
      Forall (fun call => hook_catchable (fixture_hook call.1 call.2) = true) calls →
      trace w = [] → NoDup (hook_calls (trace (invoke_all calls result w).2)))
  ∧ (∀ tests concurrency_level max_workers result w,
      MODULE_LEVEL ≤ concurrency_level ≤ METHOD_LEVEL →
      well_formed tests = true →
      one_suite_per_fixture tests →
      forallb catchable tests = true →
      enough_workers tests concurrency_level max_workers result = true →
      trace w = [] →
      NoDup (hook_calls
               (trace (run tests false concurrency_level max_workers result w).2))).
Proof.
  split; [|split; [|split]].
  - apply recorded_is_no_op.
  - intros calls result w Hcalls. by apply invoke_all_keeps_ledger.
  - intros calls result w Hcalls Hw.
    by apply invoke_all_keeps_ledger, ledger_consistent_empty.
  - intros tests cl mw result w Hrange Hwf _ Hcatch Hpool Hw.
    apply andb_true_iff in Hpool as [Hworkers _].
    rewrite run_concurrent_branch; [|done|lia|by apply get_level_well_formed].
    apply _run_root_keeps_ledger; [lia|done|by apply ledger_consistent_empty].
Qed.

(** *** Quiet trees *)

Lemma quiet_cons t tests : quiet (t :: tests) = quiet [t] && quiet tests.
Proof. unfold quiet. cbn. by rewrite app_nil_r, forallb_app. Qed.

Lemma quiet_suite tests : quiet [Suite tests] = quiet tests.
Proof. unfold quiet. cbn. by rewrite app_nil_r. Qed.

Lemma quiet_case c : quiet [Case c] = quiet_class (case_class c).
Proof. unfold quiet. cbn. by rewrite andb_true_r. Qed.

Lemma quiet_forall tests :
  quiet tests = true ↔ Forall (fun t => quiet [t] = true) tests.
Proof.
  induction tests as [|t tests IH]; [by split; [constructor|]|].
  rewrite quiet_cons, andb_true_iff, Forall_cons, IH. tauto.
Qed.

Lemma quiet_class_hooks c :
  quiet_class c = true →
  hook_quiet (setUpClass c) = true
  ∧ hook_quiet (tearDownClass c) = true
  ∧ ∀ module, sys_modules !! cls_module c = Some module →
              hook_quiet (setUpModule module) = true
              ∧ hook_quiet (tearDownModule module) = true.
Proof.
  unfold quiet_class. intros [[Hs Ht]%andb_true_iff Hm]%andb_true_iff.
  repeat split; try done; rewrite H in Hm; by apply andb_true_iff in Hm as [? ?].
Qed.

(** *** The library's run on a quiet tree *)

Lemma library_hook_quiet hook name method parent on_fail mark result w :
  hook_quiet hook = true →
  ∃ w', library_hook hook name method parent on_fail mark result w = (None, result, w')
        ∧ _classSetupFailed w' = _classSetupFailed w.
Proof.
  intros Hquiet. unfold library_hook. destruct hook as [[|e|e]|]; [|done|done|]; by eexists.
Qed.

Lemma with_stdout_library_hook_quiet hook name method parent on_fail mark result w :
  hook_quiet hook = true →
  ∃ w', with_stdout (library_hook hook name method parent on_fail mark) result w
        = (None, result, w')
        ∧ _classSetupFailed w' = _classSetupFailed w.
Proof.
  intros Hquiet. unfold with_stdout.
  destruct (library_hook_quiet hook name method parent on_fail mark result
              (log SetupStdout w) Hquiet) as (w' & -> & Hcsf).
  by eexists.
Qed.

Lemma _handleModuleTearDown_quiet result w :
  library_invariant result w →
  ∃ w', _handleModuleTearDown result w = (None, result, w')
        ∧ _classSetupFailed w' = _classSetupFailed w.
Proof.
  intros (_ & Hmod & _ & Hprev). unfold _handleModuleTearDown, _get_previous_module.
  destruct (_previousTestClass result) as [c|]; [|by eexists].
  rewrite Hmod. destruct (sys_modules !! cls_module c) as [module|] eqn:Hsys; [|by eexists].
  apply with_stdout_library_hook_quiet.
  destruct (quiet_class_hooks c (Hprev c eq_refl)) as (_ & _ & Hm).
  by destruct (Hm module Hsys).
Qed.

Lemma _handleModuleFixture_quiet c result w :
  quiet_class c = true →
  library_invariant result w →
  ∃ w', _handleModuleFixture c result w = (None, result, w')
        ∧ _classSetupFailed w' = _classSetupFailed w.
Proof.
  intros Hc Hinv. unfold _handleModuleFixture.
  destruct (bool_decide _); [by eexists|]. unfold and_then.
  destruct (_handleModuleTearDown_quiet result w Hinv) as (w1 & -> & Hcsf1).
  destruct Hinv as (_ & Hmod & _ & _).
  assert (set_moduleSetUpFailed false result = result) as Hsame.
  { rewrite <- Hmod. apply set_moduleSetUpFailed_same. }
  cbv zeta. rewrite Hsame.
  destruct (sys_modules !! cls_module c) as [module|] eqn:Hsys; [|by eexists].
  destruct (quiet_class_hooks c Hc) as (_ & _ & Hm).
  destruct (Hm module Hsys) as [Hup _].
  destruct (setUpModule module) as [hook|] eqn:Hhook; [|by eexists].
  destruct (with_stdout_library_hook_quiet (Some hook) (cls_module c +:+ ".setUpModule")
              "setUpModule" (cls_module c) (set_moduleSetUpFailed true) id result w1 Hup)
    as (w2 & -> & Hcsf2).
  eexists. split; [done|]. congruence.
Qed.

Lemma _handleClassSetUp_quiet c result w :
  quiet_class c = true →
  library_invariant result w →
  ∃ w', _handleClassSetUp c result w = (None, result, w')
        ∧ _classSetupFailed w' = ∅.
Proof.
  intros Hc (_ & Hmod & Hcsf & _). unfold _handleClassSetUp.
  destruct (bool_decide _); [by eexists|]. rewrite Hmod.
  destruct (unittest_skip c); [by eexists|].
  assert (_classSetupFailed (set_classSetupFailed c false w) = ∅) as Hcsf'.
  { cbn. rewrite Hcsf. apply empty_difference_L. }
  destruct (quiet_class_hooks c Hc) as (Hup & _ & _).
  destruct (setUpClass c) as [hook|] eqn:Hhook; [|by eexists].
  destruct (with_stdout_library_hook_quiet (Some hook) (strclass c +:+ ".setUpClass")
              "setUpClass" (strclass c) id (set_classSetupFailed c true) result
              (set_classSetupFailed c false w) Hup)
    as (w2 & -> & Hcsf2).
  eexists. split; [done|]. congruence.
Qed.

Lemma _tearDownPreviousClass_quiet current result w :
  library_invariant result w →
  ∃ w', _tearDownPreviousClass current result w = (None, result, w')
        ∧ _classSetupFailed w' = _classSetupFailed w.
Proof.
  intros (_ & Hmod & Hcsf & Hprev). unfold _tearDownPreviousClass.
  destruct (_previousTestClass result) as [c|]; [|by eexists].
  do 2 (destruct (bool_decide _); [by eexists|]). rewrite Hmod.
  destruct (unittest_skip c); [by eexists|].
  apply with_stdout_library_hook_quiet.
  by destruct (quiet_class_hooks c (Hprev c eq_refl)) as (_ & Hdown & _).
Qed.

Lemma library_invariant_world result w w' :
  _classSetupFailed w' = _classSetupFailed w →
  library_invariant result w → library_invariant result w'.
Proof. intros Hcsf (? & ? & ? & ?). repeat split; try done. congruence. Qed.

(** What the loop does for one case: the fixtures around it change
    nothing, the case is run. *)
Lemma loop_case_runs_case c :
  quiet_class (case_class c) = true →
  runs_cases
    (_tearDownPreviousClass (Some (case_class c)) >>
     _handleModuleFixture (case_class c) >>
     _handleClassSetUp (case_class c) >>
     (fun result w =>
        let result := set_previousTestClass (Some (case_class c)) result in
        if bool_decide (case_class c ∈ _classSetupFailed w) || _moduleSetUpFailed result
        then (None, result, w)
        else TestCase_run c result w))
    [c].
Proof.
  intros Hc result w Hinv. unfold and_then.
  destruct (_tearDownPreviousClass_quiet (Some (case_class c)) result w Hinv)
    as (w1 & -> & Hcsf1).
  pose proof (library_invariant_world result w w1 Hcsf1 Hinv) as Hinv1.
  destruct (_handleModuleFixture_quiet (case_class c) result w1 Hc Hinv1)
    as (w2 & -> & Hcsf2).
  pose proof (library_invariant_world result w1 w2 Hcsf2 Hinv1) as Hinv2.
  destruct (_handleClassSetUp_quiet (case_class c) result w2 Hc Hinv2)
    as (w3 & -> & Hcsf3).
  destruct Hinv as (Hstop & Hmod & _ & _).
  cbv zeta. rewrite Hcsf3.
  rewrite bool_decide_eq_false_2 by set_solver.
  replace (_moduleSetUpFailed (set_previousTestClass (Some (case_class c)) result))
    with false by (by destruct result).
  cbn [orb].
  destruct (TestCase_run_spec c (set_previousTestClass (Some (case_class c)) result) w3)
    as (r' & w' & -> & Hrec & _ & Hprev' & Hmod' & Hent' & Hstop' & Hcsf').
  exists r', w'. split; [done|]. split; [|split].
  - repeat split.
    + rewrite Hstop'. by destruct result.
    + rewrite Hmod'. by destruct result.
    + congruence.
    + intros c'. rewrite Hprev'. destruct result; cbn. by intros [= <-].
  - eapply records_of_from_same_records; [..|exact Hrec]; by destruct result.
  - rewrite Hent'. by destruct result.
Qed.

Lemma runs_cases_done : runs_cases done_ [].
Proof.
  intros result w Hinv. exists result, w.
  split; [done|]. split; [done|]. split; [apply records_of_nil|done].
Qed.

Lemma runs_cases_and_then a b cs1 cs2 :
  runs_cases a cs1 → runs_cases b cs2 → runs_cases (a >> b) (cs1 ++ cs2).
Proof.
  intros Ha Hb result w Hinv. unfold and_then.
  destruct (Ha result w Hinv) as (r1 & w1 & -> & Hinv1 & Hrec1 & Hent1).
  destruct (Hb r1 w1 Hinv1) as (r2 & w2 & -> & Hinv2 & Hrec2 & Hent2).
  exists r2, w2. split; [done|]. split; [done|]. split.
  - by eapply records_of_app.
  - congruence.
Qed.

Lemma unittest_loop_runs_cases tests :
  Forall (fun t => match t with
                   | Case c => quiet_class (case_class c) = true
                   | Suite _ => runs_cases (call_test false t) (cases_of t)
                   end) tests →
  runs_cases (unittest_loop (call_test false) tests) (flat_map cases_of tests).
Proof.
  induction 1 as [|t tests Ht _ IH]; cbn [unittest_loop flat_map]; [apply runs_cases_done|].
  intros result w Hinv. destruct Hinv as (Hstop & Hrest). rewrite Hstop.
  apply runs_cases_and_then; [|exact IH|by split].
  destruct t as [c|ts]; cbn [_is_suite class_of cases_of]; [|exact Ht].
  by apply loop_case_runs_case.
Qed.

Lemma unittest_run_runs_cases tests :
  Forall (fun t => match t with
                   | Case c => quiet_class (case_class c) = true
                   | Suite _ => runs_cases (call_test false t) (cases_of t)
                   end) tests →
  runs_cases (unittest_run (call_test false) tests) (flat_map cases_of tests).
Proof.
  intros Htests result w Hinv. unfold unittest_run.
  pose proof (unittest_loop_runs_cases tests Htests) as Hloop.
  destruct (_testRunEntered result) eqn:Hentered; cbn [negb].
  - (* a nested run: the loop and nothing else *)
    unfold and_then.
    destruct (Hloop result w Hinv) as (r1 & w1 & -> & Hinv1 & Hrec1 & Hent1).
    exists r1, w1. by rewrite Hent1.
  - (* the top-level run: the flag is set, and cleared after the last teardowns *)
    assert (library_invariant (set_testRunEntered true result) w) as Hinv0.
    { destruct Hinv as (? & ? & ? & ?). by destruct result. }
    unfold and_then.
    destruct (Hloop _ w Hinv0) as (r1 & w1 & -> & Hinv1 & Hrec1 & Hent1).
    destruct (_tearDownPreviousClass_quiet None r1 w1 Hinv1) as (w2 & -> & Hcsf2).
    pose proof (library_invariant_world r1 w1 w2 Hcsf2 Hinv1) as Hinv2.
    destruct (_handleModuleTearDown_quiet r1 w2 Hinv2) as (w3 & -> & Hcsf3).
    pose proof (library_invariant_world r1 w2 w3 Hcsf3 Hinv2) as Hinv3.
    exists (set_testRunEntered false r1), w3. split; [done|]. split; [|split].
    + destruct Hinv3 as (? & ? & ? & ?). by destruct r1.
    + eapply records_of_same_records;
        [..|eapply records_of_from_same_records; [..|exact Hrec1]];
        by (destruct r1 || destruct result).
    + by destruct r1.
Qed.

Lemma call_test_runs_cases test :
  quiet [test] = true →
  match test with
  | Case c => quiet_class (case_class c) = true
  | Suite _ => runs_cases (call_test false test) (cases_of test)
  end.
Proof.
  induction test as [c|tests IH] using Test_forall_ind; intros Hquiet.
  - by rewrite quiet_case in Hquiet.
  - rewrite quiet_suite in Hquiet. apply quiet_forall in Hquiet.
    cbn [call_test cases_of]. apply unittest_run_runs_cases.
    apply Forall_forall. intros t Ht.
    eapply Forall_forall in IH; [|exact Ht]. eapply Forall_forall in Hquiet; [|exact Ht].
    by apply IH.
Qed.

Lemma super_run_runs_cases tests :
  quiet tests = true →
  runs_cases (super_run tests false) (flat_map cases_of tests).
Proof.
  intros Hquiet. rewrite <- quiet_suite in Hquiet.
  exact (call_test_runs_cases (Suite tests) Hquiet).
Qed.

(** *** The fixtures of the suite on a quiet, well-formed tree *)

Lemma call_fixture_quiet hook name err mark result w :
  hook_quiet (Some hook) = true →
  ∃ w', call_fixture hook name err mark result w = (None, result, w').
Proof. destruct hook; [by eexists|done|done]. Qed.

Lemma well_formed_class_suite tests :
  well_formed_at CLASS_LEVEL (Suite tests) = true →
  ∃ c rest, tests = Case c :: rest.
Proof.
  intros (_ & Hne & Hall)%well_formed_at_suite.
  destruct tests as [|t rest]; [done|]. apply Forall_cons in Hall as [Ht _].
  destruct t as [c|ts]; [by eauto|].
  apply well_formed_at_suite in Ht as (Hlvl & _). unfold CLASS_LEVEL, METHOD_LEVEL in *. lia.
Qed.

Lemma well_formed_module_suite tests :
  well_formed_at MODULE_LEVEL (Suite tests) = true →
  ∃ c rest rest', tests = Suite (Case c :: rest) :: rest'.
Proof.
  intros (_ & Hne & Hall)%well_formed_at_suite.
  destruct tests as [|t rest']; [done|]. apply Forall_cons in Hall as [Ht _].
  destruct t as [c|ts].
  - apply well_formed_at_case in Ht. unfold MODULE_LEVEL, METHOD_LEVEL in *. lia.
  - apply well_formed_class_suite in Ht as (c & rest & ->). by eauto.
Qed.

Lemma module_fixtures_neutral test :
  well_formed_at MODULE_LEVEL test = true →
  quiet [test] = true →
  neutral (_setup_module test) ∧ neutral (_teardown_module test).
Proof.
  intros Hwf Hquiet. destruct test as [c|tests].
  { apply well_formed_at_case in Hwf. unfold MODULE_LEVEL, METHOD_LEVEL in *. lia. }
  apply well_formed_module_suite in Hwf as (c & rest & rest' & ->).
  assert (quiet_class (case_class c) = true) as Hc.
  { unfold quiet in Hquiet. cbn in Hquiet. by apply andb_true_iff in Hquiet as [? _]. }
  destruct (quiet_class_hooks _ Hc) as (_ & _ & Hm).
  split; intros result w.
  - unfold _setup_module. cbn [_get_current_module class_of].
    destruct (recorded _ w); [by eexists|].
    destruct (sys_modules !! _) as [module|] eqn:Hsys; [|by eexists].
    destruct (Hm module eq_refl) as [Hup _].
    destruct (setUpModule module) as [hook|]; [|by eexists].
    by apply call_fixture_quiet.
  - unfold _teardown_module. cbn [_get_current_module class_of].
    destruct (recorded _ w); [by eexists|].
    destruct (bool_decide _); [by eexists|].
    destruct (sys_modules !! _) as [module|] eqn:Hsys; [|by eexists].
    destruct (Hm module eq_refl) as [_ Hdown].
    destruct (tearDownModule module) as [hook|]; [|by eexists].
    by apply call_fixture_quiet.
Qed.

Lemma class_fixtures_neutral test :
  well_formed_at CLASS_LEVEL test = true →
  quiet [test] = true →
  neutral (_setup_class test) ∧ neutral (_teardown_class test).
Proof.
  intros Hwf Hquiet. destruct test as [c|tests].
  { apply well_formed_at_case in Hwf. unfold CLASS_LEVEL, METHOD_LEVEL in *. lia. }
  apply well_formed_class_suite in Hwf as (c & rest & ->).
  assert (quiet_class (case_class c) = true) as Hc.
  { unfold quiet in Hquiet. cbn in Hquiet. by apply andb_true_iff in Hquiet as [? _]. }
  destruct (quiet_class_hooks _ Hc) as (Hup & Hdown & _).
  split; intros result w.
  - unfold _setup_class. cbn [_get_current_class class_of]. cbv zeta.
    destruct (recorded _ w); [by eexists|].
    destruct (bool_decide _); [by eexists|].
    destruct (unittest_skip _); [by eexists|].
    destruct (setUpClass _) as [hook|]; [|by eexists].
    by apply call_fixture_quiet.
  - unfold _teardown_class. cbn [_get_current_class class_of]. cbv zeta.
    destruct (recorded _ w); [by eexists|].
    do 2 (destruct (bool_decide _); [by eexists|]).
    destruct (unittest_skip _); [by eexists|].
    destruct (tearDownClass _) as [hook|]; [|by eexists].
    by apply call_fixture_quiet.
Qed.

(** *** The sequential executor on a quiet, well-formed subtree *)

Lemma writes_cases_neutral a : neutral a → writes_cases a [].
Proof.
  intros Ha result w. destruct (Ha result w) as (w' & ->).
  exists result, w'. split; [done|]. split; [apply records_of_nil|done].
Qed.

Lemma writes_cases_and_then a b cs1 cs2 :
  writes_cases a cs1 → writes_cases b cs2 → writes_cases (a >> b) (cs1 ++ cs2).
Proof.
  intros Ha Hb result w. unfold and_then.
  destruct (Ha result w) as (r1 & w1 & -> & Hrec1 & Hkids1).
  destruct (Hb r1 w1) as (r2 & w2 & -> & Hrec2 & Hkids2).
  exists r2, w2. split; [done|]. split; [by eapply records_of_app|congruence].
Qed.

Lemma writes_cases_for_each f tests :
  Forall (fun t => writes_cases (f t) (cases_of t)) tests →
  writes_cases (for_each f tests) (flat_map cases_of tests).
Proof.
  induction 1 as [|t tests Ht _ IH]; cbn [for_each flat_map].
  - apply writes_cases_neutral. intros result w. by eexists.
  - by apply writes_cases_and_then.
Qed.

Lemma writes_cases_TestCase_run c : writes_cases (TestCase_run c) [c].
Proof.
  intros result w.
  destruct (TestCase_run_spec c result w) as (r' & w' & -> & Hrec & Hkids & _).
  by exists r', w'.
Qed.

Lemma _seq_run_writes_cases test : ∀ level,
  MODULE_LEVEL ≤ level →
  well_formed_at level test = true →
  quiet [test] = true →
  writes_cases (_seq_run test) (cases_of test).
Proof.
  induction test as [c|tests IH] using Test_forall_ind; intros level Hlevel Hwf Hquiet.
  - apply writes_cases_TestCase_run.
  - pose proof (get_level_well_formed _ _ Hwf) as Hget.
    pose proof Hwf as (Hlt & _ & Hall)%well_formed_at_suite.
    assert (writes_cases (for_each _seq_run tests) (flat_map cases_of tests)) as Hbody.
    { apply writes_cases_for_each, Forall_forall. intros t Ht.
      eapply Forall_forall in IH; [|exact Ht]. eapply Forall_forall in Hall; [|exact Ht].
      rewrite quiet_suite in Hquiet. apply quiet_forall in Hquiet.
      eapply Forall_forall in Hquiet; [|exact Ht].
      apply (IH (level + 1)); [lia|done|done]. }
    cbn [_seq_run cases_of]. rewrite Hget.
    unfold MODULE_LEVEL, CLASS_LEVEL, METHOD_LEVEL in *.
    assert (level = 1 ∨ level = 2) as [-> | ->] by lia; cbn [Z.eqb Pos.eqb].
    + destruct (module_fixtures_neutral _ Hwf Hquiet) as [Hup Hdown].
      rewrite <- (app_nil_l (flat_map cases_of tests)),
              <- (app_nil_r (flat_map cases_of tests)).
      repeat apply writes_cases_and_then; try done; by apply writes_cases_neutral.
    + destruct (class_fixtures_neutral _ Hwf Hquiet) as [Hup Hdown].
      rewrite <- (app_nil_l (flat_map cases_of tests)),
              <- (app_nil_r (flat_map cases_of tests)).
      repeat apply writes_cases_and_then; try done; by apply writes_cases_neutral.
Qed.

(** *** Batches of futures *)

Lemma set_children_set_children kids kids' result :
  set_children kids' (set_children kids result) = set_children kids' result.
Proof. by destruct result. Qed.

Lemma neutral_done : neutral done_.
Proof. intros result w. by eexists. Qed.

Lemma neutral_stays_in_future a : neutral a → neutral (stays_in_future a).
Proof.
  intros Ha result w. unfold stays_in_future. destruct (Ha result w) as (w' & ->). by eexists.
Qed.

Lemma neutral_on_child i a : neutral a → neutral (on_child i a).
Proof.
  intros Ha result w. unfold on_child.
  destruct (children result !! i) as [c|] eqn:Hc; [|by eexists].
  destruct (Ha c w) as (w' & ->). exists w'.
  by rewrite list_insert_id, set_children_same.
Qed.

Lemma neutral_unit_of us f i :
  (∀ u, u ∈ us → neutral (f u)) → neutral (unit_of us f i).
Proof.
  intros Hf. unfold unit_of. destruct (us !! i) as [u|] eqn:Hu; [|apply neutral_done].
  apply Hf. by eapply list_elem_of_lookup_2.
Qed.

Lemma neutral_batch unit_ order : (∀ i, neutral (unit_ i)) → neutral (batch unit_ order).
Proof.
  intros Hunit. induction order as [|i order IH]; cbn [batch]; [apply neutral_done|].
  intros result w. unfold and_then.
  destruct (Hunit i result w) as (w1 & ->). apply IH.
Qed.

(** The children of a batch, each run on its own slot: whatever the order
    of completion, as long as every future completes once, slot [i] ends
    up holding what child [i] produced from it.  [wrap] is the identity
    where the scheduler asks for the result of the future, and
    [stays_in_future] where it only waits. *)
Lemma batch_bodies (wrap : action → action) (us : list (Test * action))
    (R : Test → Result → Prop) (order : list nat) :
  (∀ a c w c' w', a c w = (None, c', w') → wrap a c w = (None, c', w')) →
  NoDup order →
  ∀ kids : list Result,
    (∀ i, i ∈ order →
          ∃ (u : Test * action) c, us !! i = Some u ∧ kids !! i = Some c
                 ∧ ∀ w, ∃ c' w', u.2 c w = (None, c', w') ∧ R u.1 c') →
    ∀ result w,
      children result = kids →
      ∃ kids' w',
        batch (fun i => on_child i (wrap (unit_of us (fun u => u.2) i))) order result w
        = (None, set_children kids' result, w')
        ∧ length kids' = length kids
        ∧ (∀ i, i ∉ order → kids' !! i = kids !! i)
        ∧ (∀ i, i ∈ order →
                ∃ (u : Test * action) c', us !! i = Some u ∧ kids' !! i = Some c' ∧ R u.1 c').
Proof.
  intros Hwrap Hnodup. induction Hnodup as [|i order Hi Hnodup IH];
    intros kids Hunits result w Hkids.
  - exists kids, w. cbn [batch]. unfold done_.
    rewrite <- Hkids, set_children_same. split; [done|]. split; [done|]. split; [done|].
    intros i Hi. by apply elem_of_nil in Hi.
  - destruct (Hunits i) as (u & c & Hu & Hc & Hrun); [by left|].
    destruct (Hrun w) as (c' & w1 & Hbody & HR).
    assert (on_child i (wrap (unit_of us (fun u => u.2) i)) result w
            = (None, set_children (<[i:=c']> kids) result, w1)) as Hfirst.
    { unfold on_child. rewrite Hkids, Hc. unfold unit_of. rewrite Hu.
      by rewrite (Hwrap _ _ _ _ _ Hbody). }
    cbn [batch]. unfold and_then. rewrite Hfirst.
    destruct (IH (<[i:=c']> kids)) with (result := set_children (<[i:=c']> kids) result)
                                        (w := w1)
      as (kids' & w' & Hbatch & Hlen & Hout & Hin).
    { intros j Hj. assert (i ≠ j) as Hne by (intros ->; contradiction).
      destruct (Hunits j) as (uj & cj & Huj & Hcj & Hrunj); [by right|].
      exists uj, cj. by rewrite list_lookup_insert_ne. }
    { by destruct result. }
    exists kids', w'. rewrite Hbatch, set_children_set_children. split; [done|].
    rewrite Hlen, length_insert. split; [done|]. split.
    + intros j Hj. apply not_elem_of_cons in Hj as [Hne Hj].
      rewrite (Hout j Hj). by apply list_lookup_insert_ne.
    + intros j [->|Hj]%elem_of_cons; [|by apply Hin].
      exists u, c'. split; [done|]. split; [|done].
      rewrite (Hout i Hi). apply list_lookup_insert_eq. by eapply lookup_lt_Some.
Qed.

(** The same on a full batch: the order is a permutation of the indices of
    the pairs, and every slot is filled by its own child. *)
Lemma batch_bodies_all (wrap : action → action) (tests : list Test) (body : Test → action)
    (slot : Test → Result) (R : Test → Result → Prop) (order : list nat) :
  (∀ a c w c' w', a c w = (None, c', w') → wrap a c w = (None, c', w')) →
  order ≡ₚ seq 0 (length tests) →
  (∀ t, t ∈ tests → ∀ w, ∃ c' w', body t (slot t) w = (None, c', w') ∧ R t c') →
  ∀ result w,
    children result = map slot tests →
    ∃ kids' w',
      batch (fun i => on_child i (wrap (unit_of (map (fun t => (t, body t)) tests)
                                                (fun u => u.2) i)))
            order result w
      = (None, set_children kids' result, w')
      ∧ Forall2 R tests kids'.
Proof.
  intros Hwrap Hperm Hbody result w Hkids.
  assert (∀ i, i ∈ order ↔ (i < length tests)%nat) as Hrange.
  { intros i. rewrite Hperm, elem_of_seq. lia. }
  destruct (batch_bodies wrap (map (fun t => (t, body t)) tests) R order Hwrap)
    with (kids := map slot tests) (result := result) (w := w)
    as (kids' & w' & Hbatch & Hlen & _ & Hin); [| |done|].
  - rewrite Hperm. apply NoDup_seq.
  - intros i Hi. apply Hrange in Hi.
    destruct (lookup_lt_is_Some_2 tests i Hi) as [t Ht].
    exists (t, body t), (slot t). rewrite !list_lookup_fmap, Ht. cbn.
    split; [done|]. split; [done|]. apply Hbody. by eapply list_elem_of_lookup_2.
  - exists kids', w'. split; [done|].
    apply Forall2_same_length_lookup. rewrite length_map in Hlen. split; [done|].
    intros i t c' Ht Hc'.
    destruct (Hin i) as (u & c'' & Hu & Hc'' & HR).
    { apply Hrange. by eapply lookup_lt_Some. }
    rewrite list_lookup_fmap, Ht in Hu. injection Hu as <-.
    rewrite Hc' in Hc''. by injection Hc'' as <-.
Qed.

Lemma wrap_identity (a : action) c w c' w' :
  a c w = (None, c', w') → (fun a : action => a) a c w = (None, c', w').
Proof. done. Qed.

Lemma wrap_stays_in_future (a : action) c w c' w' :
  a c w = (None, c', w') → stays_in_future a c w = (None, c', w').
Proof. unfold stays_in_future. by intros ->. Qed.

(** *** Folding the slots *)

Lemma combine_results_records tests kids : ∀ result,
  Forall2 (fun t slot => records_of (cases_of t) (new_result []) slot) tests kids →
  records_of (flat_map cases_of tests) result (combine_results result kids)
  ∧ children (combine_results result kids) = kids.
Proof.
  intros result Hslots. split; [|by unfold combine_results].
  unfold combine_results.
  match goal with
  | |- records_of _ _ (set_children _ ?folded) =>
      apply (records_of_same_records _ _ folded); [done..|]
  end.
  revert result. induction Hslots as [|t slot tests kids Hslot _ IH]; intros result.
  - apply records_of_nil.
  - cbn [fold_left flat_map]. eapply records_of_app; [|apply IH].
    destruct Hslot as (Hn & Hf & He & Hs). cbn in Hn, Hf, He, Hs.
    unfold records_of. cbn. by rewrite Hn, Hf, He, Hs.
Qed.

(** *** The scheduler on a quiet, well-formed tree *)

Lemma fan_out_spec test setup teardown (tests : list Test) (body : Test → action)
    (slot : Test → Result) (R : Test → Result → Prop) :
  (∀ phase n, as_completed phase test n ≡ₚ seq 0 n) →
  (∀ t, t ∈ tests → neutral (setup t) ∧ neutral (teardown t)) →
  (∀ t, t ∈ tests → ∀ w, ∃ c' w', body t (slot t) w = (None, c', w') ∧ R t c') →
  ∀ result w,
    children result = map slot tests →
    ∃ kids' w',
      fan_out test setup teardown (Some (map (fun t => (t, body t)) tests)) result w
      = (None, set_children kids' result, w')
      ∧ Forall2 R tests kids'.
Proof.
  intros Hperm Hfix Hbody result w Hkids. unfold fan_out.
  rewrite Hkids, !length_map, Nat.min_id. cbv zeta. unfold and_then.
  assert (∀ (f : Test → action) i,
             (∀ t, t ∈ tests → neutral (f t)) →
             neutral (unit_of (map (fun t => (t, body t)) tests) (fun u => f u.1) i))
    as Hneutral.
  { intros f i Hf. apply neutral_unit_of.
    intros u (t & -> & Ht)%list_elem_of_fmap. by apply Hf. }
  (* the setups *)
  destruct (neutral_batch
              (fun i => on_child i (unit_of (map (fun t => (t, body t)) tests)
                                            (fun u => setup u.1) i))
              (as_completed Setup test (length tests))) with (result := result) (w := w)
    as (w1 & ->).
  { intros i. apply neutral_on_child, (Hneutral setup). intros t Ht. by apply Hfix. }
  (* the children *)
  destruct (batch_bodies_all (fun a => a) tests body slot R
              (as_completed Body test (length tests)) wrap_identity (Hperm _ _) Hbody
              result w1 Hkids)
    as (kids' & w2 & -> & Hslots).
  (* the teardowns *)
  destruct (neutral_batch
              (fun i => on_child i (stays_in_future
                                      (unit_of (map (fun t => (t, body t)) tests)
                                               (fun u => teardown u.1) i)))
              (as_completed Teardown test (length tests)))
    with (result := set_children kids' result) (w := w2)
    as (w3 & ->).
  { intros i. apply neutral_on_child, neutral_stays_in_future, (Hneutral teardown).
    intros t Ht. by apply Hfix. }
  by exists kids', w3.
Qed.

Lemma fan_out_cases_spec test (tests : list Test) (body : Test → action)
    (slot : Test → Result) (R : Test → Result → Prop) :
  (∀ phase n, as_completed phase test n ≡ₚ seq 0 n) →
  (∀ t, t ∈ tests → ∀ w, ∃ c' w', body t (slot t) w = (None, c', w') ∧ R t c') →
  ∀ result w,
    children result = map slot tests →
    ∃ kids' w',
      fan_out_cases test (Some (map (fun t => (t, body t)) tests)) result w
      = (None, set_children kids' result, w')
      ∧ Forall2 R tests kids'.
Proof.
  intros Hperm Hbody result w Hkids. unfold fan_out_cases.
  rewrite Hkids, !length_map, Nat.min_id. cbv zeta.
  exact (batch_bodies_all stays_in_future tests body slot R
           (as_completed Body test (length tests)) wrap_stays_in_future (Hperm _ _) Hbody
           result w Hkids).
Qed.

(** From the result allocated for it, the scheduler leaves in the result
    of a subtree exactly the records of the cases of the subtree, whatever
    the order in which the futures complete, and every slot it divided
    into holds the records of the child it was paired with. *)
Lemma _run_spec concurrency_level test : ∀ current_level,
  (∀ phase t n, as_completed phase t n ≡ₚ seq 0 n) →
  MODULE_LEVEL ≤ concurrency_level ≤ METHOD_LEVEL →
  ROOT_LEVEL ≤ current_level ≤ concurrency_level →
  well_formed_at current_level test = true →
  quiet [test] = true →
  ∀ w, ∃ result' w',
    _run test current_level concurrency_level
         (result_for test current_level concurrency_level) w
    = (None, result', w')
    ∧ records_of (cases_of test) (new_result []) result'
    ∧ (current_level < concurrency_level →
       ∀ tests, test = Suite tests → slots_in_order tests result').
Proof.
  induction test as [c|tests IH] using Test_forall_ind;
    intros current_level Hperm Hcl Hlevel Hwf Hquiet w.
  - (* a case sits at level Method, which is then the concurrency level *)
    apply well_formed_at_case in Hwf. subst current_level.
    unfold MODULE_LEVEL, METHOD_LEVEL, ROOT_LEVEL in *.
    assert (concurrency_level = 3) as -> by lia. cbn.
    destruct (writes_cases_TestCase_run c (new_result []) w) as (r' & w' & Hrun & Hrec & _).
    exists r', w'. split; [done|]. split; [done|]. lia.
  - pose proof Hwf as (Hlt & _ & Hall)%well_formed_at_suite.
    cbn [_run result_for].
    destruct (Z.eqb_spec current_level concurrency_level) as [->|Hne].
    + (* at the concurrency level: the sequential executor *)
      rewrite Z.ltb_irrefl.
      destruct (_seq_run_writes_cases (Suite tests) concurrency_level
                  (proj1 Hcl) Hwf Hquiet (new_result []) w)
        as (r' & w' & Hrun & Hrec & _).
      exists r', w'. split; [done|]. split; [done|]. lia.
    + (* above it: divide and conquer *)
      assert (current_level < concurrency_level) as Hbelow by lia.
      rewrite (proj2 (Z.ltb_lt _ _) Hbelow).
      rewrite quiet_suite in Hquiet. apply quiet_forall in Hquiet.
      set (body := fun t => _run t (current_level + 1) concurrency_level).
      set (slot := fun t => result_for t (current_level + 1) concurrency_level).
      set (R := fun t s => records_of (cases_of t) (new_result []) s).
      assert (∀ t, t ∈ tests → ∀ w, ∃ c' w', body t (slot t) w = (None, c', w') ∧ R t c')
        as Hbody.
      { intros t Ht w0.
        eapply Forall_forall in IH; [|exact Ht]. eapply Forall_forall in Hall; [|exact Ht].
        eapply Forall_forall in Hquiet; [|exact Ht].
        destruct (IH (current_level + 1) Hperm Hcl ltac:(lia) Hall Hquiet w0)
          as (c' & w' & Hrun & Hrec & _).
        by exists c', w'. }
      assert (∃ kids' w',
                 (if current_level =? ROOT_LEVEL then
                    fan_out (Suite tests) _setup_module _teardown_module
                            (Some (map (fun t => (t, body t)) tests))
                  else if current_level =? MODULE_LEVEL then
                    fan_out (Suite tests) _setup_class _teardown_class
                            (Some (map (fun t => (t, body t)) tests))
                  else if current_level =? CLASS_LEVEL then
                    fan_out_cases (Suite tests) (Some (map (fun t => (t, body t)) tests))
                  else done_) (new_result (map slot tests)) w
                 = (None, set_children kids' (new_result (map slot tests)), w')
                 ∧ Forall2 R tests kids') as (kids' & w' & Hfan & Hslots).
      { unfold ROOT_LEVEL, MODULE_LEVEL, CLASS_LEVEL, METHOD_LEVEL in *.
        assert (current_level = 0 ∨ current_level = 1 ∨ current_level = 2)
          as [->|[->| ->]] by lia; cbn [Z.eqb Pos.eqb].
        - apply (fan_out_spec _ _ _ tests body slot R); try done. intros t Ht.
          eapply Forall_forall in Hall; [|exact Ht]. eapply Forall_forall in Hquiet; [|exact Ht].
          by apply module_fixtures_neutral.
        - apply (fan_out_spec _ _ _ tests body slot R); try done. intros t Ht.
          eapply Forall_forall in Hall; [|exact Ht]. eapply Forall_forall in Hquiet; [|exact Ht].
          by apply class_fixtures_neutral.
        - by apply (fan_out_cases_spec _ tests body slot R). }
      unfold and_then. fold slot. unfold body in Hfan. cbv beta in Hfan. rewrite Hfan.
      change (children (set_children kids' (new_result (map slot tests)))) with kids'.
      destruct (combine_results_records tests kids'
                  (set_children kids' (new_result (map slot tests))) Hslots)
        as [Hrec Hkids].
      eexists _, w'. split; [reflexivity|]. split.
      * eapply records_of_from_same_records; [..|exact Hrec]; done.
      * intros _ tests' [= <-]. unfold slots_in_order. cbn [cases_of]. by rewrite Hkids.
Qed.

(** *** The two runners *)

Lemma same_outcome_of_records cs r0 r0' r1 r2 :
  testsRun r0 = testsRun r0' → failures r0 = failures r0' →
  errors r0 = errors r0' → skipped r0 = skipped r0' →
  records_of cs r0 r1 → records_of cs r0' r2 → same_outcome r1 r2.
Proof.
  intros Hn Hf He Hs (Hn1 & Hf1 & He1 & Hs1) (Hn2 & Hf2 & He2 & Hs2).
  unfold same_outcome. by rewrite Hn1, Hf1, He1, Hs1, Hn2, Hf2, He2, Hs2, Hn, Hf, He, Hs.
Qed.

(** X18.  The two runners agree where no setup hook fails.  For a
    well-formed tree in which every suite leads to the module or class of
    all its cases and no two suites lead to the same fixture name, none
    of whose fixture hooks raises, with tests whose outcome does not
    depend on what ran before them, started from the result allocated for
    the concurrent run: a run on the branch that hands over to
    [unittest.TestSuite.run] outside debug mode and a run at any level in
    [Root..Method], with a pool that cannot starve when the run is
    divided, both return, with the same aggregate test count and the same
    sets of failure, error and skip identities, in whatever order the
    futures of each batch complete; and when the run is divided the child
    slots of its result are those of the children of the tree, in their
    order. *)
Theorem sequential_and_concurrent_runs_agree
    tests concurrency_level max_workers concurrency_level' max_workers' w :
  (∀ phase t n, as_completed phase t n ≡ₚ seq 0 n) →
  well_formed tests = true →
  homogeneous tests = true →
  one_suite_per_fixture tests →
  quiet tests = true →
  _classSetupFailed w = ∅ →
  ROOT_LEVEL ≤ concurrency_level ≤ METHOD_LEVEL →
  concurrency_level = ROOT_LEVEL ∨ max_workers ≤ 1 →
  ROOT_LEVEL ≤ concurrency_level' ≤ METHOD_LEVEL →
  1 ≤ max_workers' →
  let r0 := result_for (Suite tests) ROOT_LEVEL concurrency_level' in
  concurrency_level' = ROOT_LEVEL ∨ max_workers' ≤ 1
  ∨ enough_workers tests concurrency_level' max_workers' r0 = true →
  let sequential := run tests false concurrency_level max_workers r0 w in
  let concurrent := run tests false concurrency_level' max_workers' r0 w in
  sequential.1.1 = None
  ∧ concurrent.1.1 = None
  ∧ same_outcome sequential.1.2 concurrent.1.2
  ∧ (ROOT_LEVEL < concurrency_level' → 1 < max_workers' →
     slots_in_order tests concurrent.1.2).
Proof.
  intros Hperm Hwf _ _ Hquiet Hcsf Hcl Hseq Hcl' Hworkers r0 _ sequential concurrent.
  assert (library_invariant r0 w) as Hinv by (by repeat split).
  destruct (super_run_runs_cases tests Hquiet r0 w Hinv)
    as (r1 & w1 & Hrun1 & _ & Hrec1 & _).
  assert (sequential = (None, r1, w1)) as Hsequential.
  { unfold sequential. rewrite run_sequential_branch; [done|done|]. right. exact Hseq. }
  destruct (decide (concurrency_level' = ROOT_LEVEL ∨ max_workers' ≤ 1)) as [Hseq'|Hconc].
  - (* the second run takes the sequential branch too *)
    assert (concurrent = (None, r1, w1)) as Hconcurrent.
    { unfold concurrent. rewrite run_sequential_branch; [done|done|]. right. exact Hseq'. }
    rewrite Hsequential, Hconcurrent. cbn. split; [done|]. split; [done|]. split.
    + eapply same_outcome_of_records; [..|exact Hrec1|exact Hrec1]; done.
    + unfold ROOT_LEVEL in *. lia.
  - (* the second run is divided among the workers *)
    assert (MODULE_LEVEL ≤ concurrency_level' ≤ METHOD_LEVEL ∧ 1 < max_workers')
      as [Hcl'' Hworkers'] by (unfold ROOT_LEVEL, MODULE_LEVEL in *; lia).
    pose proof (get_level_well_formed (Suite tests) ROOT_LEVEL Hwf) as Hlevel.
    rewrite <- quiet_suite in Hquiet.
    destruct (_run_spec concurrency_level' (Suite tests) ROOT_LEVEL Hperm Hcl''
                ltac:(unfold ROOT_LEVEL, MODULE_LEVEL in *; lia) Hwf Hquiet w)
      as (r2 & w2 & Hrun2 & Hrec2 & Hslots).
    assert (concurrent = (None, r2, w2)) as Hconcurrent.
    { unfold concurrent. by rewrite run_concurrent_branch. }
    rewrite Hsequential, Hconcurrent. cbn. split; [done|]. split; [done|]. split.
    + eapply same_outcome_of_records; [..|exact Hrec1|exact Hrec2]; done.
    + intros Hbelow _. by apply Hslots.
Qed.

(** * More of the module *)

Set Warnings "-clear-no-such-hyp".

(** ** Grouping and [convert] *)

(** *** Dicts in insertion order *)

Lemma upsert_elem {K V : Type} `{EqDecision K} (k : K) (init : V) (f : V → V)
    (d : list (K * V)) k' v' :
  NoDup d.*1 →
  (k', v') ∈ upsert k init f d
  ↔ (k' ≠ k ∧ (k', v') ∈ d)
    ∨ (k' = k ∧ ((∃ v, (k, v) ∈ d ∧ v' = f v) ∨ ((k ∉ d.*1) ∧ v' = f init))).
Proof.
  induction d as [|[k0 v0] d IH]; cbn [upsert fmap list_fmap fst]; intros Hnodup.
  - rewrite list_elem_of_singleton. pose proof (not_elem_of_nil k).
    pose proof (not_elem_of_nil (k', v')). pose proof (λ v : V, not_elem_of_nil (k, v)).
    naive_solver.
  - apply NoDup_cons in Hnodup as [Hk0 Hnodup]. specialize (IH Hnodup).
    assert (∀ v, (k0, v) ∈ d → False) as Hfresh.
    { intros v Hin. apply Hk0. apply list_elem_of_fmap. by exists (k0, v). }
    assert (∀ v, (k, v) ∈ d → k ∈ d.*1) as Hkey.
    { intros v Hin. apply list_elem_of_fmap. by exists (k, v). }
    destruct (decide (k0 = k)) as [->|Hne].
    + rewrite !elem_of_cons. setoid_rewrite elem_of_cons. naive_solver.
    + rewrite !elem_of_cons, IH. setoid_rewrite elem_of_cons. naive_solver.
Qed.

Lemma upsert_keys {K V : Type} `{EqDecision K} (k : K) (init : V) (f : V → V)
    (d : list (K * V)) :
  (upsert k init f d).*1 = if decide (k ∈ d.*1) then d.*1 else d.*1 ++ [k].
Proof.
  induction d as [|[k0 v0] d IH]; cbn [upsert fmap list_fmap fst].
  - rewrite decide_False by apply not_elem_of_nil. done.
  - destruct (decide (k0 = k)) as [->|Hne].
    + rewrite decide_True by (by left). done.
    + cbn [fmap list_fmap fst]. rewrite IH.
      destruct (decide (k ∈ d.*1)) as [Hin|Hnotin].
      * rewrite decide_True by (by right). done.
      * rewrite decide_False; [done|]. by intros [->|?]%elem_of_cons.
Qed.

Lemma upsert_NoDup {K V : Type} `{EqDecision K} (k : K) (init : V) (f : V → V)
    (d : list (K * V)) :
  NoDup d.*1 → NoDup (upsert k init f d).*1.
Proof.
  intros Hnodup. rewrite upsert_keys. destruct (decide (k ∈ d.*1)); [done|].
  apply NoDup_app. split; [done|]. split; [|apply NoDup_singleton].
  by intros x Hx ->%list_elem_of_singleton.
Qed.

Lemma upsert_not_nil {K V : Type} `{EqDecision K} (k : K) (init : V) (f : V → V)
    (d : list (K * V)) :
  upsert k init f d ≠ [].
Proof. destruct d as [|[k0 v0] d]; cbn; [done|]. by destruct (decide (k0 = k)). Qed.

(** What the entries hold, as one list, after an update that adds [xs]
    under the key. *)
Lemma upsert_flat_map {K V A : Type} `{EqDecision K} (h : K * V → list A)
    (k : K) (init : V) (f : V → V) (d : list (K * V)) (xs : list A) :
  (∀ v, h (k, f v) ≡ₚ h (k, v) ++ xs) →
  h (k, init) = [] →
  flat_map h (upsert k init f d) ≡ₚ flat_map h d ++ xs.
Proof.
  intros Hf Hinit. induction d as [|[k0 v0] d IH]; cbn [upsert flat_map].
  - by rewrite app_nil_r, Hf, Hinit.
  - destruct (decide (k0 = k)) as [->|Hne]; cbn [flat_map].
    + rewrite Hf, <- !app_assoc. f_equiv. apply Permutation_app_comm.
    + by rewrite IH, app_assoc.
Qed.

(** *** The dict [convert] fills *)

(** Grouping a tree is grouping its cases one after the other. *)
Lemma _group_test_cases_cases test : ∀ dic,
  _group_test_cases test dic
  = fold_left (fun dic c => _group_test_cases (Case c) dic) (cases_of test) dic.
Proof.
  induction test as [c|tests IH] using Test_forall_ind; intros dic; [done|].
  cbn [_group_test_cases cases_of]. revert dic.
  induction IH as [|t tests Ht _ IHtests]; intros dic; [done|].
  cbn [fold_left flat_map]. by rewrite fold_left_app, Ht, IHtests.
Qed.

Lemma same_value {K V : Type} (d : list (K * V)) k v1 v2 :
  NoDup d.*1 → (k, v1) ∈ d → (k, v2) ∈ d → v1 = v2.
Proof.
  induction d as [|[k' v'] d IH]; intros Hnodup H1 H2; [by apply elem_of_nil in H1|].
  apply NoDup_cons in Hnodup as [Hfresh Hnodup].
  apply elem_of_cons in H1 as [H1|H1]; apply elem_of_cons in H2 as [H2|H2].
  - congruence.
  - injection H1 as -> ->. destruct Hfresh. apply list_elem_of_fmap. by exists (k', v2).
  - injection H2 as -> ->. destruct Hfresh. apply list_elem_of_fmap. by exists (k', v1).
  - by apply IH.
Qed.

Lemma key_elem {K V : Type} (d : list (K * V)) k v : (k, v) ∈ d → k ∈ d.*1.
Proof. intros Hin. apply list_elem_of_fmap. by exists (k, v). Qed.

Lemma filter_none {A : Type} (P : A → Prop) `{∀ x, Decision (P x)} (l : list A) :
  (∀ x, x ∈ l → ¬ P x) → filter P l = [].
Proof.
  induction l as [|x l IH]; intros Hnone; [done|].
  rewrite filter_cons_False by (apply Hnone; by left).
  apply IH. intros y Hy. apply Hnone. by right.
Qed.

Lemma grouped_nil : grouped [] [].
Proof.
  split; [constructor|]. split.
  - intros m mod_dic Hin. by apply elem_of_nil in Hin.
  - intros c Hin. by apply elem_of_nil in Hin.
Qed.

(** One more case: its entry is created or extended, the others stay. *)
Lemma grouped_snoc cs dic c :
  grouped cs dic → grouped (cs ++ [c]) (_group_test_cases (Case c) dic).
Proof.
  intros (Hkeys & Hentries & Hall). cbn [_group_test_cases].
  set (m := get_module_name c). set (cls := case_class c).
  set (g := upsert cls [] (fun cases : list TestCase => cases ++ [c])).
  assert (∀ m' cls',
             filter (fun c' => get_module_name c' = m' ∧ case_class c' = cls') (cs ++ [c])
             = filter (fun c' => get_module_name c' = m' ∧ case_class c' = cls') cs
               ++ (if decide (m = m' ∧ cls = cls') then [c] else [])) as Hfilter.
  { intros m' cls'. by rewrite filter_app. }
  split; [by apply upsert_NoDup|]. split.
  - intros m' mod_dic' Hin'. apply upsert_elem in Hin'; [|done].
    destruct Hin' as [[Hne Hin]|[-> [(mod_dic & Hin & ->)|[Hnew ->]]]].
    + (* another module: nothing changes *)
      destruct (Hentries m' mod_dic' Hin) as (Hnodup & Hnonempty & Hlists).
      split; [done|]. split; [done|]. intros cls' cases Hcases.
      destruct (Hlists cls' cases Hcases) as [Hne' ->]. split; [done|].
      rewrite Hfilter, decide_False by naive_solver. by rewrite app_nil_r.
    + (* the module of the case, already there *)
      destruct (Hentries m mod_dic Hin) as (Hnodup & Hnonempty & Hlists).
      split; [by apply upsert_NoDup|]. split; [apply upsert_not_nil|].
      intros cls' cases Hcases'. apply upsert_elem in Hcases'; [|done].
      destruct Hcases' as [[Hne Hcases]|[-> [(cases0 & Hcases & ->)|[Hnew ->]]]].
      * destruct (Hlists cls' cases Hcases) as [Hne' ->]. split; [done|].
        rewrite Hfilter, decide_False by naive_solver. by rewrite app_nil_r.
      * destruct (Hlists cls cases0 Hcases) as [Hne' Heq]. split; [by destruct cases0|].
        rewrite Hfilter, decide_True by done. by rewrite <- Heq.
      * split; [done|]. rewrite Hfilter, decide_True by done.
        rewrite filter_none; [done|]. intros c' Hc' [Hm Hcls].
        destruct (Hall c' Hc') as (mod_dic0 & cases0 & Hmod0 & Hcases0).
        rewrite Hm in Hmod0. rewrite Hcls in Hcases0.
        rewrite (same_value dic m mod_dic0 mod_dic Hkeys Hmod0 Hin) in Hcases0.
        apply Hnew. by eapply key_elem.
    + (* the module of the case, new *)
      split; [apply upsert_NoDup; constructor|]. split; [apply upsert_not_nil|].
      intros cls' cases Hsingle. apply list_elem_of_singleton in Hsingle.
      injection Hsingle as -> ->. split; [done|].
      rewrite Hfilter, decide_True by done.
      rewrite filter_none; [done|]. intros c' Hc' [Hm Hcls].
      destruct (Hall c' Hc') as (mod_dic0 & cases0 & Hmod0 & Hcases0).
      rewrite Hm in Hmod0. apply Hnew. by eapply key_elem.
  - intros c' [Hc'| ->%list_elem_of_singleton]%elem_of_app.
    + destruct (Hall c' Hc') as (mod_dic0 & cases0 & Hmod0 & Hcases0).
      destruct (decide (get_module_name c' = m)) as [Hm|Hm].
      * rewrite Hm in *. exists (g mod_dic0).
        destruct (Hentries m mod_dic0 Hmod0) as (Hnodup & _ & _).
        destruct (decide (case_class c' = cls)) as [Hcls|Hcls].
        -- rewrite Hcls in *. exists (cases0 ++ [c]). split.
           ++ apply upsert_elem; [done|]. right. split; [done|]. left. by exists mod_dic0.
           ++ apply upsert_elem; [done|]. right. split; [done|]. left. by exists cases0.
        -- exists cases0. split.
           ++ apply upsert_elem; [done|]. right. split; [done|]. left. by exists mod_dic0.
           ++ apply upsert_elem; [done|]. by left.
      * exists mod_dic0, cases0. split; [|done]. apply upsert_elem; [done|]. by left.
    + fold m cls. destruct (decide (m ∈ dic.*1)) as [Hin|Hnew].
      * apply list_elem_of_fmap in Hin as ([m0 mod_dic0] & Hm0 & Hmod0). cbn in Hm0. subst m0.
        destruct (Hentries m mod_dic0 Hmod0) as (Hnodup & _ & _).
        assert ((m, g mod_dic0) ∈ upsert m [] g dic) as Hmod'.
        { apply upsert_elem; [done|]. right. split; [done|]. left. by exists mod_dic0. }
        destruct (decide (cls ∈ mod_dic0.*1)) as [Hcin|Hcnew].
        -- apply list_elem_of_fmap in Hcin as ([cls0 cases0] & Hc0 & Hcases0).
           cbn in Hc0. subst cls0.
           exists (g mod_dic0), (cases0 ++ [c]). split; [done|].
           apply upsert_elem; [done|]. right. split; [done|]. left. by exists cases0.
        -- exists (g mod_dic0), ([] ++ [c]). split; [done|].
           apply upsert_elem; [done|]. right. split; [done|]. by right.
      * exists (g []), ([] ++ [c]). split.
        -- apply upsert_elem; [done|]. right. split; [done|]. by right.
        -- cbn. by left.
Qed.

(** The dict [convert] works from. *)
Lemma grouping_invariant test :
  grouped (cases_of test) (_group_test_cases test []).
Proof.
  rewrite _group_test_cases_cases.
  induction (cases_of test) as [|c cs IH] using rev_ind; [apply grouped_nil|].
  rewrite fold_left_app. cbn [fold_left]. by apply grouped_snoc.
Qed.

Lemma all_cases_group dic c :
  all_cases (_group_test_cases (Case c) dic) ≡ₚ all_cases dic ++ [c].
Proof.
  unfold all_cases. cbn [_group_test_cases].
  apply upsert_flat_map; [|done]. intros mod_dic. cbn [snd].
  apply (upsert_flat_map snd); [|done]. by intros cases.
Qed.

Lemma all_cases_grouping test : all_cases (_group_test_cases test []) ≡ₚ cases_of test.
Proof.
  rewrite _group_test_cases_cases.
  induction (cases_of test) as [|c cs IH] using rev_ind; [done|].
  rewrite fold_left_app. cbn [fold_left]. by rewrite all_cases_group, IH.
Qed.

(** *** What [convert] builds *)

Lemma cases_of_convert test :
  cases_of (convert test) = all_cases (_group_test_cases test []).
Proof.
  unfold convert, all_cases, values. cbn [cases_of].
  induction (_group_test_cases test []) as [|[m mod_dic] dic IH]; [done|].
  cbn [map flat_map snd]. rewrite IH. f_equal.
  cbn [cases_of]. induction mod_dic as [|[cls cases] mod_dic IHm]; [done|].
  cbn [map flat_map snd]. rewrite IHm. f_equal.
  cbn [cases_of]. induction cases as [|c cases IHc]; [done|].
  cbn [map flat_map cases_of app]. by rewrite IHc.
Qed.

Lemma elem_of_map {A B : Type} (f : A → B) (l : list A) y :
  y ∈ map f l ↔ ∃ x, y = f x ∧ x ∈ l.
Proof.
  rewrite list_elem_of_In, in_map_iff. split.
  - intros (x & <- & Hin). exists x. by rewrite list_elem_of_In.
  - intros (x & -> & Hin). exists x. by rewrite <- list_elem_of_In.
Qed.

Lemma elem_of_values {K V : Type} (d : list (K * V)) v :
  v ∈ values d ↔ ∃ k, (k, v) ∈ d.
Proof.
  unfold values. rewrite elem_of_map. split.
  - intros ([k v'] & -> & Hin). by exists k.
  - intros (k & Hin). by exists (k, v).
Qed.

(** The module suites and the class suites of [convert test], by the
    entries of the dict they are made from. *)
Lemma convert_suites test mod_suite cls_suite :
  mod_suite ∈ tests_of (convert test) →
  cls_suite ∈ tests_of mod_suite →
  ∃ m mod_dic cls cases,
    (m, mod_dic) ∈ _group_test_cases test []
    ∧ (cls, cases) ∈ mod_dic
    ∧ mod_suite = Suite (map (fun cases => Suite (map Case cases)) (values mod_dic))
    ∧ cls_suite = Suite (map Case cases).
Proof.
  unfold convert. cbn [tests_of]. intros Hmod Hcls.
  apply elem_of_map in Hmod as (mod_dic & -> & Hmod).
  apply elem_of_values in Hmod as [m Hmod]. cbn [tests_of] in Hcls.
  apply elem_of_map in Hcls as (cases & -> & Hcls).
  apply elem_of_values in Hcls as [cls Hcls].
  by exists m, mod_dic, cls, cases.
Qed.

Lemma cases_of_map_Case cases : flat_map cases_of (map Case cases) = cases.
Proof. induction cases as [|c cases IH]; [done|]. cbn. by rewrite IH. Qed.

Lemma grouping_of_nothing test :
  cases_of test = [] → _group_test_cases test [] = [].
Proof.
  intros Hnone. pose proof (grouping_invariant test) as (_ & Hentries & _).
  rewrite Hnone in Hentries.
  destruct (_group_test_cases test []) as [|[m mod_dic] dic]; [done|].
  destruct (Hentries m mod_dic) as (_ & Hnonempty & Hlists); [by left|].
  destruct mod_dic as [|[cls cases] mod_dic]; [done|].
  by destruct (Hlists cls cases) as [Hne ->]; [by left|].
Qed.

(** X1.  [convert] neither loses nor duplicates nor invents a test: the
    cases of the suite it returns are the cases of the tree it was given,
    each as often as there, up to the order. *)
Theorem convert_keeps_cases test : cases_of (convert test) ≡ₚ cases_of test.
Proof. rewrite cases_of_convert. apply all_cases_grouping. Qed.

(** X2.  Whatever the shape of the tree it was given, as long as the tree
    holds a case, [convert] returns a well-formed suite: module suites
    under the root, class suites under them, cases under those, and no
    suite empty. *)
Theorem convert_is_well_formed test :
  cases_of test ≠ [] → well_formed (tests_of (convert test)) = true.
Proof.
  intros Hcases. pose proof (grouping_invariant test) as (_ & Hentries & Hall).
  unfold well_formed, convert. cbn [tests_of well_formed_at].
  apply andb_true_iff. split; [apply andb_true_iff; split; [done|]|].
  - apply negb_true_iff, bool_decide_eq_false. intros Hnil.
    destruct (cases_of test) as [|c cs]; [done|].
    destruct (Hall c) as (mod_dic & cases & Hmod & _); [by left|].
    destruct (_group_test_cases test []); [by apply elem_of_nil in Hmod|done].
  - apply forallb_forall. intros mod_suite Hmod. apply list_elem_of_In in Hmod.
    apply elem_of_map in Hmod as (mod_dic & -> & Hmod).
    apply elem_of_values in Hmod as [m Hmod].
    destruct (Hentries m mod_dic Hmod) as (_ & Hnonempty & Hlists).
    cbn [well_formed_at]. apply andb_true_iff. split; [apply andb_true_iff; split; [done|]|].
    + apply negb_true_iff, bool_decide_eq_false. by destruct mod_dic.
    + apply forallb_forall. intros cls_suite Hcls. apply list_elem_of_In in Hcls.
      apply elem_of_map in Hcls as (cases & -> & Hcls).
      apply elem_of_values in Hcls as [cls Hcls].
      destruct (Hlists cls cases Hcls) as [Hne _].
      cbn [well_formed_at]. apply andb_true_iff. split; [apply andb_true_iff; split; [done|]|].
      * apply negb_true_iff, bool_decide_eq_false. by destruct cases.
      * apply forallb_forall. intros t Ht. apply list_elem_of_In in Ht.
        by apply elem_of_map in Ht as (c & -> & _).
Qed.

(** X3.  A class suite of [convert test] is one group in full: it holds
    the cases of the tree that have the module name and the class of one
    of them, all of them, each once per occurrence, in the order of the
    tree. *)
Theorem convert_class_suite_is_a_group test mod_suite cls_suite :
  mod_suite ∈ tests_of (convert test) →
  cls_suite ∈ tests_of mod_suite →
  ∃ c0, c0 ∈ cases_of test
        ∧ cls_suite = Suite (map Case (filter (same_group c0) (cases_of test))).
Proof.
  intros Hmod Hcls.
  destruct (convert_suites test mod_suite cls_suite Hmod Hcls)
    as (m & mod_dic & cls & cases & Hm & Hc & _ & ->).
  pose proof (grouping_invariant test) as (_ & Hentries & _).
  destruct (Hentries m mod_dic Hm) as (_ & _ & Hlists).
  destruct (Hlists cls cases Hc) as [Hne Heq].
  destruct cases as [|c0 cases]; [done|]. exists c0.
  assert (c0 ∈ filter (fun c => get_module_name c = m ∧ case_class c = cls) (cases_of test))
    as Hc0 by (rewrite <- Heq; by left).
  apply list_elem_of_filter in Hc0 as [[Hm0 Hcls0] Hin]. split; [done|].
  rewrite Heq. do 2 f_equal. apply list_filter_iff. intros c. unfold same_group.
  by rewrite Hm0, Hcls0.
Qed.

(** X4.  No group is split: two class suites of [convert test] never hold
    cases of one module name and one class. *)
Theorem convert_groups_are_distinct test mod_suite cls_suite mod_suite' cls_suite' c c' :
  mod_suite ∈ tests_of (convert test) →
  cls_suite ∈ tests_of mod_suite →
  mod_suite' ∈ tests_of (convert test) →
  cls_suite' ∈ tests_of mod_suite' →
  c ∈ cases_of cls_suite →
  c' ∈ cases_of cls_suite' →
  same_group c c' →
  mod_suite' = mod_suite ∧ cls_suite' = cls_suite.
Proof.
  intros Hmod Hcls Hmod' Hcls' Hc Hc' [Hsame_m Hsame_cls].
  destruct (convert_suites test mod_suite cls_suite Hmod Hcls)
    as (m & mod_dic & cls & cases & Hm & Hcases & -> & ->).
  destruct (convert_suites test mod_suite' cls_suite' Hmod' Hcls')
    as (m' & mod_dic' & cls' & cases' & Hm' & Hcases' & -> & ->).
  pose proof (grouping_invariant test) as (Hkeys & Hentries & _).
  destruct (Hentries m mod_dic Hm) as (Hnodup & _ & Hlists).
  destruct (Hentries m' mod_dic' Hm') as (_ & _ & Hlists').
  destruct (Hlists cls cases Hcases) as [_ Heq].
  destruct (Hlists' cls' cases' Hcases') as [_ Heq'].
  cbn [cases_of] in Hc, Hc'. rewrite cases_of_map_Case in Hc, Hc'.
  rewrite Heq in Hc. rewrite Heq' in Hc'.
  apply list_elem_of_filter in Hc as [[<- <-] _].
  apply list_elem_of_filter in Hc' as [[<- <-] _].
  rewrite Hsame_m in Hm'. rewrite Hsame_cls in Hcases'.
  assert (mod_dic' = mod_dic) as -> by by eapply same_value.
  assert (cases' = cases) as -> by by eapply same_value.
  done.
Qed.

(** X5.  Given a tree without any case, [convert] returns the empty
    suite, and the concurrent branch of [run] refuses it: the run raises
    [RuntimeError] before anything is done. *)
Theorem convert_of_nothing_is_rejected test concurrency_level max_workers result w :
  cases_of test = [] →
  MODULE_LEVEL ≤ concurrency_level ≤ METHOD_LEVEL →
  1 < max_workers →
  convert test = Suite []
  ∧ run (tests_of (convert test)) false concurrency_level max_workers result w
    = (Some (RuntimeError "Test suite is not well-formed."), result, w).
Proof.
  intros Hnone Hrange Hworkers.
  assert (convert test = Suite []) as Hconvert.
  { unfold convert. by rewrite (grouping_of_nothing test Hnone). }
  split; [done|]. rewrite Hconvert. cbn [tests_of]. unfold run.
  unfold ROOT_LEVEL, MODULE_LEVEL, METHOD_LEVEL in *.
  assert ((concurrency_level <? 0) || (concurrency_level >? 3) = false)
    as -> by (apply orb_false_iff; lia).
  assert (false || (concurrency_level =? 0) || (max_workers <=? 1) = false) as ->; [|done].
  apply orb_false_iff. split; [cbn|]; lia.
Qed.

(** X6.  In a suite [convert] returned, the class [_get_current_class]
    reads off the first case of a class suite is the class of every case
    of that suite: the class fixtures run for a class suite are those of
    all its cases. *)
Theorem convert_class_lookup_speaks_for_all test mod_suite cls_suite c :
  mod_suite ∈ tests_of (convert test) →
  cls_suite ∈ tests_of mod_suite →
  c ∈ cases_of cls_suite →
  _get_current_class cls_suite = Ok (Some (case_class c)).
Proof.
  intros Hmod Hcls Hc.
  destruct (convert_suites test mod_suite cls_suite Hmod Hcls)
    as (m & mod_dic & cls & cases & Hm & Hcases & _ & ->).
  pose proof (grouping_invariant test) as (_ & Hentries & _).
  destruct (Hentries m mod_dic Hm) as (_ & _ & Hlists).
  destruct (Hlists cls cases Hcases) as [Hne Heq].
  cbn [cases_of] in Hc. rewrite cases_of_map_Case in Hc.
  assert (∀ c', c' ∈ cases → case_class c' = cls) as Hclass.
  { intros c' Hc'. rewrite Heq in Hc'. by apply list_elem_of_filter in Hc' as [[_ ?] _]. }
  destruct cases as [|c0 cases]; [done|]. cbn [map _get_current_class class_of].
  rewrite (Hclass c0) by by left. by rewrite (Hclass c Hc).
Qed.

(** X7.  Where the module name [convert] groups by is the module of the
    class of the case, the module [_get_current_module] reads off the
    first case of a module suite is the module of every case below that
    suite: the module fixtures run for a module suite are those of all
    its cases. *)
Theorem convert_module_lookup_speaks_for_all test mod_suite c :
  (∀ c, c ∈ cases_of test → get_module_name c = cls_module (case_class c)) →
  mod_suite ∈ tests_of (convert test) →
  c ∈ cases_of mod_suite →
  _get_current_module mod_suite = Ok (Some (cls_module (case_class c))).
Proof.
  intros Hname Hmod Hc. unfold convert in Hmod. cbn [tests_of] in Hmod.
  apply elem_of_map in Hmod as (mod_dic & -> & Hmod).
  apply elem_of_values in Hmod as [m Hm].
  pose proof (grouping_invariant test) as (_ & Hentries & _).
  destruct (Hentries m mod_dic Hm) as (_ & Hnonempty & Hlists).
  assert (∀ cls cases c', (cls, cases) ∈ mod_dic → c' ∈ cases →
                          cls_module (case_class c') = m) as Hmodule.
  { intros cls cases c' Hcases Hc'. destruct (Hlists cls cases Hcases) as [_ Heq].
    rewrite Heq in Hc'. apply list_elem_of_filter in Hc' as [[<- _] Hin].
    symmetry. by apply Hname. }
  assert (cls_module (case_class c) = m) as ->.
  { cbn [cases_of] in Hc. apply list_elem_of_In, in_flat_map in Hc as (cls_suite & Hcls & Hc).
    apply list_elem_of_In, elem_of_map in Hcls as (cases & -> & Hcases).
    apply elem_of_values in Hcases as [cls Hcases].
    cbn [cases_of] in Hc. rewrite cases_of_map_Case in Hc.
    apply list_elem_of_In in Hc. by eapply Hmodule. }
  destruct mod_dic as [|[cls1 cases1] mod_dic]; [done|].
  destruct (Hlists cls1 cases1) as [Hne1 _]; [by left|].
  destruct cases1 as [|c1 cases1]; [done|].
  cbn [values map snd _get_current_module class_of].
  rewrite (Hmodule cls1 (c1 :: cases1) c1); [done|by left|by left].
Qed.

(** *** Grouping what is grouped already *)

Lemma upsert_last {K V : Type} `{EqDecision K} (k : K) (init : V) (f : V → V)
    (d : list (K * V)) v :
  k ∉ d.*1 → upsert k init f (d ++ [(k, v)]) = d ++ [(k, f v)].
Proof.
  induction d as [|[k0 v0] d IH]; cbn [upsert app fmap list_fmap fst]; intros Hfresh.
  - by rewrite decide_True.
  - apply not_elem_of_cons in Hfresh as [Hne Hfresh].
    rewrite decide_False by done. by rewrite IH.
Qed.

Lemma upsert_new {K V : Type} `{EqDecision K} (k : K) (init : V) (f : V → V)
    (d : list (K * V)) :
  k ∉ d.*1 → upsert k init f d = d ++ [(k, f init)].
Proof.
  induction d as [|[k0 v0] d IH]; cbn [upsert app fmap list_fmap fst]; intros Hfresh; [done|].
  apply not_elem_of_cons in Hfresh as [Hne Hfresh].
  rewrite decide_False by done. by rewrite IH.
Qed.

Lemma regroup_cases (d1 : Groups) m md1 cls cases : ∀ l,
  m ∉ d1.*1 →
  cls ∉ md1.*1 →
  (∀ c, c ∈ cases → get_module_name c = m ∧ case_class c = cls) →
  fold_left (fun dic c => _group_test_cases (Case c) dic) cases
            (d1 ++ [(m, md1 ++ [(cls, l)])])
  = d1 ++ [(m, md1 ++ [(cls, l ++ cases)])].
Proof.
  induction cases as [|c cases IH]; intros l Hm Hcls Hcases; cbn [fold_left].
  - by rewrite app_nil_r.
  - destruct (Hcases c) as [Hmc Hclsc]; [by left|].
    cbn [_group_test_cases]. rewrite Hmc, Hclsc.
    rewrite upsert_last by done. rewrite upsert_last by done.
    rewrite IH; [|done|done|intros c' Hc'; apply Hcases; by right].
    by rewrite <- app_assoc.
Qed.

Lemma regroup_class (d1 : Groups) m md1 cls cases :
  m ∉ d1.*1 →
  cls ∉ md1.*1 →
  cases ≠ [] →
  (∀ c, c ∈ cases → get_module_name c = m ∧ case_class c = cls) →
  fold_left (fun dic c => _group_test_cases (Case c) dic) cases (d1 ++ [(m, md1)])
  = d1 ++ [(m, md1 ++ [(cls, cases)])].
Proof.
  intros Hm Hcls Hne Hcases. destruct cases as [|c0 cases]; [done|].
  destruct (Hcases c0) as [Hmc Hclsc]; [by left|].
  cbn [fold_left _group_test_cases]. rewrite Hmc, Hclsc.
  rewrite upsert_last by done. rewrite upsert_new by done. cbn [app].
  rewrite regroup_cases; [done|done|done|]. intros c' Hc'. apply Hcases. by right.
Qed.

Lemma regroup_classes (d1 : Groups) m md2 : ∀ md1,
  m ∉ d1.*1 →
  NoDup (md1 ++ md2).*1 →
  (∀ cls cases, (cls, cases) ∈ md2 →
     cases ≠ [] ∧ ∀ c, c ∈ cases → get_module_name c = m ∧ case_class c = cls) →
  fold_left (fun dic c => _group_test_cases (Case c) dic) (flat_map snd md2)
            (d1 ++ [(m, md1)])
  = d1 ++ [(m, md1 ++ md2)].
Proof.
  induction md2 as [|[cls cases] md2 IH]; intros md1 Hm Hnodup Hentries; cbn [flat_map snd].
  - by rewrite app_nil_r.
  - destruct (Hentries cls cases) as [Hne Hcases]; [by left|].
    assert (cls ∉ md1.*1) as Hcls.
    { rewrite fmap_app in Hnodup. apply NoDup_app in Hnodup as (_ & Hdisjoint & _).
      intros Hin. apply (Hdisjoint cls Hin). by left. }
    rewrite fold_left_app, (regroup_class d1 m md1 cls cases) by done.
    rewrite IH; [by rewrite <- app_assoc|done|by rewrite <- app_assoc|].
    intros cls' cases' Hin. apply Hentries. by right.
Qed.

Lemma regroup_module (d1 : Groups) m mod_dic :
  m ∉ d1.*1 →
  NoDup mod_dic.*1 →
  mod_dic ≠ [] →
  (∀ cls cases, (cls, cases) ∈ mod_dic →
     cases ≠ [] ∧ ∀ c, c ∈ cases → get_module_name c = m ∧ case_class c = cls) →
  fold_left (fun dic c => _group_test_cases (Case c) dic) (flat_map snd mod_dic) d1
  = d1 ++ [(m, mod_dic)].
Proof.
  intros Hm Hnodup Hnonempty Hentries.
  destruct mod_dic as [|[cls cases] md2]; [done|].
  destruct (Hentries cls cases) as [Hne Hcases]; [by left|].
  destruct cases as [|c0 cases]; [done|].
  destruct (Hcases c0) as [Hmc Hclsc]; [by left|].
  cbn [flat_map snd app fold_left].
  replace (_group_test_cases (Case c0) d1) with (d1 ++ [(m, [(cls, [c0])])])
    by (cbn [_group_test_cases]; rewrite Hmc, Hclsc; by rewrite upsert_new).
  rewrite fold_left_app.
  pose proof (regroup_cases d1 m [] cls cases [c0]) as Hrest. cbn [app] in Hrest.
  rewrite Hrest; [|done|apply not_elem_of_nil|intros c' Hc'; apply Hcases; by right].
  rewrite (regroup_classes d1 m md2 [(cls, c0 :: cases)]); [done|done|done|].
  intros cls' cases' Hin. apply Hentries. by right.
Qed.

Lemma regroup (d2 : Groups) : ∀ d1 : Groups,
  NoDup (d1 ++ d2).*1 →
  (∀ m mod_dic, (m, mod_dic) ∈ d2 →
     NoDup mod_dic.*1 ∧ mod_dic ≠ []
     ∧ ∀ cls cases, (cls, cases) ∈ mod_dic →
         cases ≠ [] ∧ ∀ c, c ∈ cases → get_module_name c = m ∧ case_class c = cls) →
  fold_left (fun dic c => _group_test_cases (Case c) dic) (all_cases d2) d1 = d1 ++ d2.
Proof.
  unfold all_cases.
  induction d2 as [|[m mod_dic] d2 IH]; intros d1 Hnodup Hentries; cbn [flat_map snd].
  - by rewrite app_nil_r.
  - destruct (Hentries m mod_dic) as (Hkeys & Hnonempty & Hlists); [by left|].
    assert (m ∉ d1.*1) as Hm.
    { rewrite fmap_app in Hnodup. apply NoDup_app in Hnodup as (_ & Hdisjoint & _).
      intros Hin. apply (Hdisjoint m Hin). by left. }
    rewrite fold_left_app, (regroup_module d1 m mod_dic) by done.
    rewrite IH; [by rewrite <- app_assoc|by rewrite <- app_assoc|].
    intros m' mod_dic' Hin. apply Hentries. by right.
Qed.

(** X8.  [convert] is idempotent: a suite it returned is grouped already,
    and converting it again returns the same suite, module suites, class
    suites and cases in the same order. *)
Theorem convert_convert test : convert (convert test) = convert test.
Proof.
  assert (_group_test_cases (convert test) [] = _group_test_cases test []) as Hsame;
    [|unfold convert at 1; by rewrite Hsame].
  rewrite _group_test_cases_cases, cases_of_convert.
  pose proof (grouping_invariant test) as (Hkeys & Hentries & _).
  rewrite regroup; [done|done|].
  intros m mod_dic Hin. destruct (Hentries m mod_dic Hin) as (Hnodup & Hnonempty & Hlists).
  split; [done|]. split; [done|]. intros cls cases Hcases.
  destruct (Hlists cls cases Hcases) as [Hne Heq]. split; [done|].
  intros c Hc. rewrite Heq in Hc. by apply list_elem_of_filter in Hc as [? _].
Qed.

(** ** Invariants of a run *)

(** *** A property of the state carried through the scheduler *)

Section Preserves.

Variable P : World → Prop.

Lemma preserves_done : preserves P done_.
Proof. by intros result w Hw. Qed.

Lemma preserves_and_then a b : preserves P a → preserves P b → preserves P (a >> b).
Proof.
  intros Ha Hb result w Hw. unfold and_then.
  specialize (Ha result w Hw). destruct (a result w) as [[[e|] r'] w']; cbn in *; [done|].
  by apply Hb.
Qed.

Lemma preserves_stays_in_future a : preserves P a → preserves P (stays_in_future a).
Proof.
  intros Ha result w Hw. unfold stays_in_future.
  specialize (Ha result w Hw). by destruct (a result w) as [[e r'] w'].
Qed.

Lemma preserves_on_child i a : preserves P a → preserves P (on_child i a).
Proof.
  intros Ha result w Hw. unfold on_child.
  destruct (children result !! i) as [r|]; [|done].
  specialize (Ha r w Hw). by destruct (a r w) as [[e r'] w'].
Qed.

Lemma preserves_for_each f tests :
  Forall (fun t => preserves P (f t)) tests → preserves P (for_each f tests).
Proof.
  induction 1 as [|t tests Ht _ IH]; cbn; [apply preserves_done|].
  by apply preserves_and_then.
Qed.

Lemma preserves_batch unit_ order :
  (∀ i, preserves P (unit_ i)) → preserves P (batch unit_ order).
Proof.
  intros Hunit. induction order as [|i order IH]; cbn; [apply preserves_done|].
  by apply preserves_and_then.
Qed.

Lemma preserves_unit_of us f i :
  (∀ u, u ∈ us → preserves P (f u)) → preserves P (unit_of us f i).
Proof.
  intros Hf. unfold unit_of. destruct (us !! i) as [u|] eqn:Hu; [|apply preserves_done].
  apply Hf. by eapply list_elem_of_lookup_2.
Qed.

Lemma preserves_fan_out test setup teardown units :
  (∀ t, preserves P (setup t)) →
  (∀ t, preserves P (teardown t)) →
  (∀ us, units = Some us → Forall (fun u => preserves P u.2) us) →
  preserves P (fan_out test setup teardown units).
Proof.
  intros Hsetup Hteardown Hunits result w Hw. unfold fan_out.
  destruct units as [us|]; [|done].
  specialize (Hunits us eq_refl).
  refine (preserves_and_then _ _ _ (preserves_and_then _ _ _ _) result w Hw);
    apply preserves_batch; intros i; apply preserves_on_child.
  - apply preserves_unit_of. intros u _. apply Hsetup.
  - apply preserves_unit_of. intros u Hu. by eapply Forall_forall in Hunits.
  - apply preserves_stays_in_future, preserves_unit_of. intros u _. apply Hteardown.
Qed.

Lemma preserves_fan_out_cases test units :
  (∀ us, units = Some us → Forall (fun u => preserves P u.2) us) →
  preserves P (fan_out_cases test units).
Proof.
  intros Hunits result w Hw. unfold fan_out_cases.
  destruct units as [us|]; [|done].
  specialize (Hunits us eq_refl).
  refine (preserves_batch _ _ _ result w Hw). intros i.
  apply preserves_on_child, preserves_stays_in_future, preserves_unit_of.
  intros u Hu. by eapply Forall_forall in Hunits.
Qed.

Hypothesis fixtures_preserve : ∀ f test, preserves P (fixture_proc f test).
Hypothesis cases_preserve : ∀ c, preserves P (TestCase_run c).

Lemma preserves_seq_run test : preserves P (_seq_run test).
Proof.
  induction test as [c|tests IH] using Test_forall_ind; [apply cases_preserve|].
  cbn [_seq_run]. repeat case_match; try apply preserves_done;
    repeat apply preserves_and_then;
    try (by apply preserves_for_each).
  - apply (fixtures_preserve SetupModule).
  - apply (fixtures_preserve TeardownModule).
  - apply (fixtures_preserve SetupClass).
  - apply (fixtures_preserve TeardownClass).
Qed.

Lemma preserves_run test concurrency_level : ∀ current_level,
  preserves P (_run test current_level concurrency_level).
Proof.
  induction test as [c|tests IH] using Test_forall_ind; intros current_level; cbn [_run].
  - destruct (current_level =? concurrency_level); [apply cases_preserve|].
    destruct (current_level <? concurrency_level); [|apply preserves_done].
    apply preserves_and_then; [|by intros result w Hw].
    repeat case_match; try apply preserves_done;
      (apply preserves_fan_out || apply preserves_fan_out_cases); try done;
      first [ apply (fixtures_preserve SetupModule)
            | apply (fixtures_preserve TeardownModule)
            | apply (fixtures_preserve SetupClass)
            | apply (fixtures_preserve TeardownClass) ].
  - destruct (current_level =? concurrency_level); [apply (preserves_seq_run (Suite tests))|].
    destruct (current_level <? concurrency_level); [|apply preserves_done].
    apply preserves_and_then; [|by intros result w Hw].
    assert (∀ us,
               Some (map (fun t => (t, _run t (current_level + 1) concurrency_level)) tests)
               = Some us → Forall (fun u => preserves P u.2) us) as Hunits.
    { intros us [= <-]. apply Forall_map. eapply Forall_impl; [exact IH|].
      intros t Ht. apply Ht. }
    repeat case_match; try apply preserves_done;
      (apply preserves_fan_out || apply preserves_fan_out_cases); try done;
      first [ apply (fixtures_preserve SetupModule)
            | apply (fixtures_preserve TeardownModule)
            | apply (fixtures_preserve SetupClass)
            | apply (fixtures_preserve TeardownClass) ].
Qed.

End Preserves.

(** *** A property of the state carried through [unittest.TestSuite.run] *)

(** The property may depend on how many output redirections are open:
    [I d] is the property at depth [d]. *)
Section Library.

Variable I : Z → World → Prop.

Hypothesis I_hook : ∀ d name w, I d w → I d (log (CallHook name) w).
Hypothesis I_body : ∀ d id w, I d w → I d (log (RunBody id) w).
Hypothesis I_setup : ∀ d w, I d w → I (d + 1) (log SetupStdout w).
Hypothesis I_restore : ∀ d w, I (d + 1) w → I d (log RestoreStdout w).
Hypothesis I_mark : ∀ d c b w, I d w → I d (set_classSetupFailed c b w).

Lemma library_hook_keeps hook name method parent on_fail mark :
  (∀ d w, I d w → I d (mark w)) →
  ∀ d, preserves (I d) (library_hook hook name method parent on_fail mark).
Proof.
  intros Hmark d result w Hw. unfold library_hook.
  destruct hook as [[|e|e]|]; cbn; [by apply I_hook| |by apply I_hook|done].
  destruct (is_DebugResult result); cbn; [by apply I_hook|]. by apply Hmark, I_hook.
Qed.

Lemma with_stdout_keeps a :
  (∀ d, preserves (I d) a) → ∀ d, preserves (I d) (with_stdout a).
Proof.
  intros Ha d result w Hw. unfold with_stdout.
  specialize (Ha (d + 1) result (log SetupStdout w) (I_setup d w Hw)).
  destruct (a result (log SetupStdout w)) as [[e r'] w']. by apply I_restore.
Qed.

Lemma _handleModuleTearDown_keeps d : preserves (I d) _handleModuleTearDown.
Proof.
  intros result w Hw. unfold _handleModuleTearDown.
  destruct (_get_previous_module result) as [m|]; [|done].
  destruct (_moduleSetUpFailed result); [done|].
  destruct (sys_modules !! m) as [module|]; [|done].
  by apply with_stdout_keeps; [apply library_hook_keeps|].
Qed.

Lemma _handleModuleFixture_keeps c d : preserves (I d) (_handleModuleFixture c).
Proof.
  intros result w Hw. unfold _handleModuleFixture. destruct (bool_decide _); [done|].
  apply preserves_and_then; [apply _handleModuleTearDown_keeps| |done].
  intros result' w' Hw'.
  destruct (sys_modules !! cls_module c) as [module|]; [|done].
  destruct (setUpModule module) as [hook|]; [|done].
  by apply with_stdout_keeps; [apply library_hook_keeps|].
Qed.

Lemma _handleClassSetUp_keeps c d : preserves (I d) (_handleClassSetUp c).
Proof.
  intros result w Hw. unfold _handleClassSetUp. destruct (bool_decide _); [done|].
  destruct (_moduleSetUpFailed result); [done|].
  destruct (unittest_skip c); [done|].
  destruct (setUpClass c) as [hook|]; [|by apply I_mark].
  apply with_stdout_keeps; [apply library_hook_keeps|by apply I_mark].
  intros d' w' Hw'. by apply I_mark.
Qed.

Lemma _tearDownPreviousClass_keeps c d : preserves (I d) (_tearDownPreviousClass c).
Proof.
  intros result w Hw. unfold _tearDownPreviousClass.
  destruct (_previousTestClass result) as [previousClass|]; [|done].
  do 2 (destruct (bool_decide _); [done|]).
  destruct (_moduleSetUpFailed result); [done|].
  destruct (unittest_skip previousClass); [done|].
  by apply with_stdout_keeps; [apply library_hook_keeps|].
Qed.

Lemma unittest_loop_keeps call tests :
  Forall (fun t => ∀ d, preserves (I d) (call t)) tests →
  ∀ d, preserves (I d) (unittest_loop call tests).
Proof.
  induction 1 as [|t tests Ht _ IH]; intros d; cbn [unittest_loop]; [apply preserves_done|].
  intros result w Hw. destruct (shouldStop result); [done|].
  apply preserves_and_then; [|apply IH|done].
  destruct (_is_suite t); [apply Ht|].
  repeat apply preserves_and_then.
  - apply _tearDownPreviousClass_keeps.
  - apply _handleModuleFixture_keeps.
  - apply _handleClassSetUp_keeps.
  - intros result' w' Hw'. destruct (_ || _); [done|]. by apply Ht.
Qed.

Lemma unittest_run_keeps call tests :
  Forall (fun t => ∀ d, preserves (I d) (call t)) tests →
  ∀ d, preserves (I d) (unittest_run call tests).
Proof.
  intros Hcall d result w Hw. unfold unittest_run.
  apply preserves_and_then; [by apply unittest_loop_keeps| |done].
  destruct (negb (_testRunEntered result)); [|apply preserves_done].
  repeat apply preserves_and_then.
  - apply _tearDownPreviousClass_keeps.
  - apply _handleModuleTearDown_keeps.
  - by intros result' w' Hw'.
Qed.

Lemma call_test_keeps test : ∀ debug d, preserves (I d) (call_test debug test).
Proof.
  induction test as [c|tests IH] using Test_forall_ind; intros debug d.
  - intros result w Hw. destruct debug; cbn [call_test].
    + unfold TestCase_debug. destruct (unittest_skip _); [done|].
      destruct (case_outcome c); by apply I_body.
    + unfold TestCase_run. destruct (unittest_skip _); [done|].
      destruct (case_outcome c); by apply I_body.
  - cbn [call_test]. destruct debug.
    + intros result w Hw. unfold on_DebugResult.
      pose proof (unittest_run_keeps (call_test true) tests) as Hrun.
      specialize (Hrun (Forall_impl _ _ _ IH (fun t Ht => Ht true)) d _DebugResult w Hw).
      by destruct (unittest_run _ _ _ _) as [[e r'] w'].
    + apply unittest_run_keeps.
      eapply Forall_impl; [exact IH|]. intros t Ht. apply Ht.
Qed.

Lemma super_run_keeps tests debug d : preserves (I d) (super_run tests debug).
Proof.
  apply unittest_run_keeps, Forall_forall.
  intros t _. apply call_test_keeps.
Qed.

End Library.

(** *** What a fixture procedure does to the state *)

Lemma stdout_depth_app tr1 tr2 :
  stdout_depth (tr1 ++ tr2) = stdout_depth tr1 + stdout_depth tr2.
Proof.
  induction tr1 as [|ev tr1 IH]; [done|]. destruct ev; cbn; lia.
Qed.

Lemma call_fixture_effect hook name err mark result w :
  (∀ w0, _successful_fixtures (mark w0) = _successful_fixtures w0
         ∧ _failed_fixtures (mark w0) = _failed_fixtures w0
         ∧ trace (mark w0) = trace w0) →
  ∃ exn result' w',
    call_fixture hook name err mark result w = (exn, result', w')
    ∧ trace w' = trace w ++ [SetupStdout; CallHook name; RestoreStdout]
    ∧ ((hook = Returns
        ∧ exn = None
        ∧ result' = result
        ∧ _successful_fixtures w' = {[name]} ∪ _successful_fixtures w
        ∧ _failed_fixtures w' = _failed_fixtures w)
       ∨ (∃ e, hook = Raises e
               ∧ exn = None
               ∧ result' = _addClassOrModuleLevelException result e err
               ∧ _successful_fixtures w' = _successful_fixtures w
               ∧ _failed_fixtures w' = {[name]} ∪ _failed_fixtures w)
       ∨ (∃ e, hook = Exits e
               ∧ exn = Some (Raised e)
               ∧ result' = result
               ∧ _successful_fixtures w' = _successful_fixtures w
               ∧ _failed_fixtures w' = _failed_fixtures w)).
Proof.
  intros Hmark. destruct hook as [|e|e]; cbn [call_fixture]; do 3 eexists;
    (split; [done|]).
  - cbn. rewrite <- !app_assoc. split; [done|]. by left.
  - destruct (Hmark (add_failed name (log (CallHook name) (log SetupStdout w))))
      as (Hs & Hf & Ht).
    cbn. rewrite Hs, Hf, Ht. cbn. rewrite <- !app_assoc. split; [done|].
    right; left. by exists e.
  - cbn. rewrite <- !app_assoc. split; [done|]. right; right. by exists e.
Qed.

Lemma mark_class_fields c b w0 :
  _successful_fixtures (set_classSetupFailed c b w0) = _successful_fixtures w0
  ∧ _failed_fixtures (set_classSetupFailed c b w0) = _failed_fixtures w0
  ∧ trace (set_classSetupFailed c b w0) = trace w0.
Proof. done. Qed.

(** A fixture procedure does one of three things.  It raises from the
    lookup at its head, before anything else; or it returns having done
    nothing; or it goes through the block that calls the hook it has in
    view, under the name of its key, which the ledger did not have. *)
Lemma fixture_proc_effect f test result w :
  (fixture_key f test = None
   ∧ ∃ e, (e = TypeError ∨ e = AttributeError)
          ∧ fixture_proc f test result w = (Some e, result, w))
  ∨ fixture_proc f test result w = (None, result, w)
  ∨ ∃ hook name err mark,
      fixture_key f test = Some name
      ∧ fixture_hook f test = Some hook
      ∧ recorded name w = false
      ∧ (∀ w0, _successful_fixtures (mark w0) = _successful_fixtures w0
               ∧ _failed_fixtures (mark w0) = _failed_fixtures w0
               ∧ trace (mark w0) = trace w0)
      ∧ fixture_proc f test result w = call_fixture hook name err mark result w.
Proof.
  destruct f; cbn [fixture_proc fixture_key fixture_hook] in *.
  - unfold _setup_module in *. destruct test as [c|[|[c|[|t ts]] tests]]; cbn in *;
      try (left; split; [done|]; exists TypeError; by split; [left|]).
    destruct (recorded _ w) eqn:Hrec; [by right; left|].
    destruct (sys_modules !! _) as [module|]; [|by right; left]. cbn.
    destruct (setUpModule module) as [hook|]; [|by right; left].
    right; right. eexists hook, _, _, id. by repeat split.
  - unfold _teardown_module in *. destruct test as [c|[|[c|[|t ts]] tests]]; cbn in *;
      try (left; split; [done|]; exists TypeError; by split; [left|]).
    destruct (recorded _ w) eqn:Hrec; [by right; left|].
    destruct (bool_decide _); [by right; left|].
    destruct (sys_modules !! _) as [module|]; [|by right; left]. cbn.
    destruct (tearDownModule module) as [hook|]; [|by right; left].
    right; right. eexists hook, _, _, id. by repeat split.
  - unfold _setup_class in *. destruct test as [c|[|t tests]]; cbn in *;
      [left; split; [done|]; exists TypeError; by split; [left|]
      |left; split; [done|]; exists AttributeError; by split; [right|] |].
    fold (strclass (class_of t)) in *.
    destruct (recorded _ w) eqn:Hrec; [by right; left|].
    destruct (bool_decide _); [by right; left|].
    destruct (unittest_skip _); [by right; left|].
    destruct (setUpClass _) as [hook|]; [|by right; left].
    right; right. eexists hook, _, _, (set_classSetupFailed (class_of t) true).
    do 3 (split; [done|]). split; [|done]. intros w0. apply mark_class_fields.
  - unfold _teardown_class in *. destruct test as [c|[|t tests]]; cbn in *;
      [left; split; [done|]; exists TypeError; by split; [left|]
      |left; split; [done|]; exists AttributeError; by split; [right|] |].
    fold (strclass (class_of t)) in *.
    destruct (recorded _ w) eqn:Hrec; [by right; left|].
    do 2 (destruct (bool_decide _); [by right; left|]).
    destruct (unittest_skip _); [by right; left|].
    destruct (tearDownClass _) as [hook|]; [|by right; left].
    right; right. eexists hook, _, _, id. by repeat split.
Qed.

(** *** A property of the state carried through [run] *)

Lemma run_keeps (I : Z → World → Prop) tests debug concurrency_level max_workers :
  (∀ d name w, I d w → I d (log (CallHook name) w)) →
  (∀ d id w, I d w → I d (log (RunBody id) w)) →
  (∀ d w, I d w → I (d + 1) (log SetupStdout w)) →
  (∀ d w, I (d + 1) w → I d (log RestoreStdout w)) →
  (∀ d c b w, I d w → I d (set_classSetupFailed c b w)) →
  (∀ d f test, preserves (I d) (fixture_proc f test)) →
  ∀ d, preserves (I d) (run tests debug concurrency_level max_workers).
Proof.
  intros I_hook I_body I_setup I_restore I_mark I_fixture d result w Hw. unfold run.
  destruct (_ || _); [done|]. destruct (_ || _); [by apply super_run_keeps|].
  destruct (negb _); [done|]. apply preserves_run; [apply I_fixture| |done].
  intros c result' w' Hw'. unfold TestCase_run. destruct (unittest_skip _); [done|].
  destruct (case_outcome c); by apply I_body.
Qed.

(** What a fixture procedure does to the state: nothing, or one hook
    call under the name of its key, between setting up and restoring the
    output redirection, with the name entered in at most one set of the
    ledger. *)
Lemma fixture_proc_world f test result w :
  (fixture_proc f test result w).2 = w
  ∨ ∃ name,
      fixture_key f test = Some name
      ∧ recorded name w = false
      ∧ trace (fixture_proc f test result w).2
        = trace w ++ [SetupStdout; CallHook name; RestoreStdout]
      ∧ ((_successful_fixtures (fixture_proc f test result w).2
          = {[name]} ∪ _successful_fixtures w
          ∧ _failed_fixtures (fixture_proc f test result w).2 = _failed_fixtures w)
         ∨ (_successful_fixtures (fixture_proc f test result w).2 = _successful_fixtures w
            ∧ _failed_fixtures (fixture_proc f test result w).2
              = {[name]} ∪ _failed_fixtures w)
         ∨ (_successful_fixtures (fixture_proc f test result w).2 = _successful_fixtures w
            ∧ _failed_fixtures (fixture_proc f test result w).2 = _failed_fixtures w)).
Proof.
  destruct (fixture_proc_effect f test result w)
    as [(_ & e & _ & ->)|[->|(hook & name & err & mark & Hkey & _ & Hrec & Hmark & ->)]];
    [by left|by left|].
  right. exists name. do 2 (split; [done|]).
  destruct (call_fixture_effect hook name err mark result w Hmark)
    as (exn & result' & w' & -> & Htrace & Hledger).
  split; [done|]. cbn [snd].
  destruct Hledger as [(_ & _ & _ & ? & ?)|[(e & _ & _ & _ & ? & ?)|(e & _ & _ & _ & ? & ?)]];
    auto.
Qed.

(** X9.  An exception leaves a fixture procedure in two ways only.  From
    the lookup at its head, on a suite that has no case to read the module
    or the class from: it is [TypeError] or [AttributeError], and by then
    the procedure has touched neither the result nor the ledger nor the
    output.  Or from a hook that raised an exception not deriving from
    [Exception]: it is that exception, the result is untouched, the
    fixture is in neither set of the ledger and the output redirection
    was set up before the hook and restored after it.  What a hook raises
    that derives from [Exception] never leaves the procedure. *)
Theorem fixture_procedure_exceptions f test result w e :
  (fixture_proc f test result w).1.1 = Some e →
  ((e = TypeError ∨ e = AttributeError)
   ∧ fixture_key f test = None
   ∧ fixture_proc f test result w = (Some e, result, w))
  ∨ ∃ exc name w',
      e = Raised exc
      ∧ fixture_hook f test = Some (Exits exc)
      ∧ fixture_key f test = Some name
      ∧ fixture_proc f test result w = (Some e, result, w')
      ∧ _successful_fixtures w' = _successful_fixtures w
      ∧ _failed_fixtures w' = _failed_fixtures w
      ∧ trace w' = trace w ++ [SetupStdout; CallHook name; RestoreStdout].
Proof.
  intros Hraised.
  destruct (fixture_proc_effect f test result w)
    as [(Hkey & e' & He' & Hrun)|[Hrun|(hook & name & err & mark & Hkey & Hhook & _ & Hmark & Hrun)]];
    rewrite Hrun in Hraised.
  - cbn in Hraised. injection Hraised as <-. left. by rewrite Hrun.
  - done.
  - destruct (call_fixture_effect hook name err mark result w Hmark)
      as (exn & result' & w' & Hcall & Htrace & Hledger).
    rewrite Hcall in Hraised. cbn in Hraised. subst exn.
    destruct Hledger as [(_ & ? & _)|[(e0 & _ & ? & _)|(e0 & -> & He & -> & Hs & Hf)]];
      [done|done|].
    injection He as ->. right. exists e0, name, w'. rewrite Hrun, Hcall. by repeat split.
Qed.

(** X10.  A run only adds to the ledger: whatever the arguments of [run]
    and whatever is raised, a fixture name the ledger had as succeeded or
    as failed is still there when [run] ends. *)
Theorem run_only_adds_to_ledger tests debug concurrency_level max_workers result w :
  _successful_fixtures w
    ⊆ _successful_fixtures (run tests debug concurrency_level max_workers result w).2
  ∧ _failed_fixtures w
    ⊆ _failed_fixtures (run tests debug concurrency_level max_workers result w).2.
Proof.
  apply (run_keeps (fun _ w' => _successful_fixtures w ⊆ _successful_fixtures w'
                                ∧ _failed_fixtures w ⊆ _failed_fixtures w')
                   tests debug concurrency_level max_workers); try done.
  intros _ f test result0 w0 [Hs Hf].
  destruct (fixture_proc_world f test result0 w0)
    as [->|(name & _ & _ & _ & [[-> ->]|[[-> ->]|[-> ->]]])]; [done| | |done];
    split; try done; by apply union_subseteq_r'.
Qed.

(** X11.  On a well-formed tree in which no two suites lead to the same
    fixture name, so that no two futures look up one name, no fixture
    name is ever in both sets of the ledger: if the two sets are disjoint
    when [run] is called they are disjoint when it ends. *)
Theorem run_keeps_ledger_sets_disjoint tests debug concurrency_level max_workers result w :
  well_formed tests = true →
  one_suite_per_fixture tests →
  _successful_fixtures w ## _failed_fixtures w →
  _successful_fixtures (run tests debug concurrency_level max_workers result w).2
  ## _failed_fixtures (run tests debug concurrency_level max_workers result w).2.
Proof.
  intros _ _.
  apply (run_keeps (fun _ w' => _successful_fixtures w' ## _failed_fixtures w')
                   tests debug concurrency_level max_workers); try done.
  intros _ f test result0 w0 Hdisjoint.
  destruct (fixture_proc_world f test result0 w0)
    as [->|(name & _ & Hrec & _ & [[-> ->]|[[-> ->]|[-> ->]]])]; [done| | |done];
    apply recorded_false in Hrec as [Hs Hf].
  - apply disjoint_union_l. split; [by apply disjoint_singleton_l|done].
  - apply disjoint_union_r. split; [by apply disjoint_singleton_r|done].
Qed.

(** X12.  [run] leaves the output as it found it: whatever the arguments,
    and also when a hook or, in debug mode, a test raises, every
    [_setupStdout] of the run has its [_restoreStdout]. *)
Theorem run_restores_stdout tests debug concurrency_level max_workers result w :
  stdout_depth (trace (run tests debug concurrency_level max_workers result w).2)
  = stdout_depth (trace w).
Proof.
  assert (∀ d, preserves (fun w' => stdout_depth (trace w') = stdout_depth (trace w) + d)
                         (run tests debug concurrency_level max_workers)) as Hkeeps.
  { apply (run_keeps (fun d w' => stdout_depth (trace w') = stdout_depth (trace w) + d));
      try (intros; cbn [log trace set_classSetupFailed]; rewrite ?stdout_depth_app;
           cbn [stdout_depth]; lia).
    intros d f test result0 w0 Hdepth.
    destruct (fixture_proc_world f test result0 w0) as [->|(name & _ & _ & Htrace & _)];
      [done|]. rewrite Htrace, stdout_depth_app. cbn [stdout_depth]. lia. }
  rewrite (Hkeeps 0 result w); lia.
Qed.

(** X13.  On the branch that hands over to [unittest.TestSuite.run] the
    ledger of the suite is not used: debug mode, concurrency level 0 or
    at most one worker leave both sets as they were, whatever hooks
    were called. *)
Theorem sequential_branch_leaves_ledger_alone
    tests debug concurrency_level max_workers result w :
  ROOT_LEVEL ≤ concurrency_level ≤ METHOD_LEVEL →
  debug = true ∨ concurrency_level = ROOT_LEVEL ∨ max_workers ≤ 1 →
  _successful_fixtures (run tests debug concurrency_level max_workers result w).2
  = _successful_fixtures w
  ∧ _failed_fixtures (run tests debug concurrency_level max_workers result w).2
    = _failed_fixtures w.
Proof.
  intros Hrange Hseq. rewrite (run_sequential_branch _ _ _ _ Hrange Hseq).
  by apply (super_run_keeps
              (fun _ w' => _successful_fixtures w' = _successful_fixtures w
                           ∧ _failed_fixtures w' = _failed_fixtures w)) with (d := 0).
Qed.

(** *** Procedures that end without an exception *)

Lemma returns_done : returns done_.
Proof. by intros result w. Qed.

Lemma returns_and_then a b : returns a → returns b → returns (a >> b).
Proof.
  intros Ha Hb result w. unfold and_then. specialize (Ha result w).
  destruct (a result w) as [[[e|] r'] w']; [done|]. apply Hb.
Qed.

Lemma returns_stays_in_future a : returns (stays_in_future a).
Proof. intros result w. unfold stays_in_future. by destruct (a result w) as [[e r'] w']. Qed.

Lemma returns_on_child i a : returns a → returns (on_child i a).
Proof.
  intros Ha result w. unfold on_child. destruct (children result !! i) as [r|]; [|done].
  specialize (Ha r w). by destruct (a r w) as [[e r'] w'].
Qed.

Lemma returns_for_each f tests :
  Forall (fun t => returns (f t)) tests → returns (for_each f tests).
Proof.
  induction 1 as [|t tests Ht _ IH]; cbn; [apply returns_done|]. by apply returns_and_then.
Qed.

Lemma returns_batch unit_ order : (∀ i, returns (unit_ i)) → returns (batch unit_ order).
Proof.
  intros Hunit. induction order as [|i order IH]; cbn; [apply returns_done|].
  by apply returns_and_then.
Qed.

Lemma returns_unit_of us f i : (∀ u, u ∈ us → returns (f u)) → returns (unit_of us f i).
Proof.
  intros Hf. unfold unit_of. destruct (us !! i) as [u|] eqn:Hu; [|apply returns_done].
  apply Hf. by eapply list_elem_of_lookup_2.
Qed.

Lemma returns_fan_out test setup teardown us :
  (∀ u, u ∈ us → returns (setup u.1)) →
  (∀ u, u ∈ us → returns u.2) →
  returns (fan_out test setup teardown (Some us)).
Proof.
  intros Hsetup Hbody result w. unfold fan_out.
  refine (returns_and_then _ _ _ (returns_and_then _ _ _ _) result w);
    apply returns_batch; intros i; apply returns_on_child.
  - by apply returns_unit_of.
  - by apply returns_unit_of.
  - apply returns_stays_in_future.
Qed.

Lemma returns_fan_out_cases test us : returns (fan_out_cases test (Some us)).
Proof.
  intros result w. unfold fan_out_cases.
  refine (returns_batch _ _ _ result w). intros i.
  apply returns_on_child, returns_stays_in_future.
Qed.

Lemma TestCase_run_returns c : returns (TestCase_run c).
Proof.
  intros result w. unfold TestCase_run. destruct (unittest_skip _); [done|].
  by destruct (case_outcome c).
Qed.

Lemma fixture_proc_returns f test :
  fixture_key f test ≠ None →
  hook_catchable (fixture_hook f test) = true →
  returns (fixture_proc f test).
Proof.
  intros Hkey Hcatch result w.
  destruct (fixture_proc_effect f test result w)
    as [(? & _)|[->|(hook & name & err & mark & _ & Hhook & _ & _ & ->)]]; [done|done|].
  rewrite Hhook in Hcatch. by destruct hook.
Qed.

Lemma module_suite_has_key f test :
  well_formed_at MODULE_LEVEL test = true →
  f = SetupModule ∨ f = TeardownModule →
  fixture_key f test ≠ None.
Proof.
  intros Hwf Hf. destruct test as [c|tests].
  - apply well_formed_at_case in Hwf. unfold MODULE_LEVEL, METHOD_LEVEL in Hwf. lia.
  - apply well_formed_module_suite in Hwf as (c & rest & rest' & ->).
    by destruct Hf as [-> | ->].
Qed.

Lemma class_suite_has_key f test :
  well_formed_at CLASS_LEVEL test = true →
  f = SetupClass ∨ f = TeardownClass →
  fixture_key f test ≠ None.
Proof.
  intros Hwf Hf. destruct test as [c|tests].
  - apply well_formed_at_case in Hwf. unfold CLASS_LEVEL, METHOD_LEVEL in Hwf. lia.
  - apply well_formed_class_suite in Hwf as (c & rest & ->).
    by destruct Hf as [-> | ->].
Qed.

Lemma _seq_run_returns test : ∀ level,
  well_formed_at level test = true → catchable test = true → returns (_seq_run test).
Proof.
  induction test as [c|tests IH] using Test_forall_ind; intros level Hwf Hcatch;
    [apply TestCase_run_returns|].
  pose proof (get_level_well_formed _ _ Hwf) as Hlevel.
  pose proof Hwf as (_ & _ & Hall)%well_formed_at_suite.
  pose proof (catchable_children _ Hcatch) as Hcatchable.
  assert (returns (for_each _seq_run tests)) as Hchildren.
  { apply returns_for_each, Forall_forall. intros t Ht.
    rewrite Forall_forall in IH, Hall, Hcatchable.
    apply (IH t Ht (level + 1)); [by apply Hall|by apply Hcatchable]. }
  cbn [_seq_run]. rewrite Hlevel.
  destruct (level =? MODULE_LEVEL) eqn:Hmodule.
  - assert (level = MODULE_LEVEL) as -> by lia.
    repeat apply returns_and_then; [|done|].
    + apply (fixture_proc_returns SetupModule); [|by apply catchable_hook].
      apply module_suite_has_key; auto.
    + apply (fixture_proc_returns TeardownModule); [|by apply catchable_hook].
      apply module_suite_has_key; auto.
  - destruct (level =? CLASS_LEVEL) eqn:Hclass; [|apply returns_done].
    assert (level = CLASS_LEVEL) as -> by lia.
    repeat apply returns_and_then; [|done|].
    + apply (fixture_proc_returns SetupClass); [|by apply catchable_hook].
      apply class_suite_has_key; auto.
    + apply (fixture_proc_returns TeardownClass); [|by apply catchable_hook].
      apply class_suite_has_key; auto.
Qed.

Lemma _run_suite_returns tests concurrency_level level :
  well_formed_at level (Suite tests) = true →
  (level =? concurrency_level) = false →
  Forall (fun t => catchable t = true ∧ returns (_run t (level + 1) concurrency_level)) tests →
  returns (_run (Suite tests) level concurrency_level).
Proof.
  intros Hwf Hlevel Hchildren.
  pose proof Hwf as (Hlt & _ & Hall)%well_formed_at_suite. cbn [_run]. rewrite Hlevel.
  destruct (level <? concurrency_level); [|apply returns_done].
  apply returns_and_then; [|by intros result w].
  assert (∀ u, u ∈ map (fun t => (t, _run t (level + 1) concurrency_level)) tests →
               well_formed_at (level + 1) u.1 = true ∧ catchable u.1 = true
               ∧ returns u.2) as Hunits.
  { intros u (t & -> & Ht)%elem_of_map. rewrite Forall_forall in Hchildren, Hall.
    split; [by apply Hall|]. by apply Hchildren. }
  destruct (level =? ROOT_LEVEL) eqn:Hroot.
  { assert (level = ROOT_LEVEL) as -> by lia. apply returns_fan_out.
    - intros u Hu. destruct (Hunits u Hu) as (? & ? & ?).
      apply (fixture_proc_returns SetupModule); [|by apply catchable_hook].
      apply module_suite_has_key; auto.
    - intros u Hu. by apply Hunits. }
  destruct (level =? MODULE_LEVEL) eqn:Hmodule.
  { assert (level = MODULE_LEVEL) as -> by lia. apply returns_fan_out.
    - intros u Hu. destruct (Hunits u Hu) as (? & ? & ?).
      apply (fixture_proc_returns SetupClass); [|by apply catchable_hook].
      apply class_suite_has_key; auto.
    - intros u Hu. by apply Hunits. }
  destruct (level =? CLASS_LEVEL); [apply returns_fan_out_cases|apply returns_done].
Qed.

Lemma _run_returns test concurrency_level : ∀ level,
  well_formed_at level test = true →
  catchable test = true →
  returns (_run test level concurrency_level).
Proof.
  induction test as [c|tests IH] using Test_forall_ind; intros level Hwf Hcatch.
  - apply well_formed_at_case in Hwf as ->. cbn [_run].
    destruct (METHOD_LEVEL =? concurrency_level); [apply TestCase_run_returns|].
    destruct (METHOD_LEVEL <? concurrency_level); [|apply returns_done].
    apply returns_and_then; [|by intros result w]. cbn. apply returns_done.
  - destruct (level =? concurrency_level) eqn:Hlevel.
    + cbn [_run]. rewrite Hlevel. by apply (_seq_run_returns (Suite tests) level).
    + apply _run_suite_returns; [done|done|].
      pose proof Hwf as (_ & _ & Hall)%well_formed_at_suite.
      pose proof (catchable_children _ Hcatch) as Hcatchable.
      rewrite Forall_forall in IH, Hall, Hcatchable. apply Forall_forall. intros t Ht.
      split; [by apply Hcatchable|]. apply (IH t Ht); [by apply Hall|by apply Hcatchable].
Qed.

Lemma batch_without_children (unit_ : nat → action) order result w :
  children result = [] →
  batch (fun i => on_child i (unit_ i)) order result w = (None, result, w).
Proof.
  intros Hnone. induction order as [|i order IH]; [done|].
  cbn [batch]. unfold and_then at 1, on_child at 1. by rewrite Hnone.
Qed.

(** X14.  On a well-formed suite none of whose fixture hooks raises past
    [except Exception], with a pool that cannot starve, the concurrent
    branch of [run] never raises: what a hook raises is filed in the
    result by the fixture procedure, what a test raises by the test, and
    the lookups of the fixture procedures find their case. *)
Theorem well_formed_run_never_raises tests concurrency_level max_workers result w :
  MODULE_LEVEL ≤ concurrency_level ≤ METHOD_LEVEL →
  well_formed tests = true →
  forallb catchable tests = true →
  enough_workers tests concurrency_level max_workers result = true →
  (run tests false concurrency_level max_workers result w).1.1 = None.
Proof.
  intros Hrange Hwf Hcatch [Hworkers _]%andb_true_iff.
  rewrite run_concurrent_branch; [|done|lia|by apply get_level_well_formed].
  apply _run_suite_returns; [done|unfold ROOT_LEVEL, MODULE_LEVEL in *; lia|].
  apply well_formed_at_suite in Hwf as (_ & _ & Hall).
  rewrite Forall_forall in Hall. apply Forall_forall. intros t Ht.
  rewrite forallb_forall in Hcatch.
  assert (catchable t = true) as Hc by by apply Hcatch, list_elem_of_In.
  split; [done|]. by apply _run_returns; [apply Hall|].
Qed.

(** X15.  The concurrent branch runs a child only into a child result: on
    a result that has no child results, [run] calls no hook and runs no
    test, raises nothing, and returns the result with nothing but the
    empty list folded into it. *)
Theorem run_without_child_results_runs_nothing
    tests concurrency_level max_workers result w :
  MODULE_LEVEL ≤ concurrency_level ≤ METHOD_LEVEL →
  1 < max_workers →
  _get_level (Suite tests) = ROOT_LEVEL →
  children result = [] →
  run tests false concurrency_level max_workers result w
  = (None, combine_results result [], w).
Proof.
  intros Hrange Hworkers Hlevel Hnone. rewrite run_concurrent_branch by done.
  cbn [_run]. unfold ROOT_LEVEL, MODULE_LEVEL, METHOD_LEVEL in *.
  assert ((0 =? concurrency_level) = false) as -> by lia.
  assert ((0 <? concurrency_level) = true) as -> by lia.
  cbn [Z.eqb]. unfold and_then at 1, fan_out.
  unfold and_then at 1. rewrite batch_without_children by done.
  unfold and_then at 1. rewrite batch_without_children by done.
  rewrite batch_without_children by done. by rewrite Hnone.
Qed.

End Suite.

(** * The fixture procedures with the helper of the library *)

Lemma unittest_helper_files result e error_name :
  filed e error_name result (unittest_addClassOrModuleLevelException result e error_name).
Proof.
  unfold filed, unittest_addClassOrModuleLevelException.
  by destruct (bool_decide (exc_class e = "SkipTest")).
Qed.

Lemma recovers_records_failure a name err e result w :
  recovers unittest_addClassOrModuleLevelException a name err e result w →
  records_failure a name err e result w.
Proof.
  intros (w' & Hrun & Hfailed & Htrace). eexists _, w'. split; [exact Hrun|].
  split; [apply unittest_helper_files|]. by split.
Qed.

(** C7, as the code has it.  When a fixture hook raises an exception that
    derives from [Exception], the failure is recovered inside the fixture
    procedure: the procedure returns, the fixture is in the failed set of
    the ledger, the exception is recorded in the result under the
    synthetic identity (as an error, or as a skip when it is a
    [SkipTest]), and the output redirection was set up before the hook
    and restored after it.  The redirection is restored on every exit
    path of the four procedures, also when the hook raises an exception
    that [except Exception] does not catch. *)
Theorem hook_failure_is_recorded (sys_modules : gmap string PyModule) :
  (∀ test m module e result w,
      _get_current_module test = Ok (Some m) →
      recorded (m +:+ ".setUpModule") w = false →
      sys_modules !! m = Some module →
      setUpModule module = Some (Raises e) →
      records_failure (_setup_module sys_modules unittest_addClassOrModuleLevelException test)
                      (m +:+ ".setUpModule") ("setUpModule (" +:+ m +:+ ")") e result w)
  ∧ (∀ test c e result w,
      _get_current_class test = Ok (Some c) →
      recorded (strclass c +:+ ".setUpClass") w = false →
      cls_module c +:+ ".setUpModule" ∉ _failed_fixtures w →
      unittest_skip c = false →
      setUpClass c = Some (Raises e) →
      records_failure (_setup_class unittest_addClassOrModuleLevelException test)
                      (strclass c +:+ ".setUpClass") ("setUpClass (" +:+ strclass c +:+ ")")
                      e result w)
  ∧ (∀ test m module e result w,
      _get_current_module test = Ok (Some m) →
      recorded (m +:+ ".tearDownModule") w = false →
      m +:+ ".setUpModule" ∉ _failed_fixtures w →
      sys_modules !! m = Some module →
      tearDownModule module = Some (Raises e) →
      records_failure
        (_teardown_module sys_modules unittest_addClassOrModuleLevelException test)
        (m +:+ ".tearDownModule") ("tearDownModule (" +:+ m +:+ ")") e result w)
  ∧ (∀ test c e result w,
      _get_current_class test = Ok (Some c) →
      recorded (strclass c +:+ ".tearDownClass") w = false →
      strclass c +:+ ".setUpClass" ∉ _failed_fixtures w →
      cls_module c +:+ ".setUpModule" ∉ _failed_fixtures w →
      unittest_skip c = false →
      tearDownClass c = Some (Raises e) →
      records_failure (_teardown_class unittest_addClassOrModuleLevelException test)
                      (strclass c +:+ ".tearDownClass")
                      ("tearDownClass (" +:+ strclass c +:+ ")") e result w)
  ∧ (∀ f test result w,
      stdout_depth
        (trace (fixture_proc sys_modules unittest_addClassOrModuleLevelException
                             f test result w).2)
      = stdout_depth (trace w)).
Proof.
  destruct (hook_failure_is_recovered sys_modules unittest_addClassOrModuleLevelException)
    as (Hsm & Hsc & Htm & Htc & _).
  split; [|split; [|split; [|split]]].
  - intros. by eapply recovers_records_failure, Hsm.
  - intros. by eapply recovers_records_failure, Hsc.
  - intros. by eapply recovers_records_failure, Htm.
  - intros. by eapply recovers_records_failure, Htc.
  - intros f test result w.
    destruct (fixture_proc_world sys_modules unittest_addClassOrModuleLevelException
                f test result w) as [->|(name & _ & _ & -> & _)]; [done|].
    rewrite stdout_depth_app. cbn [stdout_depth]. lia.
Qed.

(** * The properties on concrete trees *)

Import Examples.

(** C6 at work: level 5, in debug mode, on a well-formed tree. *)
Lemma run_rejects_level_5 :
  5 > METHOD_LEVEL
  ∧ run modules file_error in_order single true 5 4 (new_result []) fresh
    = (Some (ValueError "concurrency_level must be between 0 and 3."), new_result [], fresh).
Proof.
  split; [reflexivity|].
  apply run_rejects_level_out_of_range. right. reflexivity.
Defined.

(** C3 at work: the module suite of [single] after a failed setUpModule of
    [m], the class suite after a failed setUpClass of [m.A], and the class
    suite of a class marked skip. *)
Lemma teardown_suppressed_examples :
  let after_module := add_failed "m.setUpModule" fresh in
  let after_class := add_failed "m.A.setUpClass" fresh in
  no_op (_teardown_module modules file_error (Suite [Suite [Case a1]])) (new_result []) after_module
  ∧ no_op (_teardown_class file_error (Suite [Case a1])) (new_result []) after_class
  ∧ no_op (_teardown_class file_error (Suite [Case a1])) (new_result []) after_module
  ∧ no_op (_teardown_class file_error (Suite [Case s1])) (new_result []) fresh
  ∧ no_op (_setup_class file_error (Suite [Case s1])) (new_result []) fresh.
Proof.
  intros after_module after_class.
  destruct (teardown_suppressed_after_failed_setup modules file_error) as (Hm & Hc & Hs).
  split; [|split; [|split; [|split]]].
  - apply (Hm _ "m"); [reflexivity|]. apply (bool_decide_unpack _). by vm_compute.
  - apply (Hc _ class_A); [reflexivity|]. left. apply (bool_decide_unpack _). by vm_compute.
  - apply (Hc _ class_A); [reflexivity|]. right. left. apply (bool_decide_unpack _). by vm_compute.
  - apply (Hc _ class_S); [reflexivity|]. right. right. reflexivity.
  - apply (Hs _ class_S); reflexivity.
Defined.

(** C7 as stated fails: the setUpModule of [quit] raises [SystemExit],
    which leaves [_setup_module] with the fixture in neither set of the
    ledger and nothing recorded; and the setUpModule of [skip] raises
    [SkipTest], which is recovered but recorded as a skip, not as an
    error. *)
Lemma exiting_hook_is_not_recovered :
  (let out := _setup_module modules unittest_addClassOrModuleLevelException
                (Suite [Suite [Case q1]]) (new_result []) fresh in
   fixture_hook modules SetupModule (Suite [Suite [Case q1]]) = Some (Exits bye)
   ∧ out.1.1 = Some (Raised bye)
   ∧ out.1.2 = new_result []
   ∧ recorded "quit.setUpModule" out.2 = false)
  ∧ (let out := _setup_module modules unittest_addClassOrModuleLevelException
                  (Suite [Suite [Case k1]]) (new_result []) fresh in
     fixture_hook modules SetupModule (Suite [Suite [Case k1]]) = Some (Raises not_here)
     ∧ out.1.1 = None
     ∧ errors out.1.2 = []
     ∧ skipped out.1.2 = [("setUpModule (skip)", "not on this platform")]).
Proof. split; by vm_compute. Qed.

(** C7 at work: the setUpModule of [bad] and the setUpClass of [m.Broken]
    raise and are recorded as errors. *)
Lemma hook_failure_recorded_examples :
  records_failure (_setup_module modules unittest_addClassOrModuleLevelException
                     (Suite [Suite [Case bad1]]))
                  "bad.setUpModule" "setUpModule (bad)" boom (new_result []) fresh
  ∧ records_failure (_setup_class unittest_addClassOrModuleLevelException
                       (Suite [Case broken1]))
                    "m.Broken.setUpClass" "setUpClass (m.Broken)" boom (new_result []) fresh.
Proof.
  destruct (hook_failure_is_recorded modules) as (Hm & Hc & _).
  split.
  - by apply (Hm _ "bad" (mkModule (Some (Raises boom)) (Some Returns))).
  - apply (Hc _ class_broken); try reflexivity.
    intros Hin. apply (bool_decide_pack _) in Hin. by vm_compute in Hin.
Defined.

(** C9 as stated fails: on the empty module suite [_setup_module] does not
    complete; it raises. *)
Lemma empty_module_suite_setup_raises :
  ¬ (_setup_module modules file_error empty_module (new_result []) fresh
     = (None, new_result [], fresh)
     ∧ _teardown_module modules file_error empty_module (new_result []) fresh
       = (None, new_result [], fresh)).
Proof. intros [Hsetup _]. discriminate Hsetup. Qed.

(** C9 as the code has it, on the empty module suite and on a module suite
    whose first class suite is empty. *)
Lemma empty_suite_fixture_examples :
  _get_current_module (Suite [Suite []; Suite [Case a1]]) = Ok None
  ∧ _setup_module modules file_error empty_module (new_result []) fresh
    = (Some TypeError, new_result [], fresh)
  ∧ _teardown_module modules file_error (Suite [Suite []; Suite [Case a1]]) (new_result []) fresh
    = (Some TypeError, new_result [], fresh).
Proof.
  destruct (empty_suite_fixture_raises_TypeError modules file_error) as (_ & _ & H).
  split; [reflexivity|]. split.
  - by apply H.
  - by apply H.
Defined.

(** C2 as stated fails: on the branch that hands over to
    [unittest.TestSuite.run] the ledger is not consulted, and within one
    run of [interleaved] with one worker the setUpClass and the
    tearDownClass of [m.A] are each called twice. *)
Lemma sequential_run_calls_hook_twice :
  well_formed interleaved = true
  ∧ hook_calls (trace (run modules file_error in_order interleaved false 3 1
                         (new_result []) fresh).2)
    = ["m.setUpModule"; "m.A.setUpClass"; "m.A.tearDownClass";
       "m.B.setUpClass"; "m.B.tearDownClass";
       "m.A.setUpClass"; "m.A.tearDownClass"; "m.tearDownModule"]
  ∧ ¬ NoDup (hook_calls (trace (run modules file_error in_order interleaved false 3 1
                                  (new_result []) fresh).2)).
Proof.
  split; [reflexivity|]. split; [by vm_compute|].
  intros Hnodup. apply (bool_decide_pack _) in Hnodup. by vm_compute in Hnodup.
Qed.

(** C2 at work: with setUpModule of [m] in the ledger the procedure is a
    no-op on another suite of the module; over a series that asks four
    times for setUpModule of [m] and twice for its tearDownModule, through
    three different suites, each is called once; and so is every hook of
    [two_by_two] run at level Method with eight workers, the futures
    completing in reverse order. *)
Lemma fixture_once_examples :
  no_op (_setup_module modules file_error (Suite [Suite [Case b1]]))
        (new_result []) (add_successful "m.setUpModule" fresh)
  ∧ hook_calls (trace (invoke_all modules file_error
                         [(SetupModule, Suite [Suite [Case a1]]);
                          (SetupModule, Suite [Suite [Case b1]]);
                          (SetupClass, Suite [Case a1]);
                          (SetupModule, Suite [Suite [Case a1]]);
                          (TeardownModule, Suite [Suite [Case b1]]);
                          (TeardownModule, Suite [Suite [Case a1]]);
                          (SetupModule, Suite [Suite [Case a2]])]
                         (new_result []) fresh).2)
    = ["m.setUpModule"; "m.A.setUpClass"; "m.tearDownModule"]
  ∧ NoDup (hook_calls (trace (run modules file_error reversed two_by_two false 3 8
                                (result_for (Suite two_by_two) 0 3) fresh).2)).
Proof.
  destruct (fixture_hooks_run_at_most_once modules file_error reversed)
    as (Hnoop & _ & _ & Hrun).
  split; [|split].
  - apply (Hnoop SetupModule _ "m.setUpModule"); [reflexivity|]. by vm_compute.
  - by vm_compute.
  - apply Hrun.
    + unfold MODULE_LEVEL, METHOD_LEVEL. lia.
    + reflexivity.
    + split; apply (bool_decide_unpack _); by vm_compute.
    + by vm_compute.
    + by vm_compute.
    + reflexivity.
Defined.

(** C10 at work: the stray case of [stray_case] is run by the sequential
    branch, at concurrency level Method with one worker. *)
Lemma sequential_branch_runs_malformed_tree :
  well_formed stray_case = false
  ∧ run modules file_error in_order stray_case false 3 1 (new_result []) fresh
    = super_run modules file_error stray_case false (new_result []) fresh
  ∧ (run modules file_error in_order stray_case false 3 1 (new_result []) fresh).1.1 = None
  ∧ testsRun (run modules file_error in_order stray_case false 3 1 (new_result []) fresh).1.2
    = 2%nat.
Proof.
  split; [reflexivity|].
  destruct (sequential_branch_skips_wellformedness_check
              modules file_error in_order stray_case false 3 1 (new_result []) fresh)
    as [Hrun _]; [done|right; right; done|].
  split; [exact Hrun|]. split; by vm_compute.
Defined.

(** C5 on the code: [stray_case] is not well-formed, its first-child spine
    is, so [_get_level] gives Root and the concurrent branch accepts it.
    At concurrency level Module with two workers the run ends without any
    exception and both cases have run, the stray one outside any class
    fixture. *)
Lemma malformed_tree_passes_the_check :
  well_formed stray_case = false
  ∧ _get_level (Suite stray_case) = ROOT_LEVEL
  ∧ Forall (fun schedule =>
              let out := run modules file_error schedule stray_case false 1 2
                             slots_to_module fresh in
              out.1.1 = None
              ∧ trace out.2
                = [SetupStdout; CallHook "m.setUpModule"; RestoreStdout;
                   SetupStdout; CallHook "m.A.setUpClass"; RestoreStdout;
                   RunBody "m.A.test_1";
                   SetupStdout; CallHook "m.A.tearDownClass"; RestoreStdout;
                   RunBody "m.A.test_2";
                   SetupStdout; CallHook "m.tearDownModule"; RestoreStdout])
           [in_order; reversed].
Proof.
  split; [reflexivity|]. split; [reflexivity|].
  repeat constructor; by vm_compute.
Qed.

(** C4 fails on the concurrent branch: with a pool that cannot starve, at
    every concurrency level, the body of a test of [m.Broken] runs after
    the setUpClass of [m.Broken] failed, and the body of a test of module
    [bad] runs after the setUpModule of [bad] failed.  The branch that
    hands over to [unittest.TestSuite.run] runs no body in either case. *)
Lemma bodies_run_after_failed_setup :
  Forall (fun '(concurrency_level, max_workers, slots) =>
            let out := run modules file_error in_order failing_class false
                           concurrency_level max_workers slots fresh in
            enough_workers failing_class concurrency_level max_workers slots = true
            ∧ out.1.1 = None
            ∧ elements (_failed_fixtures out.2) = ["m.Broken.setUpClass"]
            ∧ trace out.2
              = [SetupStdout; CallHook "m.setUpModule"; RestoreStdout;
                 SetupStdout; CallHook "m.Broken.setUpClass"; RestoreStdout;
                 RunBody "m.Broken.test_1";
                 SetupStdout; CallHook "m.tearDownModule"; RestoreStdout])
         [(1, 2, slots_to_module); (2, 2, slots_to_class); (3, 3, slots_to_method)]
  ∧ Forall (fun '(concurrency_level, max_workers, slots) =>
              let out := run modules file_error in_order failing_module false
                             concurrency_level max_workers slots fresh in
              enough_workers failing_module concurrency_level max_workers slots = true
              ∧ out.1.1 = None
              ∧ elements (_failed_fixtures out.2) = ["bad.setUpModule"]
              ∧ trace out.2
                = [SetupStdout; CallHook "bad.setUpModule"; RestoreStdout;
                   RunBody "bad.C.test_1"])
           [(1, 2, slots_to_module); (2, 2, slots_to_class); (3, 3, slots_to_method)]
  ∧ (let out := run modules file_error in_order failing_class false 0 2
                    (new_result []) fresh in
     out.1.1 = None
     ∧ testsRun out.1.2 = 0%nat
     ∧ trace out.2
       = [SetupStdout; CallHook "m.setUpModule"; RestoreStdout;
          SetupStdout; CallHook "m.Broken.setUpClass"; RestoreStdout;
          SetupStdout; CallHook "m.tearDownModule"; RestoreStdout])
  ∧ (let out := run modules file_error in_order failing_module false 0 2
                    (new_result []) fresh in
     out.1.1 = None
     ∧ testsRun out.1.2 = 0%nat
     ∧ trace out.2 = [SetupStdout; CallHook "bad.setUpModule"; RestoreStdout]).
Proof.
  split; [|split; [|split]]; repeat constructor; by vm_compute.
Qed.

(** C1 fails on the code.  On [failing_class], a well-formed tree whose
    setUpClass raises, and on [failing_module], one whose setUpModule
    raises, with the helper of the library and a pool that cannot starve,
    the run on the branch that hands over to [unittest.TestSuite.run] and
    the run divided at level Module or Class both return, and their
    results differ: the first counts no test, the second counts the test
    whose body ran after the failed setup. *)
Lemma runs_differ_after_failed_setup :
  Forall (fun tests =>
            well_formed tests = true
            ∧ Forall (fun '(concurrency_level, slots) =>
                        let sequential :=
                          run modules unittest_addClassOrModuleLevelException in_order
                              tests false 0 2 slots fresh in
                        let concurrent :=
                          run modules unittest_addClassOrModuleLevelException in_order
                              tests false concurrency_level 2 slots fresh in
                        enough_workers tests concurrency_level 2 slots = true
                        ∧ sequential.1.1 = None
                        ∧ concurrent.1.1 = None
                        ∧ testsRun sequential.1.2 = 0%nat
                        ∧ testsRun concurrent.1.2 = 1%nat
                        ∧ ¬ same_outcome sequential.1.2 concurrent.1.2)
                     [(1, slots_to_module); (2, slots_to_class)])
         [failing_class; failing_module].
Proof.
  repeat constructor; try by vm_compute.
  all: intros [Hcount _]; vm_compute in Hcount; discriminate Hcount.
Qed.

(** In debug mode the inherited run hands every child suite a fresh
    [_DebugResult] and lets the exceptions of the tests through: on a
    well-formed tree the caller's result counts no test, and a failing
    test makes [run] raise. *)
Lemma debug_run_differs :
  well_formed failing_case = true
  ∧ well_formed single = true
  ∧ (let sequential := run modules file_error in_order failing_case true 1 2
                           slots_to_module fresh in
     let concurrent := run modules file_error in_order failing_case false 1 2
                           slots_to_module fresh in
     ¬ (sequential.1.1 = None ∧ concurrent.1.1 = None
        ∧ same_outcome sequential.1.2 concurrent.1.2))
  ∧ (let sequential := run modules file_error in_order single true 1 2
                           slots_to_module fresh in
     let concurrent := run modules file_error in_order single false 1 2
                           slots_to_module fresh in
     sequential.1.1 = None ∧ concurrent.1.1 = None
     ∧ ¬ same_outcome sequential.1.2 concurrent.1.2).
Proof.
  split; [reflexivity|]. split; [reflexivity|]. split.
  - cbv zeta. intros (Hseq & _). vm_compute in Hseq. discriminate Hseq.
  - cbv zeta. split; [reflexivity|]. split; [reflexivity|].
    intros [Hcount _]. vm_compute in Hcount. discriminate Hcount.
Qed.

(** X18 at work: two modules of two classes of two cases, with a failure,
    an error, a skipped class and a skip raised in a body; the futures of
    every batch complete in the opposite order of their submission; the
    sequential run is at level Root and the concurrent one at level
    Method with eight workers. *)
Lemma two_by_two_runs_agree :
  let r0 := result_for (Suite two_by_two) ROOT_LEVEL 3 in
  let sequential := run modules file_error reversed two_by_two false 0 8 r0 fresh in
  let concurrent := run modules file_error reversed two_by_two false 3 8 r0 fresh in
  sequential.1.1 = None
  ∧ concurrent.1.1 = None
  ∧ same_outcome sequential.1.2 concurrent.1.2
  ∧ slots_in_order two_by_two concurrent.1.2.
Proof.
  destruct (sequential_and_concurrent_runs_agree
              modules file_error reversed two_by_two 0 8 3 8 fresh)
    as (Hseq & Hconc & Hsame & Hslots).
  - intros phase t n. unfold reversed. symmetry. apply Permutation_rev.
  - reflexivity.
  - by vm_compute.
  - split; apply (bool_decide_unpack _); by vm_compute.
  - by vm_compute.
  - reflexivity.
  - unfold ROOT_LEVEL, METHOD_LEVEL. lia.
  - left. reflexivity.
  - unfold ROOT_LEVEL, METHOD_LEVEL. lia.
  - lia.
  - right. right. by vm_compute.
  - split; [exact Hseq|]. split; [exact Hconc|]. split; [exact Hsame|].
    apply Hslots; reflexivity.
Defined.

(** * More of the module, on concrete trees *)

(** What [convert] makes of [loaded], grouping by the module of the class. *)
Lemma convert_loaded :
  convert module_of_class loaded
  = Suite [Suite [Suite [Case a1; Case a2]; Suite [Case b1; Case b2]];
           Suite [Suite [Case s1; Case s2]; Suite [Case t1; Case t2]]].
Proof. reflexivity. Qed.

(** X2 at work: [loaded] is nested unevenly and holds an empty suite. *)
Lemma convert_loaded_is_well_formed :
  well_formed (tests_of loaded) = false
  ∧ well_formed (tests_of (convert module_of_class loaded)) = true.
Proof.
  split; [reflexivity|]. apply convert_is_well_formed. discriminate.
Defined.

(** X3 at work: the class suite of [m.A] in [convert loaded]. *)
Lemma convert_loaded_class_suite :
  ∃ c0, c0 ∈ cases_of loaded
        ∧ Suite [Case a1; Case a2]
          = Suite (map Case (filter (same_group module_of_class c0) (cases_of loaded))).
Proof.
  apply (convert_class_suite_is_a_group module_of_class loaded
           (Suite [Suite [Case a1; Case a2]; Suite [Case b1; Case b2]])).
  - rewrite convert_loaded. cbn [tests_of]. apply list_elem_of_here.
  - cbn [tests_of]. apply list_elem_of_here.
Defined.

(** X4 at work: [a1] and [a2] are of one module and one class, and the
    suites they are found in are the same. *)
Lemma convert_loaded_groups_distinct :
  same_group module_of_class a1 a2
  ∧ Suite [Suite [Case a1; Case a2]; Suite [Case b1; Case b2]]
    = Suite [Suite [Case a1; Case a2]; Suite [Case b1; Case b2]]
  ∧ Suite [Case a1; Case a2] = Suite [Case a1; Case a2].
Proof.
  assert (same_group module_of_class a1 a2) as Hsame by (split; reflexivity).
  split; [exact Hsame|].
  apply (convert_groups_are_distinct module_of_class loaded _ _ _ _ a1 a2).
  - rewrite convert_loaded. cbn [tests_of]. apply list_elem_of_here.
  - cbn [tests_of]. apply list_elem_of_here.
  - rewrite convert_loaded. cbn [tests_of]. apply list_elem_of_here.
  - cbn [tests_of]. apply list_elem_of_here.
  - cbn. apply list_elem_of_here.
  - cbn. apply list_elem_of_further, list_elem_of_here.
  - exact Hsame.
Defined.

(** X5 at work: a collection of empty suites, at level Class with four
    workers. *)
Lemma convert_nothing_loaded_is_rejected :
  convert module_of_class nothing_loaded = Suite []
  ∧ run modules file_error in_order (tests_of (convert module_of_class nothing_loaded))
        false 2 4 (new_result []) fresh
    = (Some (RuntimeError "Test suite is not well-formed."), new_result [], fresh).
Proof.
  apply convert_of_nothing_is_rejected.
  - reflexivity.
  - unfold MODULE_LEVEL, METHOD_LEVEL. lia.
  - lia.
Defined.

(** X6 at work: [a2] is not the first case of its class suite. *)
Lemma convert_loaded_class_lookup :
  _get_current_class (Suite [Case a1; Case a2]) = Ok (Some (case_class a2)).
Proof.
  apply (convert_class_lookup_speaks_for_all module_of_class loaded
           (Suite [Suite [Case a1; Case a2]; Suite [Case b1; Case b2]])).
  - rewrite convert_loaded. cbn [tests_of]. apply list_elem_of_here.
  - cbn [tests_of]. apply list_elem_of_here.
  - cbn. apply list_elem_of_further, list_elem_of_here.
Defined.

(** X7 at work: [b2] is in the second class suite of its module suite. *)
Lemma convert_loaded_module_lookup :
  _get_current_module (Suite [Suite [Case a1; Case a2]; Suite [Case b1; Case b2]])
  = Ok (Some (cls_module (case_class b2))).
Proof.
  apply (convert_module_lookup_speaks_for_all module_of_class loaded).
  - intros c _. reflexivity.
  - rewrite convert_loaded. cbn [tests_of]. apply list_elem_of_here.
  - cbn. do 3 apply list_elem_of_further. apply list_elem_of_here.
Defined.

(** X9 at work: [_setup_class] on the empty suite, and [_setup_module] on
    the module suite of [quit], whose setUpModule raises [SystemExit]. *)
Lemma fixture_procedure_exceptions_examples :
  ((AttributeError = TypeError ∨ AttributeError = AttributeError)
   ∧ fixture_key SetupClass (Suite []) = None
   ∧ fixture_proc modules file_error SetupClass (Suite []) (new_result []) fresh
     = (Some AttributeError, new_result [], fresh))
  ∧ ∃ w',
      fixture_proc modules file_error SetupModule (Suite [Suite [Case q1]])
                   (new_result []) fresh
      = (Some (Raised bye), new_result [], w')
      ∧ _successful_fixtures w' = ∅
      ∧ _failed_fixtures w' = ∅
      ∧ trace w' = [SetupStdout; CallHook "quit.setUpModule"; RestoreStdout].
Proof.
  split.
  - destruct (fixture_procedure_exceptions modules file_error SetupClass (Suite [])
                (new_result []) fresh AttributeError eq_refl)
      as [Hlookup|(exc & name & w' & Hexc & _)]; [exact Hlookup|discriminate Hexc].
  - destruct (fixture_procedure_exceptions modules file_error SetupModule
                (Suite [Suite [Case q1]]) (new_result []) fresh (Raised bye) eq_refl)
      as [([Hexc|Hexc] & _)|(exc & name & w' & Hexc & _ & Hkey & Hrun & Hs & Hf & Htrace)];
      [discriminate Hexc|discriminate Hexc|].
    injection Hkey as <-. exists w'. by repeat split.
Defined.

(** X11 at work: [failing_class] at level Method, from the empty ledger. *)
Lemma failing_class_ledger_disjoint :
  let w := (run modules file_error reversed failing_class false 3 4
              (result_for (Suite failing_class) 0 3) fresh).2 in
  _successful_fixtures w ## _failed_fixtures w.
Proof.
  apply run_keeps_ledger_sets_disjoint.
  - reflexivity.
  - split; apply (bool_decide_unpack _); by vm_compute.
  - cbn. apply disjoint_empty_l.
Defined.

(** X13 at work: [two_by_two] with one worker, at level Method. *)
Lemma one_worker_leaves_ledger_alone :
  let w := (run modules file_error in_order two_by_two false 3 1 (new_result []) fresh).2 in
  _successful_fixtures w = ∅ ∧ _failed_fixtures w = ∅.
Proof.
  apply (sequential_branch_leaves_ledger_alone modules file_error in_order
           two_by_two false 3 1 (new_result []) fresh).
  - unfold ROOT_LEVEL, METHOD_LEVEL. lia.
  - right. right. lia.
Defined.

(** X14 at work: [failing_class] and [failing_module], whose hooks raise,
    at level Method with four workers. *)
Lemma failing_hooks_do_not_leave_run :
  (run modules file_error reversed failing_class false 3 4
     (result_for (Suite failing_class) 0 3) fresh).1.1 = None
  ∧ (run modules file_error reversed failing_module false 3 4
       (result_for (Suite failing_module) 0 3) fresh).1.1 = None.
Proof.
  split; apply well_formed_run_never_raises;
    [unfold MODULE_LEVEL, METHOD_LEVEL; lia | reflexivity | by vm_compute | by vm_compute
    |unfold MODULE_LEVEL, METHOD_LEVEL; lia | reflexivity | by vm_compute | by vm_compute].
Defined.

(** X15 at work: [two_by_two] at level Method into a result without child
    results. *)
Lemma two_by_two_without_child_results :
  run modules file_error in_order two_by_two false 3 4 (new_result []) fresh
  = (None, combine_results (new_result []) [], fresh).
Proof.
  apply run_without_child_results_runs_nothing.
  - unfold MODULE_LEVEL, METHOD_LEVEL. lia.
  - lia.
  - reflexivity.
  - reflexivity.
Defined.

(** X16 at work: a tree whose case is two levels down. *)
Lemma run_rejects_shallow_tree :
  _get_level (Suite [Suite [Case a1]]) ≠ ROOT_LEVEL
  ∧ run modules file_error in_order [Suite [Case a1]] false 3 4 slots_to_method fresh
    = (Some (RuntimeError "Test suite is not well-formed."), slots_to_method, fresh).
Proof.
  assert (_get_level (Suite [Suite [Case a1]]) ≠ ROOT_LEVEL) as Hlevel by (vm_compute; discriminate).
  split; [exact Hlevel|].
  apply run_rejects_spine_of_wrong_depth; [unfold MODULE_LEVEL, METHOD_LEVEL; lia|lia|exact Hlevel].
Defined.

(** X17 at work: the class suite of [m.A] after setUpModule of [m] failed. *)
Lemma setup_class_suppressed_example :
  no_op (_setup_class file_error (Suite [Case a1])) (new_result [])
        (add_failed "m.setUpModule" fresh).
Proof.
  apply (setup_class_suppressed_after_failed_module file_error _ class_A); [reflexivity|].
  apply (bool_decide_unpack _). by vm_compute.
Defined.
